(** * dask-sql window functions: [dask_sql/physical/rel/logical/window.py]

    A shallow embedding of the window plugin (bound resolution, the frame
    indexer, the per-partition executor and the plan driver) and the
    properties the specification states about it.

    Python values are embedded as follows: [int] is [Z]; [None] is the
    [None] of [option]; a list, a numpy array and a pandas column are Rocq
    lists; a registry ([dict] looked up by name) is a [gmap string _] and a
    [dict] whose insertion order matters is a list of pairs; a raised
    exception is the [Raise] branch of [result].  [NonTermination] is not a
    Python exception: it marks a loop that would not end. *)

From Stdlib Require Import ZArith Lia Ascii String.
From stdpp Require Import base list strings gmap pretty.

Open Scope Z_scope.

(** ** Exceptions and the error monad *)

Inductive exception : Type :=
  | AssertionError
  | TypeError
  | ValueError
  | OverflowError
  | IndexError
  | KeyError (key : string)
  | NotImplementedError (message : string)
  | NonTermination.

Inductive result (A : Type) : Type :=
  | Ok (a : A)
  | Raise (e : exception).
Arguments Ok {A} a.
Arguments Raise {A} e.

#[global] Instance result_ret : MRet result := fun _ a => Ok a.
#[global] Instance result_bind : MBind result := fun _ _ f m =>
  match m with
  | Ok a => f a
  | Raise e => Raise e
  end.
#[global] Instance result_fmap : FMap result := fun _ _ f m =>
  match m with
  | Ok a => Ok (f a)
  | Raise e => Raise e
  end.

(** ** numpy arrays of [np.int64] *)

Module np.

Definition int64_min : Z := - 2 ^ 63.
Definition int64_max : Z := 2 ^ 63 - 1.

Definition fits_int64 (z : Z) : bool :=
  (int64_min <=? z) && (z <=? int64_max).

(** Storing Python ints into [np.int64] cells: numpy refuses an int that
    does not fit ("Python int too large to convert to C long"). *)
Definition as_int64 (cells : list Z) : result (list Z) :=
  if forallb fits_int64 cells then Ok cells else Raise OverflowError.

(** [np.zeros(n, dtype=np.int64)] *)
Definition zeros (n : nat) : result (list Z) :=
  Ok (replicate n 0).

(** [np.full(n, fill_value, dtype=np.int64)] *)
Definition full (n : nat) (fill_value : Z) : result (list Z) :=
  as_int64 (replicate n fill_value).

(** [np.arange(start, stop, dtype=np.int64)]: [start, start+1, ..., stop-1],
    empty when [stop <= start]. *)
Definition arange (start stop : Z) : result (list Z) :=
  as_int64 (seqZ start (stop - start)).

(** Python's normalisation of one slice index against a length: a negative
    index counts from the end, and the result is clipped to [0, len]. *)
Definition slice_index (len i : Z) : Z :=
  if i <? 0 then Z.max 0 (len + i) else Z.min len i.

(** [a[lo:hi] = v] with step 1; [None] stands for an omitted index. *)
Definition setslice (a : list Z) (lo hi : option Z) (v : Z) : result (list Z) :=
  let len := Z.of_nat (length a) in
  let b := from_option (slice_index len) 0 lo in
  let e := from_option (slice_index len) len hi in
  if fits_int64 v
  then Ok (imap (fun i x => if (b <=? Z.of_nat i) && (Z.of_nat i <? e) then v else x) a)
  else Raise OverflowError.

End np.

(** ** [class Indexer(BaseIndexer)]

    [start] and [end] are the keyword arguments [__init__] hands to
    [BaseIndexer], each an [int] or [None]. *)

Record Indexer : Type := mkIndexer {
  ix_start : option Z;
  ix_end : option Z
}.

(** [Indexer.get_window_bounds(num_values)]; [min_periods], [center] and
    [closed] are not read by the method.  Lines 129-136 build [start] and
    lines 137-148 build [end]; the method runs them in this order. *)
Definition window_start (self : Indexer) (num_values : nat) : result (list Z) :=
  let n := Z.of_nat num_values in
  match ix_start self with
  | None => np.zeros num_values
  | Some s =>
      start ← np.arange s (s + n);
      if s <? 0 then np.setslice start None (Some (- s)) 0
      else if 0 <? s then np.setslice start (Some (- s)) None n
      else Ok start
  end.

Definition window_end (self : Indexer) (num_values : nat) : result (list Z) :=
  let n := Z.of_nat num_values in
  match ix_end self with
  | None => np.full num_values n
  | Some e =>
      end_ ← np.arange (e + 1) (e + 1 + n);
      if 0 <? e then np.setslice end_ (Some (- e)) None n
      else if e <? 0 then np.setslice end_ None (Some (- e)) 0
      else Raise AssertionError
  end.

Definition get_window_bounds (self : Indexer) (num_values : nat)
  : result (list Z * list Z) :=
  start ← window_start self num_values;
  end_ ← window_end self num_values;
  Ok (start, end_).

(** Rule 3 of §4.2 in the specification's words:
    [start_i = clamp(i + lower_offset, 0, n)] and
    [end_i = clamp(i + upper_offset + 1, 0, n)], an absent offset standing
    for the unbounded side. *)
Definition clamp (x lo hi : Z) : Z := Z.min (Z.max x lo) hi.

Definition general_start (lower_offset : option Z) (n : nat) : list Z :=
  match lower_offset with
  | None => replicate n 0
  | Some s => (fun i => clamp (i + s) 0 (Z.of_nat n)) <$> seqZ 0 (Z.of_nat n)
  end.

Definition general_end (upper_offset : option Z) (n : nat) : list Z :=
  match upper_offset with
  | None => replicate n (Z.of_nat n)
  | Some e => (fun i => clamp (i + e + 1) 0 (Z.of_nat n)) <$> seqZ 0 (Z.of_nat n)
  end.

(** ** [BoundDescription] *)

Record BoundDescription : Type := mkBound {
  is_unbounded : bool;
  is_preceding : bool;
  is_following : bool;
  is_current_row : bool;
  offset : option Z
}.

(** ** The windowing step of [map_on_each_group] *)

(** What [partitioned_group.expanding(...)] and [partitioned_group.rolling(...)]
    return: the kind of window, still without any frame computed (pandas asks
    the indexer for its bounds only when an aggregation runs). *)
Inductive Window : Type :=
  | Expanding
  | Rolling (window : Z)
  | RollingIndexer (indexer : Indexer).

(** [upper_bound.offset == 0]; [None == 0] is [False]. *)
Definition offset_eq_0 (b : BoundDescription) : bool :=
  match offset b with
  | Some k => k =? 0
  | None => false
  end.

(** The [else] branch, lines 180-185: the signed offset of one bound. *)
Definition signed_offset (b : BoundDescription) : option Z :=
  let o := if is_current_row b then Some 0 else offset b in
  if is_preceding b then Z.opp <$> o else o.

(** The [else] branch, line 187: [Indexer(lower_offset, upper_offset)]. *)
Definition general_indexer (lower_bound upper_bound : BoundDescription) : Indexer :=
  mkIndexer (signed_offset lower_bound) (signed_offset upper_bound).

(** Lines 169-188.  [lower_bound.offset + 1] is a [TypeError] on [None], and
    pandas' [rolling] refuses a negative integer window with [ValueError]. *)
Definition select_window (lower_bound upper_bound : BoundDescription) : result Window :=
  if is_unbounded lower_bound && (is_current_row upper_bound || offset_eq_0 upper_bound)
  then Ok Expanding
  else if is_preceding lower_bound && (is_current_row upper_bound || offset_eq_0 upper_bound)
  then
    match offset lower_bound with
    | None => Raise TypeError
    | Some k => if k + 1 <? 0 then Raise ValueError else Ok (Rolling (k + 1))
    end
  else Ok (RollingIndexer (general_indexer lower_bound upper_bound)).

(** ** The frames of the two fast paths, as the specification words them *)

(** Rule 1 of §4.2: [start_i = 0], [end_i = i + 1]. *)
Definition fast_path_expanding (n : nat) : list Z * list Z :=
  (replicate n 0, (fun i => i + 1) <$> seqZ 0 (Z.of_nat n)).

(** Rule 2 of §4.2, for a window of width [w = lower.offset + 1]:
    [start_i = max(0, i - lower.offset)], [end_i = i + 1]. *)
Definition fast_path_trailing (w : Z) (n : nat) : list Z * list Z :=
  ((fun i => Z.max 0 (i - (w - 1))) <$> seqZ 0 (Z.of_nat n),
   (fun i => i + 1) <$> seqZ 0 (Z.of_nat n)).

(** The frames a window yields for a partition of [n] rows, computed when an
    aggregation runs.  For [expanding] and an integer [rolling] window these
    are pandas' own indexers, taken as rules 1 and 2 describe them; for the
    custom indexer pandas calls [get_window_bounds]. *)
Definition window_bounds (w : Window) (n : nat) : result (list Z * list Z) :=
  match w with
  | Expanding => Ok (fast_path_expanding n)
  | Rolling width => Ok (fast_path_trailing width n)
  | RollingIndexer indexer => get_window_bounds indexer n
  end.

(** The Frame Indexer of §4.2 as the code realises it: the window chosen by
    [map_on_each_group], then its frames. *)
Definition frame_bounds (lower_bound upper_bound : BoundDescription) (n : nat)
  : result (list Z * list Z) :=
  w ← select_window lower_bound upper_bound;
  window_bounds w n.

(** The bound pairs of the two fast paths: rule 1, or else rule 2. *)
Definition upper_at_current_row (upper_bound : BoundDescription) : bool :=
  is_current_row upper_bound || offset_eq_0 upper_bound.

Definition fast_path_case (lower_bound upper_bound : BoundDescription) : bool :=
  (is_unbounded lower_bound || is_preceding lower_bound)
  && upper_at_current_row upper_bound.

(** The fast-path formula that applies to a lower bound: rule 1 when it is
    unbounded, rule 2 with width [lower.offset + 1] otherwise. *)
Definition fast_path_bounds (lower_bound : BoundDescription) (n : nat) : list Z * list Z :=
  if is_unbounded lower_bound then fast_path_expanding n
  else fast_path_trailing (default 0 (offset lower_bound) + 1) n.

(** ** Validity of bounds, after §3 of the specification *)

(** One bound is unbounded or the current row (no offset, no other kind), or
    a preceding/following bound with a non-negative row count. *)
Definition wf_bound (b : BoundDescription) : bool :=
  if is_unbounded b
  then negb (is_current_row b) && xorb (is_preceding b) (is_following b)
       && bool_decide (offset b = None)
  else if is_current_row b
  then negb (is_preceding b) && negb (is_following b) && bool_decide (offset b = None)
  else xorb (is_preceding b) (is_following b)
       && match offset b with Some k => 0 <=? k | None => false end.

(** A pair is a frame when the lower bound does not lie after the upper one:
    the lower bound is not UNBOUNDED FOLLOWING, the upper bound is not
    UNBOUNDED PRECEDING, and two finite bounds are ordered by their signed
    offsets. *)
Definition lower_le_upper (lower_bound upper_bound : BoundDescription) : bool :=
  negb (is_unbounded lower_bound && is_following lower_bound)
  && negb (is_unbounded upper_bound && is_preceding upper_bound)
  && match signed_offset lower_bound, signed_offset upper_bound with
     | Some l, Some u => l <=? u
     | _, _ => true
     end.

Definition valid_pair (lower_bound upper_bound : BoundDescription) : bool :=
  wf_bound lower_bound && wf_bound upper_bound && lower_le_upper lower_bound upper_bound.

(** Offsets and partition lengths are row counts; every int64 computation of
    the indexer is exact for them. *)
Definition row_count_scale (z : Z) : Prop := - 2 ^ 62 < z < 2 ^ 62.

Definition bound_scale (b : BoundDescription) : Prop :=
  match offset b with
  | Some k => row_count_scale k
  | None => True
  end.

(** The bounds used in the examples. *)
Definition UNBOUNDED_PRECEDING : BoundDescription := mkBound true true false false None.
Definition UNBOUNDED_FOLLOWING : BoundDescription := mkBound true false true false None.
Definition CURRENT_ROW : BoundDescription := mkBound false false false true None.
Definition PRECEDING (k : Z) : BoundDescription := mkBound false true false false (Some k).
Definition FOLLOWING (k : Z) : BoundDescription := mkBound false false true false (Some k).

(** ** The Bound Resolver: [to_bound_description] *)

(** The Calcite nodes the plugin meets: a reference to an input column (or
    to the constant pool behind the real columns), a literal, and any other
    expression. *)
Inductive SqlLiteral : Type :=
  | IntegerLiteral (z : Z)
  | DecimalLiteral (unscaled : Z) (scale : nat)
  | CharLiteral (s : string)
  | NullLiteral.

Inductive RexNode : Type :=
  | RexInputRef (getIndex : Z)
  | RexLiteral (getValue : SqlLiteral)
  | RexCall (getOperator : string).

(** A [RexWindowBound] as the plugin reads it: the values of its five
    accessors.  [getOffset] is Java's [null], that is [None], when the bound
    has no offset. *)
Record RexWindowBound : Type := mkRexWindowBound {
  getOffset : option RexNode;
  isUnbounded : bool;
  isPreceding : bool;
  isFollowing : bool;
  isCurrentRow : bool
}.

(** [l[i]] on a Python list: a negative index counts from the end, and an
    index outside [-len, len) raises [IndexError]. *)
Definition py_getitem {A : Type} (l : list A) (i : Z) : result A :=
  let len := Z.of_nat (length l) in
  let j := if i <? 0 then i + len else i in
  if (0 <=? j) && (j <? len)
  then from_option Ok (Raise IndexError) (l !! Z.to_nat j)
  else Raise IndexError.

(** A conversion used in the examples: an integer literal is its value, and
    anything else is refused. *)
Definition integer_literal_value (node : RexNode) : result Z :=
  match node with
  | RexLiteral (IntegerLiteral z) => Ok z
  | _ => Raise TypeError
  end.

(** Lines 104-110: the description copies the four flags of the bound. *)
Definition copied_flags (java_window : RexWindowBound) (offset : option Z)
  : BoundDescription :=
  mkBound (isUnbounded java_window) (isPreceding java_window)
    (isFollowing java_window) (isCurrentRow java_window) offset.

Section BoundResolver.

(** [int(RexLiteralPlugin().convert(node, None, None))]: the literal plugin
    lives in [dask_sql.physical.rex.core.literal] and is taken as given. *)
Variable literal_int : RexNode -> result Z.

(** Lines 90-99: a reference is looked up in the constant pool, at its
    index less the number of real columns; any other node is kept. *)
Definition dereference (offset : RexNode) (constants : list RexNode)
    (constant_count_offset : Z) : result RexNode :=
  match offset with
  | RexInputRef getIndex =>
      let index := getIndex - constant_count_offset in
      py_getitem constants index
  | _ => Ok offset
  end.

(** A Java object is true in [if offset:] unless it is [null]. *)
Definition to_bound_description (java_window : RexWindowBound)
    (constants : list RexNode) (constant_count_offset : Z)
  : result BoundDescription :=
  offset ←
    match getOffset java_window with
    | Some offset =>
        offset ← dereference offset constants constant_count_offset;
        offset ← literal_int offset;
        Ok (Some offset)
    | None => Ok None
    end;
  Ok (copied_flags java_window offset).

End BoundResolver.

(** A bound [3 PRECEDING] whose offset is the second constant of a pool
    placed behind three real columns. *)
Definition bound_3_preceding_by_reference : RexWindowBound :=
  mkRexWindowBound (Some (RexInputRef 4)) false true false false.

Definition two_constants : list RexNode :=
  [RexLiteral (IntegerLiteral 7); RexLiteral (IntegerLiteral 3)].

(** ** Tables

    A table is its ordered column names and its rows, each row holding one
    cell per column; a cell is an integer or null ([None]).  The pandas index
    is not kept: every column assigned in this module was computed from the
    same table, so that alignment by index is alignment by position. *)

Abbreviation value := (option Z).

Record DataFrame : Type := mkDataFrame {
  columns : list string;
  rows : list (list value)
}.

(** [len(df)] *)
Definition len (df : DataFrame) : nat := length (rows df).

(** Position of a column name. *)
Fixpoint index_of (col : string) (cols : list string) : option nat :=
  match cols with
  | [] => None
  | c :: cols' => if decide (c = col) then Some 0%nat else S <$> index_of col cols'
  end.

Definition column_index (df : DataFrame) (col : string) : result nat :=
  from_option Ok (Raise (KeyError col)) (index_of col (columns df)).

Definition cell (j : nat) (row : list value) : value := default None (row !! j).

(** [df[col]] *)
Definition getitem (df : DataFrame) (col : string) : result (list value) :=
  j ← column_index df col;
  Ok (cell j <$> rows df).

(** A Python [dict] with string keys, in insertion order: setting a key that
    is present replaces its value in place. *)
Fixpoint dict_set {V : Type} (d : list (string * V)) (k : string) (v : V)
  : list (string * V) :=
  match d with
  | [] => [(k, v)]
  | (k', v') :: d' =>
      if decide (k' = k) then (k', v) :: d' else (k', v') :: dict_set d' k v
  end.

(** [df.assign] of one keyword [col=values]: an existing column is overwritten, a new
    one is appended; a row without a value at its position gets null. *)
Definition assign_column (df : DataFrame) (col : string) (values : list value)
  : DataFrame :=
  match index_of col (columns df) with
  | Some j =>
      mkDataFrame (columns df)
        (imap (fun i row => <[j := default None (values !! i)]> row) (rows df))
  | None =>
      mkDataFrame (columns df ++ [col])
        (imap (fun i row => row ++ [default None (values !! i)]) (rows df))
  end.

Definition assign (df : DataFrame) (new_columns : list (string * list value))
  : DataFrame :=
  foldl (fun df kv => assign_column df kv.1 kv.2) df new_columns.

(** The cells of a row at the positions a mask keeps. *)
Fixpoint mask_filter {A : Type} (mask : list bool) (row : list A) : list A :=
  match mask, row with
  | keep :: mask', x :: row' =>
      if keep then x :: mask_filter mask' row' else mask_filter mask' row'
  | _, _ => []
  end.

(** [df.drop(columns=cols)]: [KeyError] on a label that is not a column. *)
Definition drop_columns (df : DataFrame) (cols : list string) : result DataFrame :=
  match list_find (fun c => c ∉ columns df) cols with
  | Some (_, c) => Raise (KeyError c)
  | None =>
      let keep := (fun c => bool_decide (c ∉ cols)) <$> columns df in
      Ok (mkDataFrame (mask_filter keep (columns df)) (mask_filter keep <$> rows df))
  end.

(** ** Sorting a partition

    Modelled from the spec: [sort_partition_func] of
    [dask_sql/physical/utils/sort.py] is not part of the sources at hand.
    §4.4 (a): the rows are sorted stably by the order keys, each ascending
    or descending, nulls placed first or last as [nulls_first] says
    whatever the direction. *)

Definition cell_lt (ascending nulls_first : bool) (a b : value) : bool :=
  match a, b with
  | None, None => false
  | None, Some _ => nulls_first
  | Some _, None => negb nulls_first
  | Some x, Some y => if ascending then x <? y else y <? x
  end.

Fixpoint row_lt (keys : list (nat * bool * bool)) (r1 r2 : list value) : bool :=
  match keys with
  | [] => false
  | (j, ascending, nulls_first) :: keys' =>
      if cell_lt ascending nulls_first (cell j r1) (cell j r2) then true
      else if cell_lt ascending nulls_first (cell j r2) (cell j r1) then false
      else row_lt keys' r1 r2
  end.

Fixpoint insert_row (keys : list (nat * bool * bool)) (r : list value)
    (sorted : list (list value)) : list (list value) :=
  match sorted with
  | [] => [r]
  | r' :: sorted' =>
      if row_lt keys r' r then r' :: insert_row keys r sorted'
      else r :: r' :: sorted'
  end.

Definition sort_rows (keys : list (nat * bool * bool)) (rs : list (list value))
  : list (list value) :=
  foldr (insert_row keys) [] rs.

Definition sort_partition_func (df : DataFrame) (sort_columns : list string)
    (sort_ascending sort_null_first : list bool) : result DataFrame :=
  keys ← mapM (fun k : string * bool * bool =>
                 j ← column_index df k.1.1; Ok (j, k.1.2, k.2))
            (zip (zip sort_columns sort_ascending) sort_null_first);
  Ok (mkDataFrame (columns df) (sort_rows keys (rows df))).

(** ** The operators *)

(** [partitioned_group.expanding(...)] or [.rolling(...)]: the partition
    together with its window. *)
Record WindowedGroup : Type := mkWindowedGroup {
  wg_frame : DataFrame;
  wg_window : Window
}.

(** The cells [column[start:end]] of one frame. *)
Definition frame_cells (column : list value) (start end_ : Z) : list value :=
  take (Z.to_nat (end_ - start)) (drop (Z.to_nat start) column).

(** The frames of a column, one per row, in row order. *)
Definition frames_of (windowed : WindowedGroup) (column : list value)
  : result (list (list value)) :=
  bounds ← window_bounds (wg_window windowed) (len (wg_frame windowed));
  Ok (zip_with (frame_cells column) bounds.1 bounds.2).

Definition non_null (cells : list value) : list Z := omap id cells.

(** pandas' aggregations with [min_periods=0]: nulls are skipped; the sum of
    no value is 0, the maximum and the minimum of no value are null. *)
Definition window_sum (cells : list value) : value :=
  Some (foldr Z.add 0 (non_null cells)).

Definition window_count (cells : list value) : value :=
  Some (Z.of_nat (length (non_null cells))).

Definition window_max (cells : list value) : value :=
  match non_null cells with
  | [] => None
  | x :: xs => Some (foldr Z.max x xs)
  end.

Definition window_min (cells : list value) : value :=
  match non_null cells with
  | [] => None
  | x :: xs => Some (foldr Z.min x xs)
  end.

(** [x.iloc[0]] and [x.iloc[-1]]: [IndexError] on an empty frame. *)
Definition iloc_first (cells : list value) : result value :=
  from_option Ok (Raise IndexError) (head cells).

Definition iloc_last (cells : list value) : result value :=
  from_option Ok (Raise IndexError) (last cells).

(** The callables of [OPERATION_MAPPING] and of the user's registry. *)
Inductive Operation : Type :=
  | SumOperation
  | CountOperation
  | MaxOperation
  | MinOperation
  | FirstValueOperation
  | LastValueOperation
  | UserFunction (call : WindowedGroup -> list string -> result (list value)).

Definition aggregate_column (windowed : WindowedGroup) (value_col : string)
    (f : list value -> result value) : result (list value) :=
  column ← getitem (wg_frame windowed) value_col;
  frames ← frames_of windowed column;
  mapM f frames.

(** [f(windowed_group, *temporary_operand_columns)], lines 28-64; a call
    with the wrong number of columns is a [TypeError]. *)
Definition call (f : Operation) (partitioned_group : WindowedGroup)
    (args : list string) : result (list value) :=
  match f, args with
  | SumOperation, [value_col] =>
      aggregate_column partitioned_group value_col (fun w => Ok (window_sum w))
  | CountOperation, [] =>
      match columns (wg_frame partitioned_group) with
      | first :: _ =>
          aggregate_column partitioned_group first (fun w => Ok (window_count w))
      | [] => Raise IndexError
      end
  | CountOperation, [value_col] =>
      aggregate_column partitioned_group value_col (fun w => Ok (window_count w))
  | MaxOperation, [value_col] =>
      aggregate_column partitioned_group value_col (fun w => Ok (window_max w))
  | MinOperation, [value_col] =>
      aggregate_column partitioned_group value_col (fun w => Ok (window_min w))
  | FirstValueOperation, [value_col] =>
      aggregate_column partitioned_group value_col iloc_first
  | LastValueOperation, [value_col] =>
      aggregate_column partitioned_group value_col iloc_last
  | UserFunction g, _ => g partitioned_group args
  | _, _ => Raise TypeError
  end.

(** ** The Partition Executor: [map_on_each_group] *)

(** One entry of [operations]: the callable ([None] for row_number), the
    name of the new column and the operand columns. *)
Definition operation_entry : Type := option Operation * string * list string.

(** Lines 191-200: the loop that fills the dict [new_columns]. *)
Fixpoint calculate_results (partitioned_group : DataFrame)
    (windowed_group : WindowedGroup) (operations : list operation_entry)
    (new_columns : list (string * list value))
  : result (list (string * list value)) :=
  match operations with
  | [] => Ok new_columns
  | (f, new_column_name, temporary_operand_columns) :: operations' =>
      column_result ←
        match f with
        | None => Ok (Some <$> seqZ 1 (Z.of_nat (len partitioned_group)))
        | Some f => call f windowed_group temporary_operand_columns
        end;
      calculate_results partitioned_group windowed_group operations'
        (dict_set new_columns new_column_name column_result)
  end.

Definition map_on_each_group (partitioned_group : DataFrame)
    (sort_columns : list string) (sort_ascending sort_null_first : list bool)
    (lower_bound upper_bound : BoundDescription)
    (operations : list operation_entry) : result DataFrame :=
  partitioned_group ←
    match sort_columns with
    | [] => Ok partitioned_group
    | _ :: _ =>
        sort_partition_func partitioned_group sort_columns sort_ascending
          sort_null_first
    end;
  window ← select_window lower_bound upper_bound;
  let windowed_group := mkWindowedGroup partitioned_group window in
  new_columns ← calculate_results partitioned_group windowed_group operations [];
  Ok (assign partitioned_group new_columns).

(** A table of one column, for the examples. *)
Definition column_table (name : string) (cells : list Z) : DataFrame :=
  mkDataFrame [name] ((fun z => [Some z]) <$> cells).

(** Every row has one cell per column. *)
Definition wf_table (df : DataFrame) : Prop :=
  Forall (fun row => length row = length (columns df)) (rows df).

(** [row'] is [row] followed by [m] more cells. *)
Definition row_extends (m : nat) (row row' : list value) : Prop :=
  exists cells, row' = row ++ cells /\ length cells = m.

(** [df'] is [df] with the columns [names] appended: same rows in the same
    order, each with one more cell per name. *)
Definition extends (df df' : DataFrame) (names : list string) : Prop :=
  columns df' = columns df ++ names
  /\ Forall2 (row_extends (length names)) (rows df) (rows df').

(** The column [name] exists and none of its cells is null. *)
Definition column_null_free (df : DataFrame) (name : string) : Prop :=
  exists j, index_of name (columns df) = Some j
    /\ Forall (fun row => is_Some (cell j row)) (rows df).

(** ** The plan as the driver reads it *)

Inductive Direction : Type :=
  | ASCENDING | STRICTLY_ASCENDING | DESCENDING | STRICTLY_DESCENDING | CLUSTERED.

Inductive NullDirection : Type := FIRST | LAST | UNSPECIFIED.

#[global] Instance Direction_eq_dec : EqDecision Direction.
Proof. solve_decision. Defined.
#[global] Instance NullDirection_eq_dec : EqDecision NullDirection.
Proof. solve_decision. Defined.

Record RelFieldCollation : Type := mkRelFieldCollation {
  getFieldIndex : Z;
  getDirection : Direction;
  nullDirection : NullDirection
}.

(** An aggregate call: [getOperator().getName()] and [getOperands()]. *)
Record AggCall : Type := mkAggCall {
  getName : string;
  getOperands : list RexNode
}.

(** [org.apache.calcite.rel.core.Window.Group] *)
Record WindowGroup : Type := mkWindowGroup {
  keys : list Z;
  orderKeys : list RelFieldCollation;
  lowerBound : RexWindowBound;
  upperBound : RexWindowBound;
  aggCalls : list AggCall
}.

(** [context.functions], the registry of user-defined functions. *)
Record Context : Type := mkContext {
  functions : gmap string Operation
}.

(** [DaskWindowPlugin.OPERATION_MAPPING]; row_number is mapped to [None]. *)
Definition OPERATION_MAPPING : gmap string (option Operation) :=
  list_to_map
    [ ("row_number", None);
      ("$sum0", Some SumOperation);
      ("sum", Some SumOperation);
      ("count", Some CountOperation);
      ("max", Some MaxOperation);
      ("min", Some MinOperation);
      ("single_value", Some FirstValueOperation);
      ("first_value", Some FirstValueOperation);
      ("last_value", Some LastValueOperation) ].

(** Lines 400-406: the built-in mapping first, then the user's functions. *)
Definition lookup_operation (context : Context) (operator_name : string)
  : result (option Operation) :=
  match OPERATION_MAPPING !! operator_name with
  | Some operation => Ok operation
  | None =>
      match functions context !! operator_name with
      | Some operation => Ok (Some operation)
      | None => Raise (NotImplementedError (operator_name ++ " not (yet) implemented"))
      end
  end.


(** ** Column bookkeeping

    Modelled from the spec: [ColumnContainer] and [DataContainer] of
    [dask_sql/datacontainer.py] are not part of the sources at hand.  §4.5
    and §6: the container keeps the ordered names of the row type (frontend)
    and the column of the table (backend) each of them stands for. *)

Record ColumnContainer : Type := mkColumnContainer {
  cc_columns : list string;
  cc_mapping : gmap string string
}.

Definition get_backend_by_frontend_index (cc : ColumnContainer) (index : Z)
  : result string :=
  frontend ← py_getitem (cc_columns cc) index;
  from_option Ok (Raise (KeyError frontend)) (cc_mapping cc !! frontend).

Definition cc_add (cc : ColumnContainer) (frontend backend : string)
  : ColumnContainer :=
  mkColumnContainer
    (if bool_decide (frontend ∈ cc_columns cc) then cc_columns cc
     else cc_columns cc ++ [frontend])
    (<[frontend := backend]> (cc_mapping cc)).

Record DataContainer : Type := mkDataContainer {
  df : DataFrame;
  column_container : ColumnContainer
}.

(** ** Effects of the driver

    The driver draws names from [uuid4] and hands partitions to
    [map_on_each_group].  The state counts both: how many identifiers were
    drawn, and how many partitions were processed. *)

Record World : Type := mkWorld {
  uuid_count : nat;
  partitions_run : nat
}.

Record Exec (A : Type) : Type := mkExec {
  run : World -> result A * World
}.
Arguments mkExec {A} run.
Arguments run {A} e w.

#[global] Instance exec_ret : MRet Exec := fun _ a => mkExec (fun w => (Ok a, w)).
#[global] Instance exec_bind : MBind Exec := fun _ _ f m =>
  mkExec (fun w =>
    match run m w with
    | (Ok a, w') => run (f a) w'
    | (Raise e, w') => (Raise e, w')
    end).

(** A step without effect. *)
Definition lift {A : Type} (r : result A) : Exec A := mkExec (fun w => (r, w)).

(** One more partition is handed to the per-partition function. *)
Definition partition_started : Exec unit :=
  mkExec (fun w => (Ok tt, mkWorld (uuid_count w) (S (partitions_run w)))).

(** A step that processes no partition, whatever its outcome. *)
Definition quiet {A : Type} (m : Exec A) : Prop :=
  forall w, partitions_run (run m w).2 = partitions_run w.

(** The message of line 406. *)
Definition not_implemented (operator_name : string) : exception :=
  NotImplementedError (operator_name ++ " not (yet) implemented").

(** ** Grouping

    [df.groupby(key_columns).apply(f, meta=meta)], the grouping primitive
    [group_and_apply] of §6.  §3: a partition is the rows sharing identical
    values in the key columns.  As pandas does, a row with a null cell in
    its key is left out of every group; every group goes through the
    function once, and the results are put together in one table whose
    columns are those of [meta]. *)

Definition null_free (key : list value) : bool :=
  forallb (fun v => bool_decide (is_Some v)) key.

Fixpoint add_to_group (key row : list value)
    (groups : list (list value * list (list value)))
  : list (list value * list (list value)) :=
  match groups with
  | [] => [(key, [row])]
  | (k, g) :: groups' =>
      if decide (k = key) then (k, g ++ [row]) :: groups'
      else (k, g) :: add_to_group key row groups'
  end.

Definition group_rows (key_of : list value -> list value) (rs : list (list value))
  : list (list value * list (list value)) :=
  foldl (fun groups row => add_to_group (key_of row) row groups) [] rs.

Definition groupby_apply (df : DataFrame) (group_columns : list string)
    (f : DataFrame -> result DataFrame) (meta : DataFrame) : Exec DataFrame :=
  key_indices ← lift (mapM (column_index df) group_columns);
  let key_of := fun row => (fun j => cell j row) <$> key_indices in
  let groups :=
    group_rows key_of (filter (fun row => Is_true (null_free (key_of row))) (rows df)) in
  results ← mapM (fun g : list value * list (list value) =>
                    _ ← partition_started;
                    lift (f (mkDataFrame (columns df) g.2)))
               groups;
  mret (mkDataFrame (columns meta) (concat (rows <$> results))).

(** The columns [_apply_window] drops and the columns it creates, lines
    292-298. *)
Definition temporary_columns_of (group_columns : list string)
    (operations : list operation_entry) : list string :=
  group_columns ++ concat ((fun op : operation_entry => op.2) <$> operations).

Definition newly_created_columns_of (operations : list operation_entry)
  : list string :=
  (fun op : operation_entry => op.1.2) <$> operations.

(** Lines 332-335: the new columns are registered under the next names of
    the row type. *)
Fixpoint register_columns (cc : ColumnContainer) (field_names : list string)
    (newly_created_columns : list string) : result ColumnContainer :=
  match newly_created_columns with
  | [] => Ok cc
  | c :: rest =>
      field_name ← py_getitem field_names (Z.of_nat (length (cc_columns cc)));
      register_columns (cc_add cc field_name c) field_names rest
  end.

(** What the extraction steps of [_apply_window] hand to the windowing
    step. *)
Record Extraction : Type := mkExtraction {
  ex_sort_columns : list string;
  ex_sort_ascending : list bool;
  ex_sort_null_first : list bool;
  ex_df : DataFrame;
  ex_group_columns : list string;
  ex_operations : list operation_entry
}.

Section WindowPlanDriver.

(** [int(RexLiteralPlugin().convert(node, None, None))] *)
Variable literal_int : RexNode -> result Z.

(** [str(uuid4())], the [k]-th identifier drawn. *)
Variable uuid4 : nat -> string.

(** [str.lower], line 398: Python's lower-casing of a string, which follows
    the Unicode case mappings; a built-in of the language, taken as
    given. *)
Variable str_lower : string -> string.

(** [RexConverter.convert(o, dc, context=context)], the expression
    evaluator of §6: the column an operand evaluates to. *)
Variable RexConverter_convert : RexNode -> DataContainer -> Context -> list value.

(** [get_groupby_with_nulls_cols(df, group_columns)] of
    [dask_sql/physical/utils/groupby.py]: the key columns prepared for
    grouping. *)
Variable get_groupby_with_nulls_cols :
  DataFrame -> list (list value) -> list (list value).

(** Modelled from the spec: [new_temporary_column] of [dask_sql/utils.py]
    is not part of the sources at hand; it names the synthetic helper
    columns of §4.5.  Identifiers are drawn until one is not a column of
    [df]; after [len(df.columns) + 1] draws that all name a column the
    loop is cut. *)
Fixpoint draw_name (fuel : nat) (cols : list string) (k : nat)
  : option (string * nat) :=
  match fuel with
  | O => None
  | S fuel' =>
      let col_name := uuid4 k in
      if bool_decide (col_name ∈ cols) then draw_name fuel' cols (S k)
      else Some (col_name, S k)
  end.

(** The names drawn between two states of the world: distinct draws, all
    made after [w] and before [w']. *)
Definition drawn (w w' : World) (names : list string) : Prop :=
  exists js, names = uuid4 <$> js /\ NoDup js
    /\ Forall (fun j => (uuid_count w <= j < uuid_count w')%nat) js.

Definition new_temporary_column (df : DataFrame) : Exec string :=
  mkExec (fun w =>
    match draw_name (S (length (columns df))) (columns df) (uuid_count w) with
    | Some (col_name, k) => (Ok col_name, mkWorld k (partitions_run w))
    | None => (Raise NonTermination, w)
    end).

(** The dict comprehensions of lines 358-360 and 411-414: one fresh name
    per column, all drawn against the same [df]. *)
Fixpoint name_columns (df : DataFrame) (cols : list (list value))
    (named : list (string * list value)) : Exec (list (string * list value)) :=
  match cols with
  | [] => mret named
  | col :: cols' =>
      name ← new_temporary_column df;
      name_columns df cols' (dict_set named name col)
  end.

Definition _extract_ordering (window : WindowGroup) (cc : ColumnContainer)
  : result (list string * list bool * list bool) :=
  let order_keys := orderKeys window in
  let sort_columns_indices := getFieldIndex <$> order_keys in
  sort_columns ← mapM (get_backend_by_frontend_index cc) sort_columns_indices;
  let sort_ascending :=
    (fun x => bool_decide (getDirection x = ASCENDING)) <$> order_keys in
  let sort_null_first :=
    (fun x => bool_decide (nullDirection x = FIRST)) <$> order_keys in
  Ok (sort_columns, sort_ascending, sort_null_first).

Definition _extract_groupby (df : DataFrame) (window : WindowGroup)
    (dc : DataContainer) (context : Context) : Exec (DataFrame * list string) :=
  let partition_keys := keys window in
  group_columns ←
    match partition_keys with
    | _ :: _ =>
        group_columns ←
          lift (mapM (fun o =>
                        name ← get_backend_by_frontend_index (column_container dc) o;
                        getitem df name)
                  partition_keys);
        let group_columns := get_groupby_with_nulls_cols df group_columns in
        name_columns df group_columns []
    | [] =>
        name ← new_temporary_column df;
        mret [(name, replicate (len df) (Some 1))]
    end;
  let df := assign df group_columns in
  mret (df, group_columns.*1).

(** Lines 395-420: the loop over [window.aggCalls]. *)
Fixpoint extract_operations_loop (agg_calls : list AggCall) (df : DataFrame)
    (dc : DataContainer) (context : Context) (operations : list operation_entry)
  : Exec (list operation_entry * DataFrame) :=
  match agg_calls with
  | [] => mret (operations, df)
  | agg_call :: agg_calls' =>
      let operator_name := str_lower (getName agg_call) in
      operation ← lift (lookup_operation context operator_name);
      temporary_operand_columns ←
        name_columns df
          ((fun o => RexConverter_convert o dc context) <$> getOperands agg_call) [];
      let df := assign df temporary_operand_columns in
      let temporary_operand_columns := temporary_operand_columns.*1 in
      new_column ← new_temporary_column df;
      extract_operations_loop agg_calls' df dc context
        (operations ++ [(operation, new_column, temporary_operand_columns)])
  end.

Definition _extract_operations (window : WindowGroup) (df : DataFrame)
    (dc : DataContainer) (context : Context)
  : Exec (list operation_entry * DataFrame) :=
  extract_operations_loop (aggCalls window) df dc context [].

(** [_apply_window], lines 274-298: ordering, grouping columns and
    operations are extracted, in this order. *)
Definition extract_group (window : WindowGroup) (dc : DataContainer)
    (context : Context) : Exec Extraction :=
  ordering ← lift (_extract_ordering window (column_container dc));
  grouped ← _extract_groupby (df dc) window dc context;
  extracted ← _extract_operations window grouped.1 dc context;
  mret (mkExtraction ordering.1.1 ordering.1.2 ordering.2
          extracted.2 grouped.2 extracted.1).

(** [_apply_window], lines 302-341: the bounds are resolved, every
    partition goes through [map_on_each_group], the helper columns are
    dropped and the new columns are registered. *)
Definition apply_extracted (window : WindowGroup) (constants : list RexNode)
    (constant_count_offset : Z) (dc : DataContainer) (field_names : list string)
    (extraction : Extraction) : Exec DataContainer :=
  let operations := ex_operations extraction in
  let temporary_columns :=
    temporary_columns_of (ex_group_columns extraction) operations in
  let newly_created_columns := newly_created_columns_of operations in
  lower_bound ←
    lift (to_bound_description literal_int (lowerBound window) constants
            constant_count_offset);
  upper_bound ←
    lift (to_bound_description literal_int (upperBound window) constants
            constant_count_offset);
  let filled_map := fun partitioned_group =>
    map_on_each_group partitioned_group (ex_sort_columns extraction)
      (ex_sort_ascending extraction) (ex_sort_null_first extraction)
      lower_bound upper_bound operations in
  let meta :=
    assign (mkDataFrame (columns (ex_df extraction)) [])
      ((fun col => (col, [])) <$> newly_created_columns) in
  df ← groupby_apply (ex_df extraction) (ex_group_columns extraction)
         filled_map meta;
  df ← lift (drop_columns df temporary_columns);
  cc ← lift (register_columns (column_container dc) field_names
               newly_created_columns);
  mret (mkDataContainer df cc).

Definition _apply_window (window : WindowGroup) (constants : list RexNode)
    (constant_count_offset : Z) (dc : DataContainer) (field_names : list string)
    (context : Context) : Exec DataContainer :=
  extraction ← extract_group window dc context;
  apply_extracted window constants constant_count_offset dc field_names
    extraction.

End WindowPlanDriver.

(** ** Instances for the examples *)

(** A lower-casing for the examples: the letters A to Z become a to z and
    every other character stays; on a name made of ASCII characters this is
    what [str.lower] returns. *)
Definition lower_ascii (c : ascii) : ascii :=
  let n := nat_of_ascii c in
  if ((65 <=? n) && (n <=? 90))%nat then ascii_of_nat (n + 32) else c.

Fixpoint ascii_lower (s : string) : string :=
  match s with
  | EmptyString => EmptyString
  | String c s' => String (lower_ascii c) (ascii_lower s')
  end.

(** Identifiers ["tmp0"], ["tmp1"], ... *)
Definition numbered_uuid (k : nat) : string := "tmp" ++ pretty k.

(** Operands that are references to columns of the input table. *)
Definition input_ref_column (o : RexNode) (dc : DataContainer) (context : Context)
  : list value :=
  match o with
  | RexInputRef index =>
      match get_backend_by_frontend_index (column_container dc) index with
      | Ok name => match getitem (df dc) name with Ok col => col | Raise _ => [] end
      | Raise _ => []
      end
  | _ => []
  end.

(** Key columns prepared for grouping: for every key column, one column
    telling which cells are null and one with the nulls replaced by 0, each
    with one cell per row of [df]. *)
Definition null_safe_group_columns (df : DataFrame) (group_columns : list (list value))
  : list (list value) :=
  group_columns ≫= fun col =>
    [ (fun i => Some (if default None (col !! i) is Some _ then 1 else 0))
        <$> seq 0 (len df);
      (fun i => Some (default 0 (default None (col !! i)))) <$> seq 0 (len df) ].

(** The key columns handed to the grouping as they are. *)
Definition unprepared_group_columns (df : DataFrame)
    (group_columns : list (list value)) : list (list value) := group_columns.

(** A table of two columns, [g] and [x], registered under their own names. *)
Definition sample_table : DataContainer :=
  mkDataContainer
    (mkDataFrame ["g"; "x"]
       [[Some 1; Some 10]; [Some 2; Some 20]; [Some 1; Some 30]; [None; Some 40]])
    (mkColumnContainer ["g"; "x"] (list_to_map [("g", "g"); ("x", "x")])).

(** SUM(x) and ROW_NUMBER() OVER (PARTITION BY g ORDER BY x DESC ROWS BETWEEN
    UNBOUNDED PRECEDING AND CURRENT ROW). *)
Definition sample_window : WindowGroup :=
  mkWindowGroup [0] [mkRelFieldCollation 1 DESCENDING LAST]
    (mkRexWindowBound None true true false false)
    (mkRexWindowBound None false false false true)
    [mkAggCall "SUM" [RexInputRef 1]; mkAggCall "ROW_NUMBER" []].

(** The same window with a call to a function no registry knows. *)
Definition unknown_operator_window : WindowGroup :=
  mkWindowGroup [0] [mkRelFieldCollation 1 DESCENDING LAST]
    (mkRexWindowBound None true true false false)
    (mkRexWindowBound None false false false true)
    [mkAggCall "SUM" [RexInputRef 1]; mkAggCall "MEDIAN" [RexInputRef 1]].

Definition no_functions : Context := mkContext ∅.

Definition initial_world : World := mkWorld 0 0.

(** ** Further notions used in the properties of the operators *)


(** The operators [OPERATION_MAPPING] holds, as opposed to a user's
    function. *)
Definition built_in (f : Operation) : bool :=
  match f with
  | UserFunction _ => false
  | _ => true
  end.


(** The number of operand columns the [call] method of a built-in operator
    accepts: one, and also none for count. *)
Definition takes_operands (f : Operation) (n : nat) : bool :=
  match f with
  | CountOperation => bool_decide (n <= 1)%nat
  | _ => bool_decide (n = 1%nat)
  end.

(** The column [name] exists and every one of its cells is [v]. *)
Definition column_constant (df : DataFrame) (name : string) (v : value) : Prop :=
  exists j, index_of name (columns df) = Some j
    /\ Forall (fun row => cell j row = v) (rows df).

(** ** The loop of [convert] *)

(** What [convert] reads from the plan node: [rel.getConstants()],
    [rel.getRowType().getFieldNames()] and [rel.getGroups()]. *)
Record DaskWindow : Type := mkDaskWindow {
  getConstants : list RexNode;
  getFieldNames : list string;
  getGroups : list WindowGroup
}.

Section WindowPlugin.

Variable literal_int : RexNode -> result Z.
Variable uuid4 : nat -> string.
Variable str_lower : string -> string.
Variable RexConverter_convert : RexNode -> DataContainer -> Context -> list value.
Variable get_groupby_with_nulls_cols :
  DataFrame -> list (list value) -> list (list value).

(** [fix_column_to_row_type] and [fix_dtype_to_row_type] of [BaseRelPlugin]
    ([dask_sql/physical/rel/base.py]), taken as given: they rename the
    container's columns and cast the table to the row type. *)
Variable fix_column_to_row_type : ColumnContainer -> list string -> ColumnContainer.
Variable fix_dtype_to_row_type : DataContainer -> list string -> DataContainer.

(** Lines 250-253: every group is applied to the container the group
    before it returned. *)
Fixpoint apply_windows (groups : list WindowGroup) (constants : list RexNode)
    (constant_count_offset : Z) (dc : DataContainer) (field_names : list string)
    (context : Context) : Exec DataContainer :=
  match groups with
  | [] => mret dc
  | window :: groups' =>
      dc ← _apply_window literal_int uuid4 str_lower RexConverter_convert
             get_groupby_with_nulls_cols window constants constant_count_offset
             dc field_names context;
      apply_windows groups' constants constant_count_offset dc field_names
        context
  end.

(** [convert], lines 233-263; [dc] is the one input [assert_inputs]
    returned.  The offset of the constant pool is the number of columns of
    this input and stays the same for every group. *)
Definition convert (rel : DaskWindow) (dc : DataContainer) (context : Context)
  : Exec DataContainer :=
  let constants := getConstants rel in
  let constant_count_offset :=
    Z.of_nat (length (cc_columns (column_container dc))) in
  let field_names := getFieldNames rel in
  dc ← apply_windows (getGroups rel) constants constant_count_offset dc
         field_names context;
  let df := df dc in
  let cc := column_container dc in
  let cc := fix_column_to_row_type cc field_names in
  let dc := mkDataContainer df cc in
  let dc := fix_dtype_to_row_type dc field_names in
  mret dc.

End WindowPlugin.

(** ** More instances for the examples *)

(** SUM(x) OVER (ROWS BETWEEN UNBOUNDED PRECEDING AND CURRENT ROW): no
    partition keys and no order keys. *)
Definition whole_table_window : WindowGroup :=
  mkWindowGroup [] []
    (mkRexWindowBound None true true false false)
    (mkRexWindowBound None false false false true)
    [mkAggCall "SUM" [RexInputRef 1]].

(** A window whose lower bound refers to a constant the pool does not
    have. *)
Definition unresolved_bound_window : WindowGroup :=
  mkWindowGroup [0] []
    (mkRexWindowBound (Some (RexInputRef 9)) false true false false)
    (mkRexWindowBound None false false false true)
    [mkAggCall "SUM" [RexInputRef 1]].

(** A plan node with two groups over the sample table. *)
Definition sample_rel : DaskWindow :=
  mkDaskWindow [] ["g"; "x"; "s"; "n"; "t"] [sample_window; whole_table_window].


(** Schema fixing that leaves the container as it is. *)
Definition keep_columns (cc : ColumnContainer) (field_names : list string)
  : ColumnContainer := cc.

Definition keep_dtypes (dc : DataContainer) (field_names : list string)
  : DataContainer := dc.

(** * Properties *)

Example get_window_bounds_3_1 :
  get_window_bounds (mkIndexer (Some 3) (Some 1)) 5
  = Ok ([3; 4; 5; 5; 5], [2; 3; 4; 5; 5]).
Proof. vm_compute. reflexivity. Qed.

Example get_window_bounds_m2_1 :
  get_window_bounds (mkIndexer (Some (-2)) (Some 1)) 5
  = Ok ([0; 0; 0; 1; 2], [2; 3; 4; 5; 5]).
Proof. vm_compute. reflexivity. Qed.

Example frame_bounds_current_current :
  frame_bounds CURRENT_ROW CURRENT_ROW 3 = Raise AssertionError.
Proof. vm_compute. reflexivity. Qed.

Example frame_bounds_trailing :
  frame_bounds (PRECEDING 2) CURRENT_ROW 5 = Ok ([0; 0; 0; 1; 2], [1; 2; 3; 4; 5]).
Proof. vm_compute. reflexivity. Qed.

(** ** The error monad *)

Lemma result_bind_Ok {A B : Type} (m : result A) (f : A -> result B) (b : B) :
  m ≫= f = Ok b -> exists a, m = Ok a /\ f a = Ok b.
Proof. destruct m as [a|e]; [|discriminate]. intros H. by exists a. Qed.

(** ** numpy helpers *)

Lemma as_int64_ok (cells : list Z) :
  Forall (fun z => np.int64_min <= z <= np.int64_max) cells ->
  np.as_int64 cells = Ok cells.
Proof.
  intros H. unfold np.as_int64.
  destruct (forallb np.fits_int64 cells) eqn:E; [reflexivity|].
  exfalso. apply Bool.not_true_iff_false in E. apply E.
  apply forallb_forall. intros z Hz. unfold np.fits_int64.
  rewrite Forall_forall in H. apply list_elem_of_In in Hz. specialize (H z Hz).
  apply andb_true_intro. split; apply Z.leb_le; lia.
Qed.

Lemma arange_ok (a : Z) (n : nat) :
  np.int64_min <= a -> a + Z.of_nat n - 1 <= np.int64_max ->
  np.arange a (a + Z.of_nat n) = Ok (seqZ a (Z.of_nat n)).
Proof.
  intros Ha Hb. unfold np.arange.
  replace (a + Z.of_nat n - a) with (Z.of_nat n) by lia.
  apply as_int64_ok. apply Forall_forall. intros z Hz.
  apply elem_of_seqZ in Hz. lia.
Qed.

Lemma setslice_seqZ (a : Z) (n : nat) (lo hi : option Z) (v : Z) (f : Z -> Z) :
  np.int64_min <= v <= np.int64_max ->
  (forall i, 0 <= i < Z.of_nat n ->
     f i = if (from_option (np.slice_index (Z.of_nat n)) 0 lo <=? i)
              && (i <? from_option (np.slice_index (Z.of_nat n)) (Z.of_nat n) hi)
           then v else a + i) ->
  np.setslice (seqZ a (Z.of_nat n)) lo hi v = Ok (f <$> seqZ 0 (Z.of_nat n)).
Proof.
  intros Hv Hf. unfold np.setslice.
  replace (np.fits_int64 v) with true
    by (symmetry; unfold np.fits_int64; apply andb_true_intro; split; apply Z.leb_le; lia).
  f_equal. rewrite length_seqZ, Z2Nat.id by lia.
  apply list_eq. intros i.
  rewrite list_lookup_imap, !list_lookup_fmap.
  destruct (decide (i < n)%nat) as [Hi|Hi].
  - rewrite !lookup_seqZ_lt by lia. simpl. f_equal.
    rewrite Hf by lia. rewrite Z.add_0_l. reflexivity.
  - rewrite !lookup_seqZ_ge by lia. reflexivity.
Qed.

(** ** The indexer computes the clamped offsets of rule 3 *)

Ltac int64_bounds :=
  unfold row_count_scale, np.int64_min, np.int64_max in *;
  change (2 ^ 62) with 4611686018427387904 in *;
  change (2 ^ 63) with 9223372036854775808 in *;
  lia.

Ltac case_compare :=
  repeat match goal with
    | |- context [Z.leb ?a ?b] => destruct (Z.leb_spec a b)
    | |- context [Z.ltb ?a ?b] => destruct (Z.ltb_spec a b)
    | H : context [Z.leb ?a ?b] |- _ => destruct (Z.leb_spec a b)
    | H : context [Z.ltb ?a ?b] |- _ => destruct (Z.ltb_spec a b)
    end;
  simpl; try lia.

Lemma window_start_general (lower_offset upper_offset : option Z) (n : nat) :
  from_option row_count_scale True lower_offset ->
  row_count_scale (Z.of_nat n) ->
  window_start (mkIndexer lower_offset upper_offset) n
  = Ok (general_start lower_offset n).
Proof.
  intros Hs Hn. unfold window_start, general_start. simpl.
  destruct lower_offset as [s|]; [|reflexivity]. simpl in Hs.
  rewrite arange_ok by int64_bounds. simpl.
  destruct (Z.ltb_spec s 0) as [Hneg|Hnonneg].
  - apply setslice_seqZ; [int64_bounds|].
    intros i Hi. unfold clamp, np.slice_index. simpl. case_compare.
  - destruct (Z.ltb_spec 0 s) as [Hpos|Hzero].
    + apply setslice_seqZ; [int64_bounds|].
      intros i Hi. unfold clamp, np.slice_index. simpl. case_compare.
    + f_equal. apply list_eq. intros i. rewrite list_lookup_fmap.
      destruct (decide (i < n)%nat) as [Hi|Hi].
      * rewrite !lookup_seqZ_lt by lia. simpl. f_equal. unfold clamp. lia.
      * rewrite !lookup_seqZ_ge by lia. reflexivity.
Qed.

Lemma window_end_general (lower_offset upper_offset : option Z) (n : nat) :
  from_option row_count_scale True upper_offset ->
  upper_offset <> Some 0 ->
  row_count_scale (Z.of_nat n) ->
  window_end (mkIndexer lower_offset upper_offset) n
  = Ok (general_end upper_offset n).
Proof.
  intros He Hne Hn. unfold window_end, general_end. simpl.
  destruct upper_offset as [e|]; simpl in He.
  - rewrite arange_ok by int64_bounds. simpl.
    destruct (Z.ltb_spec 0 e) as [Hpos|Hnonpos].
    + apply setslice_seqZ; [int64_bounds|].
      intros i Hi. unfold clamp, np.slice_index. simpl. case_compare.
    + destruct (Z.ltb_spec e 0) as [Hneg|Hzero].
      * apply setslice_seqZ; [int64_bounds|].
        intros i Hi. unfold clamp, np.slice_index. simpl. case_compare.
      * exfalso. apply Hne. f_equal. lia.
  - unfold np.full. apply as_int64_ok. apply Forall_forall. intros z Hz.
    apply elem_of_replicate in Hz. int64_bounds.
Qed.

Lemma window_end_zero (lower_offset : option Z) (n : nat) :
  row_count_scale (Z.of_nat n) ->
  window_end (mkIndexer lower_offset (Some 0)) n = Raise AssertionError.
Proof.
  intros Hn. unfold window_end. simpl.
  rewrite arange_ok by int64_bounds. reflexivity.
Qed.

Lemma get_window_bounds_general (lower_offset upper_offset : option Z) (n : nat) :
  from_option row_count_scale True lower_offset ->
  from_option row_count_scale True upper_offset ->
  upper_offset <> Some 0 ->
  row_count_scale (Z.of_nat n) ->
  get_window_bounds (mkIndexer lower_offset upper_offset) n
  = Ok (general_start lower_offset n, general_end upper_offset n).
Proof.
  intros Hs He Hne Hn. unfold get_window_bounds.
  rewrite window_start_general, window_end_general by assumption. reflexivity.
Qed.

Lemma get_window_bounds_zero (lower_offset : option Z) (n : nat) :
  from_option row_count_scale True lower_offset ->
  row_count_scale (Z.of_nat n) ->
  get_window_bounds (mkIndexer lower_offset (Some 0)) n = Raise AssertionError.
Proof.
  intros Hs Hn. unfold get_window_bounds.
  rewrite window_start_general, window_end_zero by assumption. reflexivity.
Qed.

(** ** Shape of the frame sequences *)

Lemma general_start_length (lower_offset : option Z) (n : nat) :
  length (general_start lower_offset n) = n.
Proof.
  destruct lower_offset; simpl.
  - rewrite length_fmap, length_seqZ. lia.
  - apply length_replicate.
Qed.

Lemma general_end_length (upper_offset : option Z) (n : nat) :
  length (general_end upper_offset n) = n.
Proof.
  destruct upper_offset; simpl.
  - rewrite length_fmap, length_seqZ. lia.
  - apply length_replicate.
Qed.

Lemma general_start_lookup (lower_offset : option Z) (n i : nat) (s : Z) :
  general_start lower_offset n !! i = Some s ->
  s = from_option (fun l => clamp (Z.of_nat i + l) 0 (Z.of_nat n)) 0 lower_offset.
Proof.
  destruct lower_offset as [l|]; simpl.
  - rewrite list_lookup_fmap. intros H.
    destruct (seqZ 0 (Z.of_nat n) !! i) as [x|] eqn:E; [|discriminate].
    apply lookup_seqZ in E. simpl in H. injection H as <-.
    destruct E as [-> _]. reflexivity.
  - intros H. apply lookup_replicate in H. tauto.
Qed.

Lemma general_end_lookup (upper_offset : option Z) (n i : nat) (e : Z) :
  general_end upper_offset n !! i = Some e ->
  e = from_option (fun u => clamp (Z.of_nat i + u + 1) 0 (Z.of_nat n)) (Z.of_nat n) upper_offset.
Proof.
  destruct upper_offset as [u|]; simpl.
  - rewrite list_lookup_fmap. intros H.
    destruct (seqZ 0 (Z.of_nat n) !! i) as [x|] eqn:E; [|discriminate].
    apply lookup_seqZ in E. simpl in H. injection H as <-.
    destruct E as [-> _]. reflexivity.
  - intros H. apply lookup_replicate in H. tauto.
Qed.

Lemma fast_path_expanding_lookup (n i : nat) (s e : Z) :
  (fast_path_expanding n).1 !! i = Some s ->
  (fast_path_expanding n).2 !! i = Some e ->
  s = 0 /\ e = Z.of_nat i + 1 /\ (i < n)%nat.
Proof.
  unfold fast_path_expanding. simpl. intros Hs He.
  apply lookup_replicate in Hs as [-> Hi].
  rewrite list_lookup_fmap, lookup_seqZ_lt in He by lia.
  simpl in He. injection He as <-. split; [reflexivity | split; [lia | assumption]].
Qed.

Lemma fast_path_trailing_lookup (w : Z) (n i : nat) (s e : Z) :
  (fast_path_trailing w n).1 !! i = Some s ->
  (fast_path_trailing w n).2 !! i = Some e ->
  s = Z.max 0 (Z.of_nat i - (w - 1)) /\ e = Z.of_nat i + 1 /\ (i < n)%nat.
Proof.
  unfold fast_path_trailing. simpl. intros Hs He.
  rewrite list_lookup_fmap in Hs, He.
  destruct (seqZ 0 (Z.of_nat n) !! i) as [x|] eqn:E; [|discriminate].
  apply lookup_seqZ in E as [-> Hi]. simpl in Hs, He.
  injection Hs as <-. injection He as <-. split; [reflexivity | split; lia].
Qed.

(** ** The window chosen by [map_on_each_group] *)

Lemma wf_bound_lower_fast (lower_bound : BoundDescription) :
  wf_bound lower_bound = true ->
  (is_unbounded lower_bound || is_preceding lower_bound) = true ->
  (is_unbounded lower_bound = true /\ signed_offset lower_bound = None)
  \/ (is_unbounded lower_bound = false /\ is_preceding lower_bound = true /\
      exists k, offset lower_bound = Some k /\ 0 <= k /\
                signed_offset lower_bound = Some (- k)).
Proof.
  destruct lower_bound as [u p f c o]. unfold wf_bound, signed_offset. simpl.
  destruct u, p, f, c, o as [k|]; simpl; intros Hwf Hcase;
    try discriminate; try case_bool_decide; try discriminate;
    try (left; split; reflexivity).
  right. split; [reflexivity | split; [reflexivity |]].
  exists k. split; [reflexivity | split; [by apply Z.leb_le | reflexivity]].
Qed.

Lemma upper_at_current_row_signed (upper_bound : BoundDescription) :
  upper_at_current_row upper_bound = true ->
  signed_offset upper_bound = Some 0.
Proof.
  destruct upper_bound as [u p f c o].
  unfold upper_at_current_row, offset_eq_0, signed_offset. simpl.
  destruct c; simpl.
  - intros _. by destruct p.
  - destruct o as [k|]; [|discriminate]. intros Hk. apply Z.eqb_eq in Hk as ->.
    by destruct p.
Qed.

Lemma signed_zero_upper_at_current_row (upper_bound : BoundDescription) :
  signed_offset upper_bound = Some 0 ->
  upper_at_current_row upper_bound = true.
Proof.
  destruct upper_bound as [u p f c o].
  unfold upper_at_current_row, offset_eq_0, signed_offset. simpl.
  destruct c; simpl; [reflexivity|].
  destruct o as [k|], p; simpl; try discriminate; intros [= Hk];
    apply Z.eqb_eq; lia.
Qed.

Lemma select_window_fast (lower_bound upper_bound : BoundDescription) :
  wf_bound lower_bound = true ->
  fast_path_case lower_bound upper_bound = true ->
  select_window lower_bound upper_bound
  = Ok (if is_unbounded lower_bound then Expanding
        else Rolling (default 0 (offset lower_bound) + 1)).
Proof.
  intros Hwf Hcase. unfold fast_path_case in Hcase.
  apply andb_prop in Hcase as [Hlow Hup]. unfold select_window.
  fold (upper_at_current_row upper_bound). rewrite Hup, !andb_true_r.
  destruct (wf_bound_lower_fast _ Hwf Hlow) as [[-> _]|(-> & -> & k & -> & Hk & _)];
    [reflexivity|]. simpl.
  destruct (Z.ltb_spec (k + 1) 0); [lia | reflexivity].
Qed.

Lemma select_window_general (lower_bound upper_bound : BoundDescription) :
  fast_path_case lower_bound upper_bound = false ->
  select_window lower_bound upper_bound
  = Ok (RollingIndexer (general_indexer lower_bound upper_bound)).
Proof.
  unfold fast_path_case, select_window. fold (upper_at_current_row upper_bound).
  destruct (is_unbounded lower_bound), (is_preceding lower_bound),
    (upper_at_current_row upper_bound); simpl; intros; try discriminate; reflexivity.
Qed.

Lemma signed_offset_scale (b : BoundDescription) :
  bound_scale b -> from_option row_count_scale True (signed_offset b).
Proof.
  destruct b as [u p f c o]. unfold bound_scale, signed_offset. simpl.
  destruct c, p, o as [k|]; simpl; intros H; try exact I; int64_bounds.
Qed.


(** ** The Frame Indexer (§4.2) *)

Lemma fast_path_bounds_shape (lower_bound : BoundDescription) (n : nat) :
  wf_bound lower_bound = true ->
  (is_unbounded lower_bound || is_preceding lower_bound) = true ->
  length (fast_path_bounds lower_bound n).1 = n
  /\ length (fast_path_bounds lower_bound n).2 = n
  /\ forall (i : nat) s e,
       (fast_path_bounds lower_bound n).1 !! i = Some s ->
       (fast_path_bounds lower_bound n).2 !! i = Some e ->
       0 <= s <= e /\ e <= Z.of_nat n.
Proof.
  intros Hwf Hlow. unfold fast_path_bounds.
  destruct (wf_bound_lower_fast _ Hwf Hlow) as [[-> _]|(-> & _ & k & -> & Hk & _)].
  - split; [apply length_replicate|]. split.
    + simpl. rewrite length_fmap, length_seqZ. lia.
    + intros i s e Hs He.
      destruct (fast_path_expanding_lookup _ _ _ _ Hs He) as (-> & -> & Hi). lia.
  - split; [|split].
    + simpl. rewrite length_fmap, length_seqZ. lia.
    + simpl. rewrite length_fmap, length_seqZ. lia.
    + intros i s e Hs He.
      destruct (fast_path_trailing_lookup _ _ _ _ _ Hs He) as (-> & -> & Hi).
      simpl. lia.
Qed.

Lemma frame_bounds_fast (lower_bound upper_bound : BoundDescription) (n : nat) :
  wf_bound lower_bound = true ->
  fast_path_case lower_bound upper_bound = true ->
  frame_bounds lower_bound upper_bound n = Ok (fast_path_bounds lower_bound n).
Proof.
  intros Hwf Hcase. unfold frame_bounds.
  rewrite select_window_fast by assumption. unfold fast_path_bounds.
  destruct (is_unbounded lower_bound); reflexivity.
Qed.

Lemma frame_bounds_general (lower_bound upper_bound : BoundDescription) (n : nat) :
  fast_path_case lower_bound upper_bound = false ->
  frame_bounds lower_bound upper_bound n
  = get_window_bounds (general_indexer lower_bound upper_bound) n.
Proof.
  intros Hcase. unfold frame_bounds.
  rewrite select_window_general by assumption. reflexivity.
Qed.

Lemma frame_bounds_clamped (lower_bound upper_bound : BoundDescription) (n : nat) :
  fast_path_case lower_bound upper_bound = false ->
  signed_offset upper_bound <> Some 0 ->
  bound_scale lower_bound -> bound_scale upper_bound ->
  row_count_scale (Z.of_nat n) ->
  frame_bounds lower_bound upper_bound n
  = Ok (general_start (signed_offset lower_bound) n,
        general_end (signed_offset upper_bound) n).
Proof.
  intros Hcase Hup Hl Hu Hn. rewrite frame_bounds_general by assumption.
  apply get_window_bounds_general; auto using signed_offset_scale.
Qed.

(** C3 (as amended).  The Frame Indexer has no check of [start <= end]: for
    every bound pair that reaches the general branch with a signed upper
    offset other than 0 it returns, without any error, the clamped sequences
    [start_i = clamp(i + lower_offset, 0, n)] and
    [end_i = clamp(i + upper_offset + 1, 0, n)] (0 and [n] on an unbounded
    side), whether or not some [end_i] lies below [start_i]. *)
Theorem frame_bounds_returns_clamped_offsets
    (lower_bound upper_bound : BoundDescription) (n : nat) :
  fast_path_case lower_bound upper_bound = false ->
  signed_offset upper_bound <> Some 0 ->
  bound_scale lower_bound -> bound_scale upper_bound ->
  row_count_scale (Z.of_nat n) ->
  (forall i : nat, (i < n)%nat ->
     general_start (signed_offset lower_bound) n !! i
       = Some (from_option (fun l => clamp (Z.of_nat i + l) 0 (Z.of_nat n)) 0
                 (signed_offset lower_bound))
     /\ general_end (signed_offset upper_bound) n !! i
       = Some (from_option (fun u => clamp (Z.of_nat i + u + 1) 0 (Z.of_nat n))
                 (Z.of_nat n) (signed_offset upper_bound)))
  /\ frame_bounds lower_bound upper_bound n
     = Ok (general_start (signed_offset lower_bound) n,
           general_end (signed_offset upper_bound) n).
Proof.
  intros Hcase Hup Hl Hu Hn. split; [|by apply frame_bounds_clamped].
  intros i Hi. split.
  - destruct (general_start (signed_offset lower_bound) n !! i) as [s|] eqn:E.
    + by apply general_start_lookup in E as ->.
    + apply lookup_ge_None in E. rewrite general_start_length in E. lia.
  - destruct (general_end (signed_offset upper_bound) n !! i) as [e|] eqn:E.
    + by apply general_end_lookup in E as ->.
    + apply lookup_ge_None in E. rewrite general_end_length in E. lia.
Qed.

Lemma frame_bounds_returns_clamped_offsets_witness :
  frame_bounds (FOLLOWING 3) (FOLLOWING 1) 5
  = Ok (general_start (signed_offset (FOLLOWING 3)) 5,
        general_end (signed_offset (FOLLOWING 1)) 5).
Proof.
  apply (frame_bounds_returns_clamped_offsets (FOLLOWING 3) (FOLLOWING 1) 5).
  - reflexivity.
  - discriminate.
  - vm_compute. split; reflexivity.
  - vm_compute. split; reflexivity.
  - vm_compute. split; reflexivity.
Defined.

(** C3, the claim as stated, fails: with lower bound 3 FOLLOWING and upper
    bound 1 FOLLOWING over 5 rows the indexer raises nothing and returns
    [start_0 = 3], [end_0 = 2]. *)
Lemma frame_bounds_returns_end_below_start :
  frame_bounds (FOLLOWING 3) (FOLLOWING 1) 5
  = Ok ([3; 4; 5; 5; 5], [2; 3; 4; 5; 5])
  /\ exists (i : nat) s e,
       [3; 4; 5; 5; 5] !! i = Some s /\ [2; 3; 4; 5; 5] !! i = Some e /\ e < s.
Proof.
  split; [vm_compute; reflexivity|].
  exists 0%nat, 3, 2. repeat split.
Qed.

(** C2.  For every valid bound pair and every partition length, the ranges
    the Frame Indexer returns are two sequences of length [n] with
    [0 <= start_i <= end_i <= n] at every row, so no range with
    [end_i < start_i] is returned.  The only valid pairs for which nothing is
    returned are those that reach the general branch with upper offset 0,
    where the indexer raises its [AssertionError]. *)
Theorem frame_ranges_within_partition
    (lower_bound upper_bound : BoundDescription) (n : nat) :
  valid_pair lower_bound upper_bound = true ->
  bound_scale lower_bound -> bound_scale upper_bound ->
  row_count_scale (Z.of_nat n) ->
  (exists start end_,
      frame_bounds lower_bound upper_bound n = Ok (start, end_)
      /\ length start = n /\ length end_ = n
      /\ forall (i : nat) s e,
           start !! i = Some s -> end_ !! i = Some e ->
           0 <= s <= e /\ e <= Z.of_nat n)
  \/ (frame_bounds lower_bound upper_bound n = Raise AssertionError
      /\ fast_path_case lower_bound upper_bound = false
      /\ signed_offset upper_bound = Some 0).
Proof.
  intros Hvalid Hl Hu Hn. unfold valid_pair in Hvalid.
  apply andb_prop in Hvalid as [Hvalid Hord].
  apply andb_prop in Hvalid as [Hwfl Hwfu].
  destruct (fast_path_case lower_bound upper_bound) eqn:Hcase.
  - left. exists (fast_path_bounds lower_bound n).1, (fast_path_bounds lower_bound n).2.
    rewrite frame_bounds_fast by assumption.
    split; [by destruct (fast_path_bounds lower_bound n)|].
    apply fast_path_bounds_shape; [assumption|].
    unfold fast_path_case in Hcase. by apply andb_prop in Hcase as [? _].
  - destruct (decide (signed_offset upper_bound = Some 0)) as [Hzero|Hnonzero].
    + right. rewrite frame_bounds_general by assumption.
      split; [|split; [reflexivity | assumption]].
      unfold general_indexer. rewrite Hzero.
      apply get_window_bounds_zero; auto using signed_offset_scale.
    + left. eexists _, _.
      split; [by apply frame_bounds_clamped|].
      split; [apply general_start_length|]. split; [apply general_end_length|].
      intros i s e Hs He.
      apply general_start_lookup in Hs as ->. apply general_end_lookup in He as ->.
      unfold lower_le_upper in Hord. apply andb_prop in Hord as [_ Hord].
      destruct (signed_offset lower_bound) as [l|], (signed_offset upper_bound) as [u|];
        simpl; unfold clamp; try apply Z.leb_le in Hord; lia.
Qed.

Lemma frame_ranges_within_partition_witness :
  (exists start end_,
      frame_bounds (PRECEDING 1) (FOLLOWING 2) 5 = Ok (start, end_)
      /\ length start = 5%nat /\ length end_ = 5%nat
      /\ forall (i : nat) s e,
           start !! i = Some s -> end_ !! i = Some e ->
           0 <= s <= e /\ e <= Z.of_nat 5)
  \/ (frame_bounds (PRECEDING 1) (FOLLOWING 2) 5 = Raise AssertionError
      /\ fast_path_case (PRECEDING 1) (FOLLOWING 2) = false
      /\ signed_offset (FOLLOWING 2) = Some 0).
Proof.
  apply (frame_ranges_within_partition (PRECEDING 1) (FOLLOWING 2) 5).
  - reflexivity.
  - vm_compute. split; reflexivity.
  - vm_compute. split; reflexivity.
  - vm_compute. split; reflexivity.
Defined.

Lemma general_start_fast_path (lower_bound : BoundDescription) (n : nat) :
  wf_bound lower_bound = true ->
  (is_unbounded lower_bound || is_preceding lower_bound) = true ->
  general_start (signed_offset lower_bound) n = (fast_path_bounds lower_bound n).1.
Proof.
  intros Hwf Hlow. unfold fast_path_bounds.
  destruct (wf_bound_lower_fast _ Hwf Hlow) as [[-> ->]|(-> & _ & k & -> & Hk & ->)];
    [reflexivity|].
  simpl. apply Forall_fmap_ext, Forall_forall. intros i Hi.
  apply elem_of_seqZ in Hi. unfold clamp. lia.
Qed.

(** C1 (as amended).  For every bound pair of fast-path case (1) or (2) and
    every partition length, [map_on_each_group] takes the fast path and the
    frames are the fast-path formulas; the general branch is not comparable
    on these inputs: the [Indexer] built from the equivalent signed offsets
    computes the same [start] sequence as the fast path and then raises
    [AssertionError] at its guard for an upper offset of 0, so it returns no
    [(start, end)] pair. *)
Theorem general_branch_on_fast_path_bounds
    (lower_bound upper_bound : BoundDescription) (n : nat) :
  wf_bound lower_bound = true ->
  fast_path_case lower_bound upper_bound = true ->
  bound_scale lower_bound ->
  row_count_scale (Z.of_nat n) ->
  frame_bounds lower_bound upper_bound n = Ok (fast_path_bounds lower_bound n)
  /\ window_start (general_indexer lower_bound upper_bound) n
     = Ok (fast_path_bounds lower_bound n).1
  /\ get_window_bounds (general_indexer lower_bound upper_bound) n
     = Raise AssertionError.
Proof.
  intros Hwf Hcase Hl Hn.
  split; [by apply frame_bounds_fast|].
  unfold fast_path_case in Hcase. apply andb_prop in Hcase as [Hlow Hup].
  unfold general_indexer. rewrite (upper_at_current_row_signed _ Hup).
  split.
  - rewrite window_start_general by auto using signed_offset_scale.
    f_equal. by apply general_start_fast_path.
  - apply get_window_bounds_zero; auto using signed_offset_scale.
Qed.

Lemma general_branch_on_fast_path_bounds_witness :
  frame_bounds (PRECEDING 2) CURRENT_ROW 5 = Ok (fast_path_bounds (PRECEDING 2) 5)
  /\ window_start (general_indexer (PRECEDING 2) CURRENT_ROW) 5
     = Ok (fast_path_bounds (PRECEDING 2) 5).1
  /\ get_window_bounds (general_indexer (PRECEDING 2) CURRENT_ROW) 5
     = Raise AssertionError.
Proof.
  apply (general_branch_on_fast_path_bounds (PRECEDING 2) CURRENT_ROW 5).
  - reflexivity.
  - reflexivity.
  - vm_compute. split; reflexivity.
  - vm_compute. split; reflexivity.
Defined.

(** C1, the claim as stated, fails: on the bounds of fast-path case (1)
    (unbounded preceding to current row, 5 rows) and of case (2) (2 preceding
    to current row, 0 rows) the general branch raises [AssertionError]
    instead of returning the fast-path sequences. *)
Lemma general_branch_raises_on_fast_path_bounds :
  get_window_bounds (general_indexer UNBOUNDED_PRECEDING CURRENT_ROW) 5
    = Raise AssertionError
  /\ get_window_bounds (general_indexer UNBOUNDED_PRECEDING CURRENT_ROW) 5
    <> Ok (fast_path_bounds UNBOUNDED_PRECEDING 5)
  /\ get_window_bounds (general_indexer (PRECEDING 2) CURRENT_ROW) 0
    = Raise AssertionError
  /\ get_window_bounds (general_indexer (PRECEDING 2) CURRENT_ROW) 0
    <> Ok (fast_path_bounds (PRECEDING 2) 0).
Proof.
  repeat split; try (vm_compute; reflexivity); vm_compute; discriminate.
Qed.


(** ** The Bound Resolver (§4.1) *)

Lemma py_getitem_in_range {A : Type} (l : list A) (i : Z) (x : A) :
  0 <= i -> l !! Z.to_nat i = Some x -> py_getitem l i = Ok x.
Proof.
  intros Hi Hx. unfold py_getitem.
  apply lookup_lt_Some in Hx as Hlt.
  destruct (Z.ltb_spec i 0); [lia|].
  destruct (Z.leb_spec 0 i); [|lia].
  destruct (Z.ltb_spec i (Z.of_nat (length l))); [|lia].
  simpl. by rewrite Hx.
Qed.

Lemma py_getitem_out_of_range {A : Type} (l : list A) (i : Z) :
  Z.of_nat (length l) <= i \/ i < - Z.of_nat (length l) ->
  py_getitem l i = Raise IndexError.
Proof.
  intros Hi. unfold py_getitem. case_compare; try reflexivity; exfalso; lia.
Qed.

Lemma py_getitem_negative {A : Type} (l : list A) (i : Z) :
  - Z.of_nat (length l) <= i < 0 ->
  py_getitem l i = from_option Ok (Raise IndexError) (l !! Z.to_nat (i + Z.of_nat (length l))).
Proof.
  intros Hi. unfold py_getitem. case_compare; try reflexivity; exfalso; lia.
Qed.

Section BoundResolverProperties.

Variable literal_int : RexNode -> result Z.

Lemma to_bound_description_no_offset java_window constants constant_count_offset :
  getOffset java_window = None ->
  to_bound_description literal_int java_window constants constant_count_offset
  = Ok (copied_flags java_window None).
Proof. intros H. unfold to_bound_description. rewrite H. reflexivity. Qed.

Lemma to_bound_description_offset java_window constants constant_count_offset
    node literal z :
  getOffset java_window = Some node ->
  dereference node constants constant_count_offset = Ok literal ->
  literal_int literal = Ok z ->
  to_bound_description literal_int java_window constants constant_count_offset
  = Ok (copied_flags java_window (Some z)).
Proof.
  intros H Hd Hz. unfold to_bound_description. rewrite H. simpl.
  rewrite Hd. simpl. rewrite Hz. reflexivity.
Qed.

(** C4 (as amended).  Bound resolution never inspects the kind of the
    bound: it copies the four kind flags as they are.  It returns a
    [BoundDescription] without error for every bound that has no offset and
    for every bound whose offset, a literal or a constant-pool reference,
    converts to an integer; when it fails, an offset is present and the
    error is that of the constant-pool lookup or of the integer
    conversion. *)
Theorem to_bound_description_outcome java_window constants constant_count_offset :
  (getOffset java_window = None ->
   to_bound_description literal_int java_window constants constant_count_offset
   = Ok (copied_flags java_window None))
  /\ (forall node literal z,
        getOffset java_window = Some node ->
        dereference node constants constant_count_offset = Ok literal ->
        literal_int literal = Ok z ->
        to_bound_description literal_int java_window constants constant_count_offset
        = Ok (copied_flags java_window (Some z)))
  /\ (forall e,
        to_bound_description literal_int java_window constants constant_count_offset
        = Raise e ->
        exists node,
          getOffset java_window = Some node
          /\ (dereference node constants constant_count_offset = Raise e
              \/ exists literal,
                   dereference node constants constant_count_offset = Ok literal
                   /\ literal_int literal = Raise e)).
Proof.
  split; [apply to_bound_description_no_offset|].
  split; [apply to_bound_description_offset|].
  intros e. unfold to_bound_description.
  destruct (getOffset java_window) as [node|]; [|discriminate].
  intros H. exists node. split; [reflexivity|]. simpl in H.
  destruct (dereference node constants constant_count_offset) as [literal|e1];
    simpl in H.
  - right. exists literal. split; [reflexivity|].
    destruct (literal_int literal); simpl in H; [discriminate | congruence].
  - left. congruence.
Qed.

(** C5.  When the offset of the raw bound is a reference into the constant
    pool, the constant is looked up at the reference's index less
    [constant_count_offset], and the description stores the integer that
    constant converts to; when the bound carries no offset, the stored
    offset is [None]. *)
Theorem to_bound_description_dereferences java_window constants
    constant_count_offset :
  (forall index constant z,
      getOffset java_window = Some (RexInputRef index) ->
      0 <= index - constant_count_offset ->
      constants !! Z.to_nat (index - constant_count_offset) = Some constant ->
      literal_int constant = Ok z ->
      to_bound_description literal_int java_window constants constant_count_offset
      = Ok (copied_flags java_window (Some z)))
  /\ (getOffset java_window = None ->
      to_bound_description literal_int java_window constants constant_count_offset
      = Ok (copied_flags java_window None)).
Proof.
  split; [|apply to_bound_description_no_offset].
  intros index constant z Hoff Hidx Hlook Hz.
  eapply to_bound_description_offset; [eassumption | | eassumption].
  simpl. by apply py_getitem_in_range.
Qed.

(** C6 (as amended).  For every constant-pool reference whose dereferenced
    index is at or beyond the pool length, or below minus the pool length,
    bound resolution fails with [IndexError] and returns no description. *)
Theorem to_bound_description_index_error java_window constants
    constant_count_offset index :
  getOffset java_window = Some (RexInputRef index) ->
  Z.of_nat (length constants) <= index - constant_count_offset
  \/ index - constant_count_offset < - Z.of_nat (length constants) ->
  to_bound_description literal_int java_window constants constant_count_offset
  = Raise IndexError.
Proof.
  intros Hoff Hidx. unfold to_bound_description. rewrite Hoff. simpl.
  by rewrite py_getitem_out_of_range.
Qed.

End BoundResolverProperties.

Lemma to_bound_description_outcome_witness :
  to_bound_description integer_literal_value bound_3_preceding_by_reference
    two_constants 3
  = Ok (PRECEDING 3).
Proof.
  pose proof (to_bound_description_outcome integer_literal_value
                bound_3_preceding_by_reference two_constants 3) as (_ & H & _).
  apply (H (RexInputRef 4) (RexLiteral (IntegerLiteral 3)) 3); reflexivity.
Defined.

Lemma to_bound_description_dereferences_witness :
  to_bound_description integer_literal_value bound_3_preceding_by_reference
    two_constants 3
  = Ok (PRECEDING 3).
Proof.
  pose proof (to_bound_description_dereferences integer_literal_value
                bound_3_preceding_by_reference two_constants 3) as [H _].
  apply (H 4 (RexLiteral (IntegerLiteral 3)) 3); [reflexivity | lia | reflexivity..].
Defined.

Lemma to_bound_description_index_error_witness :
  to_bound_description integer_literal_value bound_3_preceding_by_reference
    two_constants 2
  = Raise IndexError.
Proof.
  apply (to_bound_description_index_error integer_literal_value
           bound_3_preceding_by_reference two_constants 2 4).
  - reflexivity.
  - left. simpl. lia.
Defined.

(** C4, the claim as stated, fails: a bound that is preceding but carries no
    offset, and a bound of no kind at all, are neither unbounded, nor the
    current row, nor preceding/following with an offset, and both are
    resolved without any error. *)
Lemma to_bound_description_accepts_unsupported_bound :
  to_bound_description integer_literal_value
    (mkRexWindowBound None false true false false) [] 0
  = Ok (mkBound false true false false None)
  /\ to_bound_description integer_literal_value
       (mkRexWindowBound None false false false false) [] 0
     = Ok (mkBound false false false false None).
Proof. split; reflexivity. Qed.

(** C6, the claim as stated, fails: with three real columns and the pool
    [7; 3], the reference to column 2 is dereferenced to index -1, outside
    [0, 2), and resolution silently takes the last constant of the pool. *)
Lemma to_bound_description_wraps_negative_index :
  2 - 3 < 0
  /\ to_bound_description integer_literal_value
       (mkRexWindowBound (Some (RexInputRef 2)) false true false false)
       two_constants 3
     = Ok (PRECEDING 3).
Proof. split; [lia | reflexivity]. Qed.


(** ** Tables *)

Lemma index_of_Some (col : string) (cols : list string) (j : nat) :
  index_of col cols = Some j -> cols !! j = Some col.
Proof.
  revert j. induction cols as [|c cols IH]; intros j; simpl; [discriminate|].
  case_decide as Hc.
  - intros [= <-]. by rewrite Hc.
  - destruct (index_of col cols) as [j'|]; [|discriminate].
    intros [= <-]. simpl. by apply IH.
Qed.

Lemma index_of_None (col : string) (cols : list string) :
  index_of col cols = None <-> col ∉ cols.
Proof.
  induction cols as [|c cols IH]; simpl.
  - split; [intros _; apply not_elem_of_nil | reflexivity].
  - case_decide as Hc.
    + split; [discriminate|]. intros H. exfalso. apply H. subst. left.
    + rewrite not_elem_of_cons, <- IH.
      destruct (index_of col cols); simpl; split; try discriminate.
      * intros [_ ?]. discriminate.
      * intros _. split; [congruence | reflexivity].
      * reflexivity.
Qed.

Lemma index_of_elem (col : string) (cols : list string) :
  col ∈ cols -> is_Some (index_of col cols).
Proof.
  intros H. destruct (index_of col cols) eqn:E; [by eexists|].
  by apply index_of_None in E.
Qed.

Lemma assign_column_len (df : DataFrame) (col : string) (values : list value) :
  len (assign_column df col values) = len df.
Proof.
  unfold assign_column, len. destruct (index_of col (columns df)); simpl;
    apply length_imap.
Qed.

Lemma assign_column_wf (df : DataFrame) (col : string) (values : list value) :
  wf_table df -> wf_table (assign_column df col values).
Proof.
  unfold wf_table, assign_column. intros H.
  destruct (index_of col (columns df)); simpl; apply Forall_forall;
    intros row Hrow; apply elem_of_lookup_imap in Hrow as (i & r & -> & Hr);
    apply list_elem_of_lookup_2 in Hr; rewrite Forall_forall in H;
    specialize (H r Hr).
  - by rewrite length_insert.
  - rewrite !length_app. simpl. lia.
Qed.

Lemma getitem_assign_column (df : DataFrame) (col : string) (values : list value) :
  wf_table df ->
  length values = len df ->
  getitem (assign_column df col values) col = Ok values.
Proof.
  intros Hwf Hlen. unfold getitem, column_index, assign_column, cell in *.
  destruct (index_of col (columns df)) as [j|] eqn:E; simpl.
  - rewrite E. simpl. f_equal. apply list_eq. intros i.
    rewrite list_lookup_fmap, list_lookup_imap.
    destruct (rows df !! i) as [row|] eqn:Hrow; simpl.
    + apply lookup_lt_Some in Hrow as Hi. fold (len df) in Hi.
      destruct (values !! i) as [v|] eqn:Hv;
        [|apply lookup_ge_None in Hv; unfold len in *; lia].
      simpl. f_equal. unfold cell. rewrite list_lookup_insert_eq; [reflexivity|].
      apply list_elem_of_lookup_2 in Hrow. unfold wf_table in Hwf.
      rewrite Forall_forall in Hwf. pose proof (Hwf _ Hrow) as Hl.
      apply index_of_Some, lookup_lt_Some in E. lia.
    + apply lookup_ge_None in Hrow. fold (len df) in Hrow.
      symmetry. apply lookup_ge_None. unfold len in *. lia.
  - assert (index_of col (columns df ++ [col]) = Some (length (columns df))) as ->.
    { clear -E. induction (columns df) as [|c cols IH]; simpl.
      - by rewrite decide_True.
      - simpl in E. case_decide; [discriminate|].
        destruct (index_of col cols); [discriminate|]. by rewrite IH. }
    simpl. f_equal. apply list_eq. intros i.
    rewrite list_lookup_fmap, list_lookup_imap.
    destruct (rows df !! i) as [row|] eqn:Hrow; simpl.
    + apply lookup_lt_Some in Hrow as Hi. fold (len df) in Hi.
      destruct (values !! i) as [v|] eqn:Hv;
        [|apply lookup_ge_None in Hv; unfold len in *; lia].
      simpl. f_equal. unfold cell.
      apply list_elem_of_lookup_2 in Hrow. unfold wf_table in Hwf.
      rewrite Forall_forall in Hwf. pose proof (Hwf _ Hrow) as Hl.
      rewrite <- Hl, lookup_app_r, Nat.sub_diag by lia.
      reflexivity.
    + apply lookup_ge_None in Hrow. fold (len df) in Hrow.
      symmetry. apply lookup_ge_None. unfold len in *. lia.
Qed.

(** ** Appending columns *)

Lemma Forall2_imap_r {A B : Type} (R : A -> B -> Prop) (f : nat -> A -> B)
    (l : list A) :
  (forall i x, R x (f i x)) -> Forall2 R l (imap f l).
Proof.
  revert f. induction l as [|x l IH]; intros f Hf; simpl; constructor.
  - apply Hf.
  - apply IH. intros i y. apply Hf.
Qed.

Lemma extends_refl (df : DataFrame) : extends df df [].
Proof.
  split; [by rewrite app_nil_r|].
  apply Forall2_same_length_lookup_2; [reflexivity|].
  intros i r r' Hr Hr'. exists []. rewrite app_nil_r. split; [congruence | reflexivity].
Qed.

Lemma extends_trans (df1 df2 df3 : DataFrame) (a b : list string) :
  extends df1 df2 a -> extends df2 df3 b -> extends df1 df3 (a ++ b).
Proof.
  intros [Hc1 Hr1] [Hc2 Hr2]. split; [by rewrite Hc2, Hc1, app_assoc|].
  revert Hr2. generalize (rows df3). induction Hr1 as [|r1 r2 l1 l2 Hr _ IH];
    intros l3 Hr2; inversion Hr2 as [|? r3 ? l3' Hr' Hl']; subst; constructor.
  - destruct Hr as (c1 & -> & H1), Hr' as (c2 & -> & H2).
    exists (c1 ++ c2). split; [by rewrite app_assoc|].
    rewrite !length_app. lia.
  - by apply IH.
Qed.

Lemma assign_column_fresh (df : DataFrame) (col : string) (values : list value) :
  col ∉ columns df -> extends df (assign_column df col values) [col].
Proof.
  intros Hfresh. unfold assign_column.
  apply index_of_None in Hfresh as ->. split; [reflexivity|]. simpl.
  apply Forall2_imap_r. intros i row. by eexists.
Qed.

Lemma assign_fresh (df : DataFrame) (new_columns : list (string * list value)) :
  NoDup new_columns.*1 ->
  Forall (fun name => name ∉ columns df) new_columns.*1 ->
  extends df (assign df new_columns) new_columns.*1.
Proof.
  revert df. induction new_columns as [|[name col] new_columns IH];
    intros df Hnodup Hfresh; simpl in *.
  - apply extends_refl.
  - apply NoDup_cons in Hnodup as [Hname Hnodup].
    apply Forall_cons in Hfresh as [Hfresh1 Hfresh].
    pose proof (assign_column_fresh df name col Hfresh1) as Hstep.
    apply (extends_trans _ _ _ [name] _ Hstep). apply IH; [assumption|].
    destruct Hstep as [-> _]. apply Forall_forall. intros c Hc.
    rewrite Forall_forall in Hfresh. rewrite not_elem_of_app, list_elem_of_singleton.
    split; [by apply Hfresh | by intros ->].
Qed.

Lemma extends_wf (df df' : DataFrame) (names : list string) :
  extends df df' names -> wf_table df -> wf_table df'.
Proof.
  unfold wf_table. intros [-> Hrows] Hwf.
  induction Hrows as [|r r' l l' (cells & -> & Hlen) _ IH]; [constructor|].
  apply Forall_cons in Hwf as [Hr Hwf]. constructor; [|by apply IH].
  rewrite !length_app. lia.
Qed.

(** ** Columns without nulls *)

Lemma index_of_app_l (name : string) (cols more : list string) (j : nat) :
  index_of name cols = Some j -> index_of name (cols ++ more) = Some j.
Proof.
  revert j. induction cols as [|c cols IH]; intros j; simpl; [discriminate|].
  case_decide; [done|].
  destruct (index_of name cols) as [j'|]; [|discriminate].
  intros [= <-]. by rewrite (IH j').
Qed.

Lemma index_of_app_fresh (name : string) (cols : list string) :
  name ∉ cols -> index_of name (cols ++ [name]) = Some (length cols).
Proof.
  induction cols as [|c cols IH]; simpl.
  - intros _. by rewrite decide_True.
  - rewrite not_elem_of_cons. intros [Hne Hcols].
    rewrite decide_False by congruence. by rewrite IH.
Qed.

Lemma column_null_free_assign_column (df : DataFrame) (name : string)
    (values : list value) :
  wf_table df -> name ∉ columns df ->
  length values = len df -> Forall is_Some values ->
  column_null_free (assign_column df name values) name.
Proof.
  intros Hwf Hfresh Hlen Hvalues. unfold assign_column.
  rewrite (proj2 (index_of_None _ _) Hfresh). simpl.
  exists (length (columns df)). split; [by apply index_of_app_fresh|]. simpl.
  apply Forall_forall. intros row' Hrow'.
  apply elem_of_lookup_imap in Hrow' as (i & row & -> & Hrow).
  apply lookup_lt_Some in Hrow as Hi.
  unfold wf_table in Hwf. rewrite Forall_forall in Hwf.
  pose proof (Hwf row (list_elem_of_lookup_2 _ _ _ Hrow)) as Hl.
  unfold cell. rewrite <- Hl, lookup_app_r, Nat.sub_diag by lia. simpl.
  destruct (values !! i) as [v|] eqn:Hv.
  - simpl. rewrite Forall_forall in Hvalues.
    apply Hvalues. by eapply list_elem_of_lookup_2.
  - apply lookup_ge_None in Hv. unfold len in Hlen. lia.
Qed.

Lemma column_null_free_extends (df df' : DataFrame) (names : list string)
    (name : string) :
  wf_table df -> extends df df' names ->
  column_null_free df name -> column_null_free df' name.
Proof.
  intros Hwf [Hcols Hrows] (j & Hj & Hcells). exists j.
  split; [rewrite Hcols; by apply index_of_app_l|].
  apply index_of_Some, lookup_lt_Some in Hj.
  unfold wf_table in Hwf.
  eapply Forall2_Forall_r; [exact Hrows|].
  rewrite Forall_forall in Hwf, Hcells. apply Forall_forall.
  intros row Hrow row' (cells & -> & _).
  unfold cell. rewrite lookup_app_l by (rewrite (Hwf row Hrow); lia).
  by apply Hcells.
Qed.

Lemma assign_null_free (names : list string) (cols : list (list value)) :
  forall df,
    wf_table df -> NoDup names -> Forall (fun name => name ∉ columns df) names ->
    length names = length cols ->
    Forall (fun col => length col = len df /\ Forall is_Some col) cols ->
    Forall (column_null_free (assign df (zip names cols))) names.
Proof.
  revert cols. induction names as [|name names IH];
    intros [|col cols] df Hwf Hnodup Hfresh Hlen Hcols; try discriminate;
    [constructor|].
  apply NoDup_cons in Hnodup as [Hname Hnodup].
  apply Forall_cons in Hfresh as [Hfresh1 Hfresh].
  apply Forall_cons in Hcols as [[Hcol1 Hcol2] Hcols].
  simpl in Hlen. injection Hlen as Hlen.
  pose proof (assign_column_fresh df name col Hfresh1) as Hstep.
  pose proof (assign_column_wf df name col Hwf) as Hwf'.
  assert (Forall (fun c => c ∉ columns (assign_column df name col)) names) as Hfresh'.
  { destruct Hstep as [-> _]. apply Forall_forall. intros c Hc.
    rewrite Forall_forall in Hfresh. rewrite not_elem_of_app, list_elem_of_singleton.
    split; [by apply Hfresh | by intros ->]. }
  change (assign df (zip (name :: names) (col :: cols)))
    with (assign (assign_column df name col) (zip names cols)).
  constructor.
  - apply (column_null_free_extends (assign_column df name col) _ names);
      [assumption | | by apply column_null_free_assign_column].
    pose proof (assign_fresh (assign_column df name col) (zip names cols)) as H.
    rewrite fst_zip in H by lia. by apply H.
  - apply IH; try assumption.
    eapply Forall_impl; [exact Hcols|]. simpl. intros c [Hc1 Hc2].
    by rewrite assign_column_len.
Qed.

(** ** Sorting keeps the rows *)

Lemma insert_row_perm keys r sorted : insert_row keys r sorted ≡ₚ r :: sorted.
Proof.
  induction sorted as [|r' sorted IH]; simpl; [reflexivity|].
  destruct (row_lt keys r' r); [|reflexivity].
  rewrite IH. apply Permutation_swap.
Qed.

Lemma sort_rows_perm keys rs : sort_rows keys rs ≡ₚ rs.
Proof.
  induction rs as [|r rs IH]; simpl; [reflexivity|].
  rewrite insert_row_perm. by constructor.
Qed.

Lemma sort_partition_func_ok df sort_columns sort_ascending sort_null_first :
  Forall (fun c => c ∈ columns df) sort_columns ->
  exists keys,
    sort_partition_func df sort_columns sort_ascending sort_null_first
    = Ok (mkDataFrame (columns df) (sort_rows keys (rows df))).
Proof.
  intros Hcols. unfold sort_partition_func.
  assert (exists keys,
    mapM (fun k : string * bool * bool =>
            j ← column_index df k.1.1; Ok (j, k.1.2, k.2))
      (zip (zip sort_columns sort_ascending) sort_null_first) = Ok keys)
    as [keys ->]; [|by exists keys].
  revert sort_ascending sort_null_first.
  induction Hcols as [|c cs Hc _ IH]; intros asc nf; [by exists []|].
  destruct asc as [|a asc]; [by exists []|].
  destruct nf as [|f nf]; [by exists []|]. simpl.
  destruct (index_of_elem _ _ Hc) as [j Hj].
  assert (column_index df c = Ok j) as -> by (unfold column_index; by rewrite Hj).
  destruct (IH asc nf) as [keys Hkeys].
  exists ((j, a, f) :: keys). simpl. by rewrite Hkeys.
Qed.

(** ** The Partition Executor (§4.4) *)

Lemma select_window_ok (lower_bound upper_bound : BoundDescription) :
  wf_bound lower_bound = true ->
  exists w, select_window lower_bound upper_bound = Ok w.
Proof.
  intros Hwf. destruct (fast_path_case lower_bound upper_bound) eqn:Hcase.
  - rewrite select_window_fast by assumption. by eexists.
  - rewrite select_window_general by assumption. by eexists.
Qed.

Lemma sorted_partition (partitioned_group : DataFrame) (sort_columns : list string)
    (sort_ascending sort_null_first : list bool) :
  Forall (fun c => c ∈ columns partitioned_group) sort_columns ->
  exists sorted,
    match sort_columns with
    | [] => Ok partitioned_group
    | _ :: _ =>
        sort_partition_func partitioned_group sort_columns sort_ascending
          sort_null_first
    end = Ok sorted
    /\ columns sorted = columns partitioned_group
    /\ rows sorted ≡ₚ rows partitioned_group.
Proof.
  intros Hcols. destruct sort_columns as [|c cs].
  - by exists partitioned_group.
  - destruct (sort_partition_func_ok _ _ sort_ascending sort_null_first Hcols)
      as [keys ->].
    eexists. split; [reflexivity|]. split; [reflexivity|]. apply sort_rows_perm.
Qed.

Lemma wf_table_perm (df df' : DataFrame) :
  columns df' = columns df -> rows df' ≡ₚ rows df -> wf_table df -> wf_table df'.
Proof.
  unfold wf_table. intros -> Hperm H. by rewrite Hperm.
Qed.

(** C8.  The row_number operator ignores the frame: at any place of the
    operations list and whatever the window, its column is [1, ..., n]; and
    a partition of [n] rows, sorted by any order keys and under any
    well-formed bounds, comes back as its sorted rows with the new column
    holding exactly [1, 2, ..., n]. *)
Theorem row_number_counts_rows (partitioned_group : DataFrame)
    (sort_columns : list string) (sort_ascending sort_null_first : list bool)
    (lower_bound upper_bound : BoundDescription)
    (new_column_name : string) (temporary_operand_columns : list string) :
  wf_table partitioned_group ->
  Forall (fun c => c ∈ columns partitioned_group) sort_columns ->
  wf_bound lower_bound = true ->
  (forall windowed_group operations new_columns,
      calculate_results partitioned_group windowed_group
        ((None, new_column_name, temporary_operand_columns) :: operations)
        new_columns
      = calculate_results partitioned_group windowed_group operations
          (dict_set new_columns new_column_name
             (Some <$> seqZ 1 (Z.of_nat (len partitioned_group)))))
  /\ exists sorted result,
       columns sorted = columns partitioned_group
       /\ rows sorted ≡ₚ rows partitioned_group
       /\ map_on_each_group partitioned_group sort_columns sort_ascending
            sort_null_first lower_bound upper_bound
            [(None, new_column_name, temporary_operand_columns)]
          = Ok result
       /\ result = assign_column sorted new_column_name
                     (Some <$> seqZ 1 (Z.of_nat (len partitioned_group)))
       /\ len result = len partitioned_group
       /\ getitem result new_column_name
          = Ok (Some <$> seqZ 1 (Z.of_nat (len partitioned_group))).
Proof.
  intros Hwf Hcols Hbound. split; [reflexivity|].
  destruct (sorted_partition _ _ sort_ascending sort_null_first Hcols)
    as (sorted & Hsort & Hc & Hr).
  destruct (select_window_ok _ upper_bound Hbound) as [w Hw].
  assert (len sorted = len partitioned_group) as Hlen
    by (unfold len; by rewrite Hr).
  exists sorted, (assign_column sorted new_column_name
                    (Some <$> seqZ 1 (Z.of_nat (len partitioned_group)))).
  split; [assumption|]. split; [assumption|]. split.
  - unfold map_on_each_group. rewrite Hsort. simpl. rewrite Hw. simpl.
    by rewrite Hlen.
  - split; [reflexivity|]. split; [by rewrite assign_column_len|].
    apply getitem_assign_column.
    + by apply (wf_table_perm partitioned_group).
    + rewrite length_fmap, length_seqZ. lia.
Qed.

Lemma row_number_counts_rows_witness :
  exists sorted result,
    columns sorted = ["x"]
    /\ rows sorted ≡ₚ [[Some 30]; [Some 10]; [Some 20]]
    /\ map_on_each_group (column_table "x" [30; 10; 20]) ["x"] [true] [false]
         (FOLLOWING 3) (FOLLOWING 1) [(None, "n", [])]
       = Ok result
    /\ result = assign_column sorted "n" [Some 1; Some 2; Some 3]
    /\ len result = 3%nat
    /\ getitem result "n" = Ok [Some 1; Some 2; Some 3].
Proof.
  apply (row_number_counts_rows (column_table "x" [30; 10; 20]) ["x"] [true]
           [false] (FOLLOWING 3) (FOLLOWING 1) "n" []).
  - repeat constructor.
  - repeat constructor.
  - reflexivity.
Defined.

Example row_number_after_sorting :
  map_on_each_group (column_table "x" [30; 10; 20]) ["x"] [true] [false]
    (FOLLOWING 3) (FOLLOWING 1) [(None, "n", [])]
  = Ok (mkDataFrame ["x"; "n"]
          [[Some 10; Some 1]; [Some 20; Some 2]; [Some 30; Some 3]]).
Proof. vm_compute. reflexivity. Qed.

Lemma fast_path_bounds_lookup (lower_bound : BoundDescription) (n i : nat) :
  wf_bound lower_bound = true ->
  (is_unbounded lower_bound || is_preceding lower_bound) = true ->
  (i < n)%nat ->
  (fast_path_bounds lower_bound n).1 !! i
    = Some (if is_unbounded lower_bound then 0
            else Z.max 0 (Z.of_nat i - default 0 (offset lower_bound)))
  /\ (fast_path_bounds lower_bound n).2 !! i = Some (Z.of_nat i + 1).
Proof.
  intros Hwf Hlow Hi. unfold fast_path_bounds.
  destruct (wf_bound_lower_fast _ Hwf Hlow) as [[-> _]|(-> & _ & k & -> & Hk & _)];
    simpl.
  - rewrite lookup_replicate_2 by assumption.
    rewrite list_lookup_fmap, lookup_seqZ_lt by lia. simpl.
    split; [reflexivity | f_equal; lia].
  - rewrite !list_lookup_fmap, lookup_seqZ_lt by lia. simpl.
    split; f_equal; lia.
Qed.

(** C9.  When the lower bound is unbounded, or preceding with a finite
    offset [k], and the upper bound is the current row or has offset 0, every
    row [i] of a partition gets the frame [start_i = 0], respectively
    [start_i = max(0, i - k)], and [end_i = i + 1]; the running sum over
    [1, 2, 3, 4] is [1, 3, 6, 10] and the sum from 2 preceding to the current
    row over [1, 2, 3, 4, 5] is [1, 3, 6, 9, 12]. *)
Theorem fast_path_frames (lower_bound upper_bound : BoundDescription) (n : nat) :
  wf_bound lower_bound = true ->
  fast_path_case lower_bound upper_bound = true ->
  (exists start end_,
      frame_bounds lower_bound upper_bound n = Ok (start, end_)
      /\ length start = n /\ length end_ = n
      /\ forall i : nat, (i < n)%nat ->
           start !! i
             = Some (if is_unbounded lower_bound then 0
                     else Z.max 0 (Z.of_nat i - default 0 (offset lower_bound)))
           /\ end_ !! i = Some (Z.of_nat i + 1))
  /\ map_on_each_group (column_table "x" [1; 2; 3; 4]) [] [] []
       UNBOUNDED_PRECEDING CURRENT_ROW [(Some SumOperation, "sum_x", ["x"])]
     = Ok (mkDataFrame ["x"; "sum_x"]
             [[Some 1; Some 1]; [Some 2; Some 3]; [Some 3; Some 6];
              [Some 4; Some 10]])
  /\ map_on_each_group (column_table "x" [1; 2; 3; 4; 5]) [] [] []
       (PRECEDING 2) CURRENT_ROW [(Some SumOperation, "sum_x", ["x"])]
     = Ok (mkDataFrame ["x"; "sum_x"]
             [[Some 1; Some 1]; [Some 2; Some 3]; [Some 3; Some 6];
              [Some 4; Some 9]; [Some 5; Some 12]]).
Proof.
  intros Hwf Hcase. split; [|split; vm_compute; reflexivity].
  exists (fast_path_bounds lower_bound n).1, (fast_path_bounds lower_bound n).2.
  rewrite frame_bounds_fast by assumption.
  unfold fast_path_case in Hcase. apply andb_prop in Hcase as [Hlow _].
  split; [by destruct (fast_path_bounds lower_bound n)|].
  destruct (fast_path_bounds_shape lower_bound n Hwf Hlow) as (Hs & He & _).
  split; [assumption|]. split; [assumption|].
  intros i Hi. by apply fast_path_bounds_lookup.
Qed.

Lemma fast_path_frames_witness :
  (exists start end_,
      frame_bounds (PRECEDING 2) (FOLLOWING 0) 5 = Ok (start, end_)
      /\ length start = 5%nat /\ length end_ = 5%nat
      /\ forall i : nat, (i < 5)%nat ->
           start !! i = Some (Z.max 0 (Z.of_nat i - 2))
           /\ end_ !! i = Some (Z.of_nat i + 1))
  /\ map_on_each_group (column_table "x" [1; 2; 3; 4]) [] [] []
       UNBOUNDED_PRECEDING CURRENT_ROW [(Some SumOperation, "sum_x", ["x"])]
     = Ok (mkDataFrame ["x"; "sum_x"]
             [[Some 1; Some 1]; [Some 2; Some 3]; [Some 3; Some 6];
              [Some 4; Some 10]])
  /\ map_on_each_group (column_table "x" [1; 2; 3; 4; 5]) [] [] []
       (PRECEDING 2) CURRENT_ROW [(Some SumOperation, "sum_x", ["x"])]
     = Ok (mkDataFrame ["x"; "sum_x"]
             [[Some 1; Some 1]; [Some 2; Some 3]; [Some 3; Some 6];
              [Some 4; Some 9]; [Some 5; Some 12]]).
Proof.
  apply (fast_path_frames (PRECEDING 2) (FOLLOWING 0) 5); reflexivity.
Defined.

(** ** New columns of a partition *)

Lemma dict_set_new {V : Type} (d : list (string * V)) (k : string) (v : V) :
  k ∉ d.*1 -> dict_set d k v = d ++ [(k, v)].
Proof.
  induction d as [|[k' v'] d IH]; simpl; [reflexivity|].
  rewrite not_elem_of_cons. intros [Hne Hd].
  rewrite decide_False by congruence. by rewrite IH.
Qed.

Lemma calculate_results_keys partitioned_group windowed_group operations :
  forall new_columns result,
    calculate_results partitioned_group windowed_group operations new_columns
    = Ok result ->
    NoDup (new_columns.*1 ++ newly_created_columns_of operations) ->
    result.*1 = new_columns.*1 ++ newly_created_columns_of operations.
Proof.
  induction operations as [|[[f name] temps] operations IH];
    intros new_columns result; simpl.
  - intros [= <-] _. by rewrite app_nil_r.
  - intros Hrun Hnodup.
    apply result_bind_Ok in Hrun as (column_result & _ & Hrun).
    assert (name ∉ new_columns.*1) as Hname.
    { apply NoDup_app in Hnodup as (_ & Hdisj & _). intros Hin.
      apply (Hdisj name Hin). left. }
    rewrite dict_set_new in Hrun by assumption.
    apply IH in Hrun.
    + rewrite Hrun, fmap_app, <- app_assoc. reflexivity.
    + rewrite fmap_app, <- app_assoc. exact Hnodup.
Qed.

Lemma sort_partition_func_rows df sort_columns sort_ascending sort_null_first df' :
  sort_partition_func df sort_columns sort_ascending sort_null_first = Ok df' ->
  columns df' = columns df /\ rows df' ≡ₚ rows df.
Proof.
  unfold sort_partition_func. intros H.
  apply result_bind_Ok in H as (keys & _ & [= <-]). simpl.
  split; [reflexivity | apply sort_rows_perm].
Qed.

Lemma map_on_each_group_extends partitioned_group sort_columns sort_ascending
    sort_null_first lower_bound upper_bound operations result :
  map_on_each_group partitioned_group sort_columns sort_ascending
    sort_null_first lower_bound upper_bound operations = Ok result ->
  NoDup (newly_created_columns_of operations) ->
  Forall (fun name => name ∉ columns partitioned_group)
    (newly_created_columns_of operations) ->
  exists sorted,
    sorted ≡ₚ rows partitioned_group
    /\ extends (mkDataFrame (columns partitioned_group) sorted) result
         (newly_created_columns_of operations).
Proof.
  unfold map_on_each_group. intros H Hnodup Hfresh.
  apply result_bind_Ok in H as (pg & Hsort & H).
  apply result_bind_Ok in H as (window & _ & H).
  apply result_bind_Ok in H as (new_columns & Hcalc & [= <-]).
  assert (columns pg = columns partitioned_group
          /\ rows pg ≡ₚ rows partitioned_group) as [Hc Hr].
  { destruct sort_columns.
    - injection Hsort as <-. by split.
    - by apply sort_partition_func_rows in Hsort. }
  apply calculate_results_keys in Hcalc; [|assumption]. simpl in Hcalc.
  exists (rows pg). split; [assumption|].
  rewrite <- Hc, <- Hcalc.
  replace (mkDataFrame (columns pg) (rows pg)) with pg by by destruct pg.
  apply assign_fresh; rewrite Hcalc; [assumption | by rewrite Hc].
Qed.

(** ** Dropping columns *)

Lemma mask_filter_app {A : Type} (m1 m2 : list bool) (r1 r2 : list A) :
  length m1 = length r1 ->
  mask_filter (m1 ++ m2) (r1 ++ r2) = mask_filter m1 r1 ++ mask_filter m2 r2.
Proof.
  revert r1. induction m1 as [|b m1 IH]; intros [|x r1] Hlen; try discriminate.
  - simpl. by destruct m2.
  - simpl in *. destruct b; simpl; rewrite IH by lia; reflexivity.
Qed.

Lemma mask_filter_keep {A : Type} (m : list bool) (r : list A) :
  Forall (fun b => b = true) m -> length m = length r -> mask_filter m r = r.
Proof.
  revert r. induction m as [|b m IH]; intros [|x r] Hall Hlen; try discriminate;
    [reflexivity|].
  apply Forall_cons in Hall as [-> Hall]. simpl. f_equal. apply IH; [assumption|].
  simpl in Hlen. lia.
Qed.

Lemma mask_filter_drop {A : Type} (m : list bool) (r : list A) :
  Forall (fun b => b = false) m -> mask_filter m r = [].
Proof.
  revert r. induction m as [|b m IH]; intros [|x r] Hall; try reflexivity.
  apply Forall_cons in Hall as [-> Hall]. simpl. by apply IH.
Qed.

Lemma mask_filter_middle {A : Type} (cols kept dropped added : list string)
    (r0 tv nv : list A) :
  Forall (fun c => c ∉ cols) kept ->
  Forall (fun c => c ∉ cols) added ->
  Forall (fun c => c ∈ cols) dropped ->
  length r0 = length kept -> length tv = length dropped ->
  length nv = length added ->
  mask_filter ((fun c => bool_decide (c ∉ cols)) <$> (kept ++ dropped ++ added))
    (r0 ++ tv ++ nv)
  = r0 ++ nv.
Proof.
  intros Hk Ha Hd L0 Lt Ln. rewrite !fmap_app.
  rewrite mask_filter_app by (by rewrite length_fmap).
  rewrite mask_filter_app by (by rewrite length_fmap).
  rewrite mask_filter_keep, mask_filter_drop, mask_filter_keep.
  - reflexivity.
  - apply Forall_fmap. eapply Forall_impl; [exact Ha|]. simpl. intros c Hc.
    by apply bool_decide_eq_true.
  - by rewrite length_fmap.
  - apply Forall_fmap. eapply Forall_impl; [exact Hd|]. simpl. intros c Hc.
    apply bool_decide_eq_false. tauto.
  - apply Forall_fmap. eapply Forall_impl; [exact Hk|]. simpl. intros c Hc.
    by apply bool_decide_eq_true.
  - by rewrite length_fmap.
Qed.

Lemma drop_columns_middle (table result : DataFrame)
    (kept dropped added : list string) :
  drop_columns table dropped = Ok result ->
  columns table = kept ++ dropped ++ added ->
  Forall (fun c => c ∉ dropped) kept ->
  Forall (fun c => c ∉ dropped) added ->
  Forall (fun row => exists r0 tv nv,
            row = r0 ++ tv ++ nv /\ length r0 = length kept
            /\ length tv = length dropped /\ length nv = length added)
    (rows table) ->
  columns result = kept ++ added
  /\ Forall2 (fun row row' => exists r0 tv nv,
                row = r0 ++ tv ++ nv /\ row' = r0 ++ nv
                /\ length r0 = length kept /\ length tv = length dropped
                /\ length nv = length added)
       (rows table) (rows result).
Proof.
  unfold drop_columns. intros H Hcols Hk Ha Hrows.
  destruct (list_find _ dropped) as [[? ?]|]; [discriminate|].
  injection H as <-. simpl. rewrite Hcols. split.
  - apply mask_filter_middle; try done. by apply Forall_forall.
  - apply Forall2_fmap_r, Forall2_same_length_lookup_2; [reflexivity|].
    intros i row row' Hrow Hrow'. assert (row' = row) as -> by congruence.
    rewrite Forall_forall in Hrows.
    destruct (Hrows row (list_elem_of_lookup_2 _ _ _ Hrow))
      as (r0 & tv & nv & -> & L0 & Lt & Ln).
    exists r0, tv, nv. split; [reflexivity|]. split; [|done].
    apply mask_filter_middle; try done. by apply Forall_forall.
Qed.


(** ** Running the driver *)

Lemma run_bind {A B : Type} (m : Exec A) (f : A -> Exec B) (w : World) :
  run (m ≫= f) w
  = match run m w with
    | (Ok a, w') => run (f a) w'
    | (Raise e, w') => (Raise e, w')
    end.
Proof. reflexivity. Qed.

Lemma run_bind_Ok {A B : Type} (m : Exec A) (f : A -> Exec B) (w w' : World) (b : B) :
  run (m ≫= f) w = (Ok b, w') ->
  exists a w1, run m w = (Ok a, w1) /\ run (f a) w1 = (Ok b, w').
Proof.
  rewrite run_bind. destruct (run m w) as [[a|e] w1]; [|discriminate].
  intros H. by exists a, w1.
Qed.

Lemma run_lift_Ok {A : Type} (r : result A) (w w' : World) (a : A) :
  run (lift r) w = (Ok a, w') -> r = Ok a /\ w' = w.
Proof. unfold lift. simpl. intros [= -> ->]. by split. Qed.

Lemma quiet_ret {A : Type} (a : A) : quiet (mret a).
Proof. by intros w. Qed.

Lemma quiet_lift {A : Type} (r : result A) : quiet (lift r).
Proof. by intros w. Qed.

Lemma quiet_bind {A B : Type} (m : Exec A) (f : A -> Exec B) :
  quiet m -> (forall a, quiet (f a)) -> quiet (m ≫= f).
Proof.
  intros Hm Hf w. rewrite run_bind. specialize (Hm w).
  destruct (run m w) as [[a|e] w1]; simpl in *; [|assumption].
  by rewrite (Hf a w1).
Qed.

Lemma run_bind_Raise {A B : Type} (m : Exec A) (f : A -> Exec B) (w w' : World) e :
  run m w = (Raise e, w') -> run (m ≫= f) w = (Raise e, w').
Proof. intros H. by rewrite run_bind, H. Qed.



(** ** Grouping keeps every row *)

Lemma add_to_group_perm key row groups :
  concat ((fun g : list value * list (list value) => g.2) <$> add_to_group key row groups)
  ≡ₚ concat ((fun g : list value * list (list value) => g.2) <$> groups) ++ [row].
Proof.
  induction groups as [|[k g] groups IH]; simpl; [reflexivity|].
  case_decide; simpl.
  - rewrite <- !app_assoc. apply Permutation_app_head, Permutation_app_comm.
  - rewrite IH. by rewrite app_assoc.
Qed.

Lemma group_rows_perm key_of rs :
  concat ((fun g : list value * list (list value) => g.2) <$> group_rows key_of rs)
  ≡ₚ rs.
Proof.
  unfold group_rows.
  enough (forall groups,
    concat ((fun g : list value * list (list value) => g.2)
              <$> foldl (fun groups row => add_to_group (key_of row) row groups)
                    groups rs)
    ≡ₚ concat ((fun g : list value * list (list value) => g.2) <$> groups) ++ rs)
    as H by apply (H []).
  induction rs as [|r rs IH]; intros groups; simpl.
  - by rewrite app_nil_r.
  - rewrite IH, add_to_group_perm, <- app_assoc. reflexivity.
Qed.

Lemma run_partitions (R : list value -> list value -> Prop) (cols : list string)
    (f : DataFrame -> result DataFrame) :
  (forall pg result,
      columns pg = cols -> f pg = Ok result ->
      exists sorted, sorted ≡ₚ rows pg /\ Forall2 R sorted (rows result)) ->
  forall (groups : list (list value * list (list value))) w results w',
    run (mapM (fun g : list value * list (list value) =>
                 _ ← partition_started; lift (f (mkDataFrame cols g.2)))
           groups) w = (Ok results, w') ->
    exists perm,
      perm ≡ₚ concat ((fun g : list value * list (list value) => g.2) <$> groups)
      /\ Forall2 R perm (concat (rows <$> results)).
Proof.
  intros Hf. induction groups as [|g groups IH]; intros w results w'.
  - cbn. intros [= <- <-]. exists []. split; [reflexivity | constructor].
  - change (mapM ?h (g :: groups))
      with (y ← h g; k ← mapM h groups; mret (y :: k)).
    intros H. apply run_bind_Ok in H as (res & w1 & Hres & H).
    apply run_bind_Ok in H as (results' & w2 & Hrest & H).
    cbn in H. injection H as <- <-.
    apply run_bind_Ok in Hres as ([] & w0 & _ & Hres).
    apply run_lift_Ok in Hres as [Hres _].
    apply Hf in Hres as (sorted & Hperm & Hrel); [|reflexivity].
    apply IH in Hrest as (perm & Hperm' & Hrel').
    exists (sorted ++ perm). simpl. split.
    + by rewrite Hperm, Hperm'.
    + by apply Forall2_app.
Qed.

Lemma mapM_result_Ok {A B : Type} (f : A -> result B) (l : list A) (k : list B) :
  mapM f l = Ok k -> Forall2 (fun x y => f x = Ok y) l k.
Proof.
  revert k. induction l as [|x l IH]; intros k.
  - intros [= <-]. constructor.
  - change (mapM f (x :: l)) with (y ← f x; k ← mapM f l; mret (y :: k)).
    intros H. apply result_bind_Ok in H as (y & Hy & H).
    apply result_bind_Ok in H as (k' & Hk' & [= <-]).
    constructor; [assumption | by apply IH].
Qed.

Lemma filter_all {A : Type} (P : A -> Prop) `{forall x, Decision (P x)} (l : list A) :
  Forall P l -> filter P l = l.
Proof.
  induction 1 as [|x l Hx _ IH]; [reflexivity|].
  by rewrite filter_cons_True, IH.
Qed.

Lemma null_free_keys (table : DataFrame) (group_columns : list string)
    (key_indices : list nat) :
  mapM (column_index table) group_columns = Ok key_indices ->
  Forall (column_null_free table) group_columns ->
  Forall (fun row => Is_true (null_free ((fun j => cell j row) <$> key_indices)))
    (rows table).
Proof.
  intros Hkeys Hfree. apply mapM_result_Ok in Hkeys.
  apply Forall_forall. intros row Hrow. unfold null_free.
  apply Is_true_true, forallb_forall. intros v Hv.
  apply list_elem_of_In, list_elem_of_fmap in Hv as (j & -> & Hj).
  apply bool_decide_eq_true.
  apply list_elem_of_lookup in Hj as [i Hi].
  destruct (Forall2_lookup_r _ _ _ _ _ Hkeys Hi) as (name & Hname & Hidx).
  rewrite Forall_forall in Hfree.
  destruct (Hfree name (list_elem_of_lookup_2 _ _ _ Hname)) as (j' & Hj' & Hcells).
  unfold column_index in Hidx. rewrite Hj' in Hidx. injection Hidx as ->.
  rewrite Forall_forall in Hcells. by apply Hcells.
Qed.

Lemma groupby_apply_rows (R : list value -> list value -> Prop) (table : DataFrame)
    (group_columns : list string) (f : DataFrame -> result DataFrame)
    (meta out : DataFrame) (w w' : World) :
  Forall (column_null_free table) group_columns ->
  (forall pg result,
      columns pg = columns table -> f pg = Ok result ->
      exists sorted, sorted ≡ₚ rows pg /\ Forall2 R sorted (rows result)) ->
  run (groupby_apply table group_columns f meta) w = (Ok out, w') ->
  columns out = columns meta
  /\ exists perm, perm ≡ₚ rows table /\ Forall2 R perm (rows out).
Proof.
  intros Hfree Hf H. unfold groupby_apply in H.
  apply run_bind_Ok in H as (key_indices & w1 & Hkeys & H).
  apply run_lift_Ok in Hkeys as [Hkeys ->].
  apply run_bind_Ok in H as (results & w2 & Hrun & H).
  cbn in H. injection H as <- <-. split; [reflexivity|]. simpl.
  eapply run_partitions in Hrun as (perm & Hperm & Hrel); [|exact Hf].
  exists perm. split; [|assumption].
  rewrite Hperm, group_rows_perm.
  by rewrite filter_all by by eapply null_free_keys.
Qed.

Lemma Forall2_with_left {A B : Type} (R : A -> B -> Prop) (Q : A -> Prop)
    (l : list A) (k : list B) :
  Forall2 R l k -> Forall Q l -> Forall2 (fun x y => R x y /\ Q x) l k.
Proof.
  induction 1 as [|x y l k HR _ IH]; intros HQ; [constructor|].
  apply Forall_cons in HQ as [Hx HQ]. constructor; [by split | by apply IH].
Qed.

Lemma Forall2_fmap_eq {A B C : Type} (f : A -> C) (g : B -> C)
    (l : list A) (k : list B) :
  Forall2 (fun x y => f x = g y) l k -> f <$> l = g <$> k.
Proof.
  induction 1 as [|x y l k Hxy _ IH]; [reflexivity|].
  cbn. rewrite Hxy. f_equal. exact IH.
Qed.

Lemma fst_pair_fmap {A B : Type} (b : B) (l : list A) :
  ((fun a => (a, b)) <$> l).*1 = l.
Proof. induction l as [|a l IH]; [reflexivity|]. cbn. f_equal. exact IH. Qed.

Section DriverProperties.

Variable literal_int : RexNode -> result Z.
Variable uuid4 : nat -> string.
Variable str_lower : string -> string.
Variable RexConverter_convert : RexNode -> DataContainer -> Context -> list value.
Variable get_groupby_with_nulls_cols :
  DataFrame -> list (list value) -> list (list value).

(** Identifiers drawn from [uuid4] never repeat. *)
Hypothesis uuid4_inj : Inj (=) (=) uuid4.

(** *** Fresh names *)

Lemma draw_name_cases (fuel : nat) (cols : list string) (k : nat) :
  (draw_name uuid4 fuel cols k = None
   /\ forall j, (k <= j < k + fuel)%nat -> uuid4 j ∈ cols)
  \/ (exists j, (k <= j < k + fuel)%nat
        /\ draw_name uuid4 fuel cols k = Some (uuid4 j, S j)
        /\ uuid4 j ∉ cols).
Proof.
  revert k. induction fuel as [|fuel IH]; intros k; simpl.
  - left. split; [reflexivity|]. intros j Hj. lia.
  - case_bool_decide as Hin.
    + destruct (IH (S k)) as [[Hnone Hall]|(j & Hj & Hsome & Hfresh)].
      * left. split; [assumption|]. intros j Hj.
        destruct (decide (j = k)) as [->|]; [assumption|]. apply Hall. lia.
      * right. exists j. split; [lia|]. by split.
    + right. exists k. split; [lia|]. by split.
Qed.

Lemma draw_name_fresh (cols : list string) (k : nat) :
  exists j, (k <= j)%nat
    /\ draw_name uuid4 (S (length cols)) cols k = Some (uuid4 j, S j)
    /\ uuid4 j ∉ cols.
Proof.
  destruct (draw_name_cases (S (length cols)) cols k)
    as [[_ Hall]|(j & Hj & Hsome & Hfresh)].
  - exfalso.
    assert ((uuid4 <$> seq k (S (length cols))) ⊆+ cols) as Hsub.
    { apply NoDup_submseteq.
      - apply NoDup_fmap_2; [assumption | apply NoDup_seq].
      - intros x Hx. apply list_elem_of_fmap in Hx as (j & -> & Hj).
        apply elem_of_seq in Hj. apply Hall. lia. }
    apply submseteq_length in Hsub.
    rewrite length_fmap, length_seq in Hsub. lia.
  - exists j. split; [lia|]. by split.
Qed.

Lemma new_temporary_column_run (df : DataFrame) (w : World) :
  exists j, (uuid_count w <= j)%nat
    /\ run (new_temporary_column uuid4 df) w
       = (Ok (uuid4 j), mkWorld (S j) (partitions_run w))
    /\ uuid4 j ∉ columns df.
Proof.
  destruct (draw_name_fresh (columns df) (uuid_count w)) as (j & Hj & Hd & Hf).
  exists j. split; [assumption|]. split; [|assumption].
  unfold new_temporary_column. cbn [run]. by rewrite Hd.
Qed.

Lemma drawn_nil (w : World) : drawn uuid4 w w [].
Proof. exists []. split; [reflexivity|]. split; constructor. Qed.

Lemma drawn_app (w1 w2 w3 : World) (a b : list string) :
  (uuid_count w1 <= uuid_count w2 <= uuid_count w3)%nat ->
  drawn uuid4 w1 w2 a -> drawn uuid4 w2 w3 b -> drawn uuid4 w1 w3 (a ++ b).
Proof.
  intros Hle (ja & -> & Hna & Hra) (jb & -> & Hnb & Hrb).
  exists (ja ++ jb). split; [by rewrite fmap_app|]. split.
  - apply NoDup_app. split; [assumption|]. split; [|assumption].
    intros j Ha Hb. rewrite Forall_forall in Hra, Hrb.
    specialize (Hra j Ha). specialize (Hrb j Hb). lia.
  - apply Forall_app. split; eapply Forall_impl; eauto; simpl; intros; lia.
Qed.

Lemma drawn_NoDup (w w' : World) (names : list string) :
  drawn uuid4 w w' names -> NoDup names.
Proof. intros (js & -> & Hn & _). by apply NoDup_fmap_2. Qed.

Lemma drawn_one (df : DataFrame) (w : World) :
  exists name w',
    run (new_temporary_column uuid4 df) w = (Ok name, w')
    /\ drawn uuid4 w w' [name] /\ (name ∉ columns df)
    /\ (uuid_count w <= uuid_count w')%nat
    /\ partitions_run w' = partitions_run w.
Proof.
  destruct (new_temporary_column_run df w) as (j & Hj & Hrun & Hfresh).
  exists (uuid4 j), (mkWorld (S j) (partitions_run w)).
  split; [assumption|]. split.
  - exists [j]. split; [reflexivity|]. split; [apply NoDup_singleton|].
    constructor; [simpl; lia | constructor].
  - split; [assumption|]. split; [simpl; lia | reflexivity].
Qed.

Lemma drawn_fresh (w0 w : World) (names : list string) (j : nat) :
  drawn uuid4 w0 w names -> (uuid_count w <= j)%nat -> uuid4 j ∉ names.
Proof.
  intros (js & -> & _ & Hr) Hj Hin.
  apply list_elem_of_fmap in Hin as (j' & Heq & Hj').
  apply uuid4_inj in Heq as <-. rewrite Forall_forall in Hr.
  specialize (Hr j Hj'). lia.
Qed.

Lemma name_columns_run (df : DataFrame) (cols : list (list value))
    (named : list (string * list value)) (w0 w : World) :
  drawn uuid4 w0 w named.*1 ->
  (uuid_count w0 <= uuid_count w)%nat ->
  exists names w',
    run (name_columns uuid4 df cols named) w = (Ok (named ++ zip names cols), w')
    /\ length names = length cols
    /\ drawn uuid4 w0 w' (named.*1 ++ names)
    /\ drawn uuid4 w w' names
    /\ Forall (fun name => name ∉ columns df) names
    /\ (uuid_count w <= uuid_count w')%nat
    /\ partitions_run w' = partitions_run w.
Proof.
  revert named w. induction cols as [|col cols IH]; intros named w Hd Hle.
  - exists [], w. simpl. rewrite !app_nil_r.
    repeat split; try done. apply drawn_nil.
  - destruct (drawn_one df w) as (name & w1 & Hrun & Hd1 & Hfresh & Hle1 & Hp1).
    assert (name ∉ named.*1) as Hnew.
    { destruct Hd1 as (js & Hjs & _ & Hr). destruct js as [|j [|? ?]]; try done.
      injection Hjs as ->. apply Forall_inv in Hr.
      eapply drawn_fresh; [exact Hd | lia]. }
    assert (drawn uuid4 w0 w1 (dict_set named name col).*1) as Hd'.
    { rewrite dict_set_new, fmap_app by assumption. simpl.
      apply (drawn_app w0 w w1); [lia | assumption..]. }
    destruct (IH (dict_set named name col) w1 Hd' ltac:(lia))
      as (names & w' & Hrun' & Hlen & Hall & Hbetween & Hfr & Hle' & Hp').
    exists (name :: names), w'.
    change (name_columns uuid4 df (col :: cols) named)
      with (new_temporary_column uuid4 df
              ≫= fun name => name_columns uuid4 df cols (dict_set named name col)).
    rewrite run_bind, Hrun, Hrun'.
    rewrite dict_set_new, fmap_app, <- !app_assoc in * by assumption.
    simpl in *. repeat split; try done.
    + by rewrite Hlen.
    + apply (drawn_app w w1 w' [name] names); [lia | assumption..].
    + by constructor.
    + lia.
    + congruence.
Qed.

(** *** Extraction processes no partition *)

Lemma quiet_new_temporary_column (df : DataFrame) :
  quiet (new_temporary_column uuid4 df).
Proof.
  intros w. unfold new_temporary_column. cbn [run].
  by destruct (draw_name uuid4 _ _ _) as [[? ?]|].
Qed.

Lemma quiet_name_columns (df : DataFrame) cols named :
  quiet (name_columns uuid4 df cols named).
Proof.
  revert named. induction cols as [|col cols IH]; intros named.
  - apply quiet_ret.
  - apply quiet_bind; [apply quiet_new_temporary_column | intros; apply IH].
Qed.

Lemma quiet_extract_groupby df window dc context :
  quiet (_extract_groupby uuid4 get_groupby_with_nulls_cols df window dc context).
Proof.
  unfold _extract_groupby. apply quiet_bind; [|intros; apply quiet_ret].
  destruct (keys window).
  - apply quiet_bind; [apply quiet_new_temporary_column | intros; apply quiet_ret].
  - apply quiet_bind; [apply quiet_lift | intros; apply quiet_name_columns].
Qed.

Lemma quiet_extract_operations_loop agg_calls df dc context operations :
  quiet (extract_operations_loop uuid4 str_lower RexConverter_convert agg_calls df dc
           context operations).
Proof.
  revert df operations.
  induction agg_calls as [|agg_call agg_calls IH]; intros df operations.
  - apply quiet_ret.
  - apply quiet_bind; [apply quiet_lift|]. intros operation.
    apply quiet_bind; [apply quiet_name_columns|]. intros temporary.
    apply quiet_bind; [apply quiet_new_temporary_column|]. intros; apply IH.
Qed.

Lemma quiet_extract_group window dc context :
  quiet (extract_group uuid4 str_lower RexConverter_convert get_groupby_with_nulls_cols
           window dc context).
Proof.
  unfold extract_group. apply quiet_bind; [apply quiet_lift|]. intros ordering.
  apply quiet_bind; [apply quiet_extract_groupby|]. intros grouped.
  apply quiet_bind; [apply quiet_extract_operations_loop|].
  intros; apply quiet_ret.
Qed.

(** *** What extraction adds to the table *)

Lemma extract_groupby_extends df0 window dc context w grouped w1 :
  run (_extract_groupby uuid4 get_groupby_with_nulls_cols df0 window dc context) w
  = (Ok grouped, w1) ->
  extends df0 grouped.1 grouped.2
  /\ drawn uuid4 w w1 grouped.2
  /\ Forall (fun name => name ∉ columns df0) grouped.2
  /\ (uuid_count w <= uuid_count w1)%nat.
Proof.
  unfold _extract_groupby. rewrite run_bind.
  destruct (keys window) as [|key keys'].
  - rewrite run_bind.
    destruct (drawn_one df0 w) as (name & w' & -> & Hd & Hfresh & Hle & _).
    cbn [run mret exec_ret]. intros [= <- <-]. simpl.
    split; [|split; [assumption | split; [by constructor | assumption]]].
    by apply (assign_column_fresh df0 name).
  - rewrite run_bind. unfold lift at 1. cbn [run].
    destruct (mapM _ (key :: keys')) as [group_columns|e]; [|discriminate].
    destruct (name_columns_run df0 (get_groupby_with_nulls_cols df0 group_columns)
                [] w w (drawn_nil _) ltac:(lia))
      as (names & w' & -> & Hlen & _ & Hd & Hfresh & Hle & _).
    cbn [run mret exec_ret]. intros [= <- <-]. simpl.
    rewrite fst_zip by lia.
    split; [|split; [assumption | split; assumption]].
    pose proof (assign_fresh df0 (zip names (get_groupby_with_nulls_cols df0 group_columns)))
      as H.
    rewrite fst_zip in H by lia. apply H; [by eapply drawn_NoDup | assumption].
Qed.

Lemma extends_columns_subseteq df1 df2 names c :
  extends df1 df2 names -> c ∉ columns df2 -> c ∉ columns df1.
Proof. intros [-> _]. rewrite not_elem_of_app. tauto. Qed.

Lemma extract_operations_loop_extends agg_calls dc context :
  forall df1 operations w result w',
    run (extract_operations_loop uuid4 str_lower RexConverter_convert agg_calls df1 dc
           context operations) w = (Ok result, w') ->
    exists new_operations drawn_names,
      result.1 = operations ++ new_operations
      /\ length new_operations = length agg_calls
      /\ extends df1 result.2
           (concat ((fun op : operation_entry => op.2) <$> new_operations))
      /\ drawn uuid4 w w' drawn_names
      /\ drawn_names ≡ₚ
           concat ((fun op : operation_entry => op.2) <$> new_operations)
           ++ newly_created_columns_of new_operations
      /\ Forall (fun name => name ∉ columns df1) drawn_names
      /\ (uuid_count w <= uuid_count w')%nat.
Proof.
  induction agg_calls as [|agg_call agg_calls IH];
    intros df1 operations w result w'.
  - cbn [extract_operations_loop run mret exec_ret]. intros [= <- <-].
    exists [], []. simpl. rewrite app_nil_r.
    split; [reflexivity|]. split; [reflexivity|]. split; [apply extends_refl|].
    split; [apply drawn_nil|]. split; [reflexivity|]. split; [constructor | lia].
  - cbn [extract_operations_loop]. rewrite run_bind. unfold lift at 1. cbn [run].
    destruct (lookup_operation context (str_lower (getName agg_call)))
      as [operation|e]; [|discriminate].
    rewrite run_bind.
    set (cols := (fun o => RexConverter_convert o dc context) <$> getOperands agg_call).
    destruct (name_columns_run df1 cols [] w w (drawn_nil _) ltac:(lia))
      as (names & w1 & -> & Hlen & _ & Hd1 & Hfresh1 & Hle1 & _).
    simpl app. rewrite run_bind, fst_zip by lia.
    destruct (drawn_one (assign df1 (zip names cols)) w1)
      as (name & w2 & -> & Hd2 & Hfresh2 & Hle2 & _).
    intros Hrun. apply IH in Hrun
      as (new_operations & drawn' & Hres & Hlen' & Hext & Hd' & Hperm & Hfresh' & Hle').
    assert (extends df1 (assign df1 (zip names cols)) names) as Hstep.
    { pose proof (assign_fresh df1 (zip names cols)) as H.
      rewrite fst_zip in H by lia. apply H; [by eapply drawn_NoDup | assumption]. }
    exists ((operation, name, names) :: new_operations), (names ++ [name] ++ drawn').
    split; [by rewrite Hres, <- app_assoc|]. split; [simpl; by rewrite Hlen'|].
    split; [simpl; by eapply extends_trans|].
    split.
    { apply (drawn_app w w1 w'); [lia | assumption |].
      apply (drawn_app w1 w2 w'); [lia | assumption..]. }
    split.
    { simpl. rewrite Hperm, <- !app_assoc. apply Permutation_app_head.
      apply Permutation_middle. }
    split; [|lia].
    apply Forall_app. split; [assumption|]. apply Forall_app. split.
    + constructor; [|constructor]. by eapply extends_columns_subseteq.
    + eapply Forall_impl; [exact Hfresh'|]. simpl. intros c Hc.
      by eapply extends_columns_subseteq.
Qed.

(** *** Operator lookup during extraction *)






(** *** Grouping keys *)

(** What [get_groupby_with_nulls_cols] is for: the key columns it prepares
    have one cell per row and no null, so that grouping loses no row. *)
Hypothesis group_columns_without_nulls : forall df cols,
  Forall (fun col => length col = len df) cols ->
  Forall (fun col => length col = len df /\ Forall is_Some col)
    (get_groupby_with_nulls_cols df cols).

Lemma getitem_length (table : DataFrame) (name : string) (col : list value) :
  getitem table name = Ok col -> length col = len table.
Proof.
  unfold getitem. intros H. apply result_bind_Ok in H as (j & _ & [= <-]).
  apply length_fmap.
Qed.

Lemma extract_groupby_null_free df0 window dc context w grouped w1 :
  wf_table df0 ->
  run (_extract_groupby uuid4 get_groupby_with_nulls_cols df0 window dc context) w
  = (Ok grouped, w1) ->
  Forall (column_null_free grouped.1) grouped.2.
Proof.
  intros Hwf. unfold _extract_groupby. rewrite run_bind.
  destruct (keys window) as [|key keys'].
  - rewrite run_bind.
    destruct (drawn_one df0 w) as (name & w' & -> & _ & Hfresh & _).
    cbn [run mret exec_ret]. intros [= <- <-]. simpl.
    constructor; [|constructor].
    apply column_null_free_assign_column; try assumption.
    + apply length_replicate.
    + apply Forall_replicate. by eexists.
  - rewrite run_bind. unfold lift at 1. cbn [run].
    destruct (mapM _ (key :: keys')) as [group_columns|e] eqn:Hcols; [|discriminate].
    assert (Forall (fun col => length col = len df0) group_columns) as Hlens.
    { apply mapM_result_Ok in Hcols. eapply Forall2_Forall_r; [exact Hcols|].
      apply Forall_forall. intros o _ col H.
      apply result_bind_Ok in H as (name & _ & H). by apply getitem_length in H. }
    destruct (name_columns_run df0 (get_groupby_with_nulls_cols df0 group_columns)
                [] w w (drawn_nil _) ltac:(lia))
      as (names & w' & -> & Hlen & _ & Hd & Hfresh & _).
    cbn [run mret exec_ret]. intros [= <- <-]. simpl.
    rewrite fst_zip by lia.
    apply assign_null_free; try assumption.
    + by eapply drawn_NoDup.
    + by apply group_columns_without_nulls.
Qed.

(** *** The whole group *)

Lemma extract_group_extends window dc context w extraction w1 :
  wf_table (df dc) ->
  run (extract_group uuid4 str_lower RexConverter_convert get_groupby_with_nulls_cols
         window dc context) w = (Ok extraction, w1) ->
  Forall (column_null_free (ex_df extraction)) (ex_group_columns extraction)
  /\ extends (df dc) (ex_df extraction)
    (temporary_columns_of (ex_group_columns extraction) (ex_operations extraction))
  /\ NoDup (temporary_columns_of (ex_group_columns extraction)
              (ex_operations extraction)
            ++ newly_created_columns_of (ex_operations extraction))
  /\ Forall (fun name => name ∉ columns (df dc))
       (temporary_columns_of (ex_group_columns extraction)
          (ex_operations extraction)
        ++ newly_created_columns_of (ex_operations extraction))
  /\ length (ex_operations extraction) = length (aggCalls window).
Proof.
  unfold extract_group. intros Hwf H.
  apply run_bind_Ok in H as (ordering & w0 & Hord & H).
  apply run_lift_Ok in Hord as [_ ->].
  apply run_bind_Ok in H as (grouped & w2 & Hgroup & H).
  apply run_bind_Ok in H as (extracted & w3 & Hops & H).
  cbn in H. injection H as <- <-. simpl.
  pose proof (extract_groupby_null_free _ _ _ _ _ _ _ Hwf Hgroup) as Hfree.
  apply extract_groupby_extends in Hgroup as (Hext1 & Hd1 & Hfresh1 & Hle1).
  unfold _extract_operations in Hops.
  apply extract_operations_loop_extends in Hops
    as (new_operations & names & Hres & Hlen & Hext2 & Hd2 & Hperm & Hfresh2 & Hle2).
  simpl in Hres. rewrite Hres. unfold temporary_columns_of.
  split.
  { eapply Forall_impl; [exact Hfree|]. simpl. intros name Hname.
    eapply column_null_free_extends; [|exact Hext2|exact Hname].
    by eapply extends_wf. }
  split; [by eapply extends_trans|].
  assert (drawn uuid4 w w3 (grouped.2 ++ names)) as Hd
    by (apply (drawn_app w w2 w3); [lia | assumption..]).
  rewrite <- app_assoc, <- Hperm.
  split; [by eapply drawn_NoDup|]. split; [|assumption].
  apply Forall_app. split; [assumption|].
  eapply Forall_impl; [exact Hfresh2|]. simpl. intros c Hc.
  by eapply extends_columns_subseteq.
Qed.

(** C10.  Whenever [_apply_window] returns a table for a window group, the
    columns of that table are the input columns followed by one new column
    per aggregate call, none of the helper columns (grouping keys, operand
    temporaries) is left, and the rows, cut to the input columns, are the
    input rows, each exactly once, with their cells unchanged. *)
Theorem apply_window_keeps_rows (window : WindowGroup) (constants : list RexNode)
    (constant_count_offset : Z) (dc : DataContainer) (field_names : list string)
    (context : Context) (w : World) (dc' : DataContainer) (w' : World) :
  wf_table (df dc) ->
  run (_apply_window literal_int uuid4 str_lower RexConverter_convert
         get_groupby_with_nulls_cols window constants constant_count_offset dc
         field_names context) w = (Ok dc', w') ->
  exists extraction w1,
    run (extract_group uuid4 str_lower RexConverter_convert get_groupby_with_nulls_cols
           window dc context) w = (Ok extraction, w1)
    /\ length (newly_created_columns_of (ex_operations extraction))
       = length (aggCalls window)
    /\ columns (df dc')
       = columns (df dc) ++ newly_created_columns_of (ex_operations extraction)
    /\ Forall (fun c => c ∉ columns (df dc'))
         (temporary_columns_of (ex_group_columns extraction)
            (ex_operations extraction))
    /\ len (df dc') = len (df dc)
    /\ wf_table (df dc')
    /\ take (length (columns (df dc))) <$> rows (df dc') ≡ₚ rows (df dc).
Proof.
  intros Hwf H. unfold _apply_window in H.
  apply run_bind_Ok in H as (extraction & w1 & Hex & H).
  exists extraction, w1. split; [assumption|].
  apply extract_group_extends in Hex as (Hkeys & Hext & Hnodup & Hfresh & Hlen);
    [|assumption].
  set (T := temporary_columns_of (ex_group_columns extraction)
              (ex_operations extraction)) in *.
  set (N := newly_created_columns_of (ex_operations extraction)) in *.
  unfold apply_extracted in H.
  apply run_bind_Ok in H as (lower_bound & w2 & _ & H).
  apply run_bind_Ok in H as (upper_bound & w3 & _ & H).
  apply run_bind_Ok in H as (df1 & w4 & Hgroup & H).
  apply run_bind_Ok in H as (df2 & w5 & Hdrop & H).
  apply run_lift_Ok in Hdrop as [Hdrop _].
  apply run_bind_Ok in H as (cc & w6 & _ & H).
  cbn in H. injection H as <- <-. simpl.
  fold T N in Hgroup, Hdrop.
  apply NoDup_app in Hnodup as (HnodupT & Hdisj & HnodupN).
  apply Forall_app in Hfresh as [HfreshT HfreshN].
  destruct Hext as [Hcols Hrows].
  (* every partition comes back with the new columns appended *)
  eapply (groupby_apply_rows (row_extends (length N))) in Hgroup
    as (Hcols1 & perm & Hperm & Hrel); [|exact Hkeys|].
  2:{ intros pg result Hpg Hrun.
      apply map_on_each_group_extends in Hrun as (sorted & Hs & _ & Hr);
        [by exists sorted | assumption |].
      rewrite Hpg, Hcols. apply Forall_forall. intros c Hc.
      rewrite not_elem_of_app. split.
      - rewrite Forall_forall in HfreshN. by apply HfreshN.
      - intros HcT. by apply (Hdisj c HcT). }
  assert (columns df1 = columns (df dc) ++ T ++ N) as Hcols1'.
  { rewrite Hcols1.
    pose proof (assign_fresh (mkDataFrame (columns (ex_df extraction)) [])
                  ((fun col => (col, [])) <$> N)) as [Hm _].
    - by rewrite fst_pair_fmap.
    - rewrite fst_pair_fmap. simpl. rewrite Hcols. apply Forall_forall.
      intros c Hc. rewrite not_elem_of_app. split.
      + rewrite Forall_forall in HfreshN. by apply HfreshN.
      + intros HcT. by apply (Hdisj c HcT).
    - rewrite Hm, fst_pair_fmap. simpl. by rewrite Hcols, <- app_assoc. }
  (* the shape of the rows before the helper columns are dropped *)
  assert (Forall (fun p => exists r0 tv, p = r0 ++ tv /\ length r0 = length (columns (df dc))
                           /\ length tv = length T) perm) as Hshape.
  { rewrite Hperm. unfold wf_table in Hwf.
    eapply Forall2_Forall_r; [exact Hrows|].
    eapply Forall_impl; [exact Hwf|]. simpl.
    intros r0 Hr0 p (tv & -> & Htv). by exists r0, tv. }
  pose proof (Forall2_with_left _ _ _ _ Hrel Hshape) as Hrel'.
  eapply drop_columns_middle in Hdrop as [Hcols2 Hrows2];
    [| exact Hcols1' | | |].
  2:{ apply Forall_forall. intros c Hc HcT.
      rewrite Forall_forall in HfreshT. by apply (HfreshT c HcT). }
  2:{ apply Forall_forall. intros c Hc HcT. by apply (Hdisj c HcT). }
  2:{ eapply Forall2_Forall_r; [exact Hrel'|]. apply Forall_forall.
      intros p _ row [(nv & -> & Hnv) (r0 & tv & -> & Hr0 & Htv)].
      exists r0, tv, nv. by rewrite <- app_assoc. }
  split; [unfold N, newly_created_columns_of; by rewrite length_fmap|].
  split; [assumption|]. split.
  { apply Forall_forall. intros c Hc. rewrite Hcols2, not_elem_of_app. split.
    - rewrite Forall_forall in HfreshT. by apply HfreshT.
    - by apply Hdisj. }
  assert (take (length (columns (df dc))) <$> rows df2 = take (length (columns (df dc))) <$> rows df1) as E1.
  { symmetry. apply Forall2_fmap_eq.
    eapply Forall2_impl; [exact Hrows2|]. simpl.
    intros row row' (r0 & tv & nv & -> & -> & Hr0 & _ & _).
    by rewrite !take_app_length' by done. }
  assert (take (length (columns (df dc))) <$> rows df1 = take (length (columns (df dc))) <$> perm) as E2.
  { symmetry. apply Forall2_fmap_eq.
    eapply Forall2_impl; [exact Hrel'|]. simpl.
    intros p row [(nv & -> & _) (r0 & tv & -> & Hr0 & _)].
    by rewrite <- app_assoc, !take_app_length' by done. }
  assert (take (length (columns (df dc))) <$> rows (ex_df extraction) = rows (df dc)) as E3.
  { rewrite <- (list_fmap_id (rows (df dc))). symmetry. apply Forall2_fmap_eq.
    unfold wf_table in Hwf.
    eapply Forall2_impl; [exact (Forall2_with_left _ _ _ _ Hrows Hwf)|]. simpl.
    intros r0 p [(tv & -> & _) Hr0]. by rewrite take_app_length' by done. }
  assert (take (length (columns (df dc))) <$> rows df2 ≡ₚ rows (df dc)) as Hfinal
    by (by rewrite E1, E2, Hperm, E3).
  split; [|split; [|assumption]].
  - unfold len. apply Permutation_length in Hfinal.
    by rewrite length_fmap in Hfinal.
  - unfold wf_table. rewrite Hcols2.
    eapply Forall2_Forall_r; [exact Hrows2|]. apply Forall_forall.
    intros row _ row' (r0 & tv & nv & _ & -> & Hr0 & _ & Hnv).
    rewrite !length_app. lia.
Qed.

End DriverProperties.

(** ** The driver on a sample table *)

Lemma numbered_uuid_inj : Inj (=) (=) numbered_uuid.
Proof.
  intros a b H. unfold numbered_uuid in H. simpl in H.
  injection H as H. exact (pretty_nat_inj _ _ H).
Qed.

Lemma null_safe_group_columns_without_nulls (table : DataFrame)
    (cols : list (list value)) :
  Forall (fun col => length col = len table) cols ->
  Forall (fun col => length col = len table /\ Forall is_Some col)
    (null_safe_group_columns table cols).
Proof.
  intros _. apply Forall_forall. intros col Hcol.
  unfold null_safe_group_columns in Hcol.
  apply list_elem_of_bind in Hcol as (key & Hcol & _).
  apply elem_of_cons in Hcol as [->|Hcol];
    [|apply list_elem_of_singleton in Hcol as ->];
    (split; [by rewrite length_fmap, length_seq|]);
    apply Forall_fmap, Forall_forall; intros i _; by eexists.
Qed.

Example sample_window_run :
  df <$> (run (_apply_window integer_literal_value numbered_uuid ascii_lower input_ref_column
                 null_safe_group_columns sample_window [] 2 sample_table
                 ["g"; "x"; "s"; "n"] no_functions) initial_world).1
  = Ok (mkDataFrame ["g"; "x"; "tmp3"; "tmp4"]
          [[Some 1; Some 30; Some 30; Some 1];
           [Some 1; Some 10; Some 40; Some 2];
           [Some 2; Some 20; Some 20; Some 1];
           [None; Some 40; Some 40; Some 1]]).
Proof. vm_compute. reflexivity. Qed.

(** Why the key columns are prepared: grouped by the bare column [g], the
    row whose key is null belongs to no partition and is lost. *)
Example null_key_lost_without_preparation :
  df <$> (run (_apply_window integer_literal_value numbered_uuid ascii_lower input_ref_column
                 unprepared_group_columns sample_window [] 2 sample_table
                 ["g"; "x"; "s"; "n"] no_functions) initial_world).1
  = Ok (mkDataFrame ["g"; "x"; "tmp2"; "tmp3"]
          [[Some 1; Some 30; Some 30; Some 1];
           [Some 1; Some 10; Some 40; Some 2];
           [Some 2; Some 20; Some 20; Some 1]]).
Proof. vm_compute. reflexivity. Qed.

Example unknown_operator_run :
  run (_apply_window integer_literal_value numbered_uuid ascii_lower input_ref_column
         null_safe_group_columns unknown_operator_window [] 2 sample_table
         ["g"; "x"; "s"; "n"] no_functions) initial_world
  = (Raise (not_implemented "median"), mkWorld 4 0).
Proof. vm_compute. reflexivity. Qed.


Lemma apply_window_keeps_rows_witness :
  exists dc' w',
    run (_apply_window integer_literal_value numbered_uuid ascii_lower input_ref_column
           null_safe_group_columns sample_window [] 2 sample_table
           ["g"; "x"; "s"; "n"] no_functions) initial_world = (Ok dc', w')
    /\ exists extraction w1,
         run (extract_group numbered_uuid ascii_lower input_ref_column null_safe_group_columns
                sample_window sample_table no_functions) initial_world
         = (Ok extraction, w1)
         /\ length (newly_created_columns_of (ex_operations extraction))
            = length (aggCalls sample_window)
         /\ columns (df dc')
            = columns (df sample_table)
              ++ newly_created_columns_of (ex_operations extraction)
         /\ Forall (fun c => c ∉ columns (df dc'))
              (temporary_columns_of (ex_group_columns extraction)
                 (ex_operations extraction))
         /\ len (df dc') = len (df sample_table)
         /\ wf_table (df dc')
         /\ take (length (columns (df sample_table))) <$> rows (df dc')
            ≡ₚ rows (df sample_table).
Proof.
  eexists _, _. split; [vm_compute; reflexivity|].
  eapply (apply_window_keeps_rows integer_literal_value numbered_uuid ascii_lower
           input_ref_column null_safe_group_columns numbered_uuid_inj
           null_safe_group_columns_without_nulls sample_window
           [] 2 sample_table ["g"; "x"; "s"; "n"] no_functions initial_world).
  - repeat constructor.
  - vm_compute. reflexivity.
Defined.


(** * Further properties of the code *)

(** ** [Indexer.get_window_bounds] on any offsets *)

Lemma as_int64_inv (cells l : list Z) :
  np.as_int64 cells = Ok l ->
  l = cells /\ Forall (fun z => np.int64_min <= z <= np.int64_max) cells.
Proof.
  unfold np.as_int64. destruct (forallb np.fits_int64 cells) eqn:E; [|discriminate].
  intros [= <-]. split; [reflexivity|].
  apply Forall_forall. intros z Hz.
  rewrite forallb_forall in E. specialize (E z (proj1 (list_elem_of_In _ _) Hz)).
  unfold np.fits_int64 in E. apply andb_prop in E as [E1 E2].
  apply Z.leb_le in E1, E2. lia.
Qed.

Lemma setslice_seqZ_inv (a : Z) (n : nat) (lo hi : option Z) (v : Z) (f : Z -> Z)
    (l : list Z) :
  np.setslice (seqZ a (Z.of_nat n)) lo hi v = Ok l ->
  (forall i, 0 <= i < Z.of_nat n ->
     f i = if (from_option (np.slice_index (Z.of_nat n)) 0 lo <=? i)
              && (i <? from_option (np.slice_index (Z.of_nat n)) (Z.of_nat n) hi)
           then v else a + i) ->
  l = f <$> seqZ 0 (Z.of_nat n).
Proof.
  intros H Hf.
  assert (np.int64_min <= v <= np.int64_max) as Hv.
  { unfold np.setslice in H. destruct (np.fits_int64 v) eqn:E; [|discriminate].
    unfold np.fits_int64 in E. apply andb_prop in E as [E1 E2].
    apply Z.leb_le in E1, E2. lia. }
  rewrite (setslice_seqZ a n lo hi v f Hv Hf) in H. congruence.
Qed.

Lemma window_start_inv (self : Indexer) (n : nat) (start : list Z) :
  window_start self n = Ok start -> start = general_start (ix_start self) n.
Proof.
  unfold window_start, general_start.
  destruct (ix_start self) as [s|]; [|by intros [= <-]].
  intros H. apply result_bind_Ok in H as (a & Ha & H).
  apply as_int64_inv in Ha as [-> _].
  replace (s + Z.of_nat n - s) with (Z.of_nat n) in H by lia.
  destruct (Z.ltb_spec s 0) as [Hneg|Hnonneg].
  - eapply setslice_seqZ_inv; [exact H|].
    intros i Hi. unfold clamp, np.slice_index. simpl. case_compare.
  - destruct (Z.ltb_spec 0 s) as [Hpos|Hzero].
    + eapply setslice_seqZ_inv; [exact H|].
      intros i Hi. unfold clamp, np.slice_index. simpl. case_compare.
    + injection H as <-. apply list_eq. intros i. rewrite list_lookup_fmap.
      destruct (decide (i < n)%nat) as [Hi|Hi].
      * rewrite !lookup_seqZ_lt by lia. simpl. f_equal. unfold clamp. lia.
      * rewrite !lookup_seqZ_ge by lia. reflexivity.
Qed.

Lemma window_end_inv (self : Indexer) (n : nat) (end_ : list Z) :
  window_end self n = Ok end_ ->
  end_ = general_end (ix_end self) n /\ ix_end self <> Some 0.
Proof.
  unfold window_end, general_end.
  destruct (ix_end self) as [e|].
  - intros H. apply result_bind_Ok in H as (a & Ha & H).
    apply as_int64_inv in Ha as [-> _].
    replace (e + 1 + Z.of_nat n - (e + 1)) with (Z.of_nat n) in H by lia.
    destruct (Z.ltb_spec 0 e) as [Hpos|Hnonpos].
    + split; [|intros [=]; lia]. eapply setslice_seqZ_inv; [exact H|].
      intros i Hi. unfold clamp, np.slice_index. simpl. case_compare.
    + destruct (Z.ltb_spec e 0) as [Hneg|Hzero]; [|discriminate].
      split; [|intros [=]; lia]. eapply setslice_seqZ_inv; [exact H|].
      intros i Hi. unfold clamp, np.slice_index. simpl. case_compare.
  - intros H. apply as_int64_inv in H as [-> _]. by split.
Qed.

Lemma get_window_bounds_inv (self : Indexer) (n : nat) (start end_ : list Z) :
  get_window_bounds self n = Ok (start, end_) ->
  start = general_start (ix_start self) n
  /\ end_ = general_end (ix_end self) n
  /\ ix_end self <> Some 0.
Proof.
  unfold get_window_bounds. intros H.
  apply result_bind_Ok in H as (s & Hs & H).
  apply result_bind_Ok in H as (e & He & [= <- <-]).
  apply window_start_inv in Hs. apply window_end_inv in He as [He Hne].
  by repeat split.
Qed.

Lemma general_start_at (lower_offset : option Z) (n i : nat) :
  (i < n)%nat ->
  general_start lower_offset n !! i
  = Some (from_option (fun l => clamp (Z.of_nat i + l) 0 (Z.of_nat n)) 0 lower_offset).
Proof.
  intros Hi. destruct (general_start lower_offset n !! i) as [s|] eqn:E.
  - by apply general_start_lookup in E as ->.
  - apply lookup_ge_None in E. rewrite general_start_length in E. lia.
Qed.

Lemma general_end_at (upper_offset : option Z) (n i : nat) :
  (i < n)%nat ->
  general_end upper_offset n !! i
  = Some (from_option (fun u => clamp (Z.of_nat i + u + 1) 0 (Z.of_nat n))
            (Z.of_nat n) upper_offset).
Proof.
  intros Hi. destruct (general_end upper_offset n !! i) as [e|] eqn:E.
  - by apply general_end_lookup in E as ->.
  - apply lookup_ge_None in E. rewrite general_end_length in E. lia.
Qed.

(** X1.  Whatever the offsets, also for a malformed bound combination, what
    [get_window_bounds] returns are two arrays with one entry per row, and
    every entry is an index between 0 and the number of rows. *)
Theorem get_window_bounds_within_partition (self : Indexer) (num_values : nat)
    (start end_ : list Z) :
  get_window_bounds self num_values = Ok (start, end_) ->
  length start = num_values /\ length end_ = num_values
  /\ Forall (fun s => 0 <= s <= Z.of_nat num_values) start
  /\ Forall (fun e => 0 <= e <= Z.of_nat num_values) end_.
Proof.
  intros H. apply get_window_bounds_inv in H as (-> & -> & _).
  split; [apply general_start_length|]. split; [apply general_end_length|].
  split; apply Forall_lookup; intros i x Hx.
  - apply general_start_lookup in Hx as ->.
    destruct (ix_start self); simpl; unfold clamp; lia.
  - apply general_end_lookup in Hx as ->.
    destruct (ix_end self); simpl; unfold clamp; lia.
Qed.

Lemma get_window_bounds_within_partition_witness :
  length [3; 4; 5; 5; 5] = 5%nat /\ length [2; 3; 4; 5; 5] = 5%nat
  /\ Forall (fun s => 0 <= s <= Z.of_nat 5) [3; 4; 5; 5; 5]
  /\ Forall (fun e => 0 <= e <= Z.of_nat 5) [2; 3; 4; 5; 5].
Proof.
  apply (get_window_bounds_within_partition (mkIndexer (Some 3) (Some 1)) 5).
  vm_compute. reflexivity.
Defined.

(** X2.  Both arrays [get_window_bounds] returns are non-decreasing along
    the rows: a later row never starts, and never ends, before an earlier
    one. *)
Theorem get_window_bounds_monotone (self : Indexer) (num_values : nat)
    (start end_ : list Z) (i j : nat) (si sj ei ej : Z) :
  get_window_bounds self num_values = Ok (start, end_) ->
  (i <= j)%nat ->
  start !! i = Some si -> start !! j = Some sj ->
  end_ !! i = Some ei -> end_ !! j = Some ej ->
  si <= sj /\ ei <= ej.
Proof.
  intros H Hij Hsi Hsj Hei Hej. apply get_window_bounds_inv in H as (-> & -> & _).
  apply general_start_lookup in Hsi as ->. apply general_start_lookup in Hsj as ->.
  apply general_end_lookup in Hei as ->. apply general_end_lookup in Hej as ->.
  destruct (ix_start self), (ix_end self); simpl; unfold clamp; lia.
Qed.

Lemma get_window_bounds_monotone_witness : 0 <= 1 /\ 3 <= 5.
Proof.
  apply (get_window_bounds_monotone (mkIndexer (Some (-2)) (Some 1)) 5
           [0; 0; 0; 1; 2] [2; 3; 4; 5; 5] 1 3 0 1 3 5);
    [vm_compute; reflexivity | lia | reflexivity..].
Defined.

(** X3.  With finite offsets [l <= u], no frame [get_window_bounds] returns
    holds more than [u - l + 1] rows, and a row whose whole window lies
    inside the partition gets exactly that many. *)
Theorem get_window_bounds_width (l u : Z) (num_values : nat)
    (start end_ : list Z) (i : nat) (s e : Z) :
  get_window_bounds (mkIndexer (Some l) (Some u)) num_values = Ok (start, end_) ->
  l <= u ->
  start !! i = Some s -> end_ !! i = Some e ->
  0 <= e - s <= u - l + 1
  /\ (0 <= Z.of_nat i + l -> Z.of_nat i + u + 1 <= Z.of_nat num_values ->
      e - s = u - l + 1).
Proof.
  intros H Hlu Hs He. apply get_window_bounds_inv in H as (-> & -> & _).
  apply general_start_lookup in Hs as ->. apply general_end_lookup in He as ->.
  simpl. unfold clamp. lia.
Qed.

Lemma get_window_bounds_width_witness :
  0 <= 5 - 1 <= 1 - (-2) + 1
  /\ (0 <= Z.of_nat 3 + (-2) -> Z.of_nat 3 + 1 + 1 <= Z.of_nat 5 ->
      5 - 1 = 1 - (-2) + 1).
Proof.
  apply (get_window_bounds_width (-2) 1 5 [0; 0; 0; 1; 2] [2; 3; 4; 5; 5] 3 1 5);
    [vm_compute; reflexivity | lia | reflexivity..].
Defined.

(** X4.  When the lower offset is absent or not positive and the upper
    offset is absent or not negative, every row lies inside the frame
    [get_window_bounds] returns for it. *)
Theorem get_window_bounds_holds_own_row (self : Indexer) (num_values : nat)
    (start end_ : list Z) (i : nat) (s e : Z) :
  get_window_bounds self num_values = Ok (start, end_) ->
  from_option (fun l => l <= 0) True (ix_start self) ->
  from_option (fun u => 0 <= u) True (ix_end self) ->
  start !! i = Some s -> end_ !! i = Some e ->
  s <= Z.of_nat i < e.
Proof.
  intros H Hl Hu Hs He. apply get_window_bounds_inv in H as (-> & -> & _).
  apply lookup_lt_Some in Hs as Hi. rewrite general_start_length in Hi.
  apply general_start_lookup in Hs as ->. apply general_end_lookup in He as ->.
  destruct (ix_start self), (ix_end self); simpl in *; unfold clamp; lia.
Qed.

Lemma get_window_bounds_holds_own_row_witness : 1 <= Z.of_nat 3 < 5.
Proof.
  apply (get_window_bounds_holds_own_row (mkIndexer (Some (-2)) (Some 1)) 5
           [0; 0; 0; 1; 2] [2; 3; 4; 5; 5] 3 1 5);
    [vm_compute; reflexivity | simpl; lia | simpl; lia | reflexivity..].
Defined.

(** ** The operators *)

Lemma mapM_pure {A B : Type} (f : A -> result B) (g : A -> B) (l : list A) :
  Forall (fun x => f x = Ok (g x)) l -> mapM f l = Ok (g <$> l).
Proof.
  induction 1 as [|x l Hx _ IH]; [reflexivity|].
  change (mapM f (x :: l)) with (y ← f x; k ← mapM f l; mret (y :: k)).
  by rewrite Hx, IH.
Qed.

Lemma mapM_raise {A B : Type} (f : A -> result B) (e : exception) (l : list A) :
  Forall (fun x => forall e', f x = Raise e' -> e' = e) l ->
  Exists (fun x => f x = Raise e) l ->
  mapM f l = Raise e.
Proof.
  induction 1 as [|x l Hx _ IH]; intros Hex; [by apply Exists_nil in Hex|].
  change (mapM f (x :: l)) with (y ← f x; k ← mapM f l; mret (y :: k)).
  destruct (f x) as [y|e'] eqn:Hfx.
  - apply Exists_cons in Hex as [Hex|Hex]; [congruence|].
    simpl. by rewrite (IH Hex).
  - simpl. by rewrite (Hx e' eq_refl).
Qed.

Lemma mapM_length {A B : Type} (f : A -> result B) (l : list A) (k : list B) :
  mapM f l = Ok k -> length k = length l.
Proof. intros H. apply mapM_result_Ok, Forall2_length in H. done. Qed.

Lemma window_bounds_length (w : Window) (n : nat) (start end_ : list Z) :
  window_bounds w n = Ok (start, end_) -> length start = n /\ length end_ = n.
Proof.
  destruct w as [|width|indexer]; simpl.
  - intros [= <- <-]. rewrite length_replicate, length_fmap, length_seqZ. lia.
  - intros [= <- <-]. rewrite !length_fmap, length_seqZ. lia.
  - intros H. apply get_window_bounds_inv in H as (-> & -> & _).
    by rewrite general_start_length, general_end_length.
Qed.

Lemma frames_of_rows (windowed : WindowedGroup) (column : list value)
    (frames : list (list value)) :
  frames_of windowed column = Ok frames ->
  length frames = len (wg_frame windowed).
Proof.
  unfold frames_of. intros H.
  apply result_bind_Ok in H as ([start end_] & Hb & [= <-]).
  apply window_bounds_length in Hb as [Hs He]. simpl.
  rewrite length_zip_with. lia.
Qed.

Lemma aggregate_column_rows (windowed : WindowedGroup) (value_col : string)
    (f : list value -> result value) (result : list value) :
  aggregate_column windowed value_col f = Ok result ->
  length result = len (wg_frame windowed).
Proof.
  unfold aggregate_column. intros H.
  apply result_bind_Ok in H as (column & _ & H).
  apply result_bind_Ok in H as (frames & Hframes & H).
  apply mapM_length in H. apply frames_of_rows in Hframes. congruence.
Qed.

Lemma call_built_in_rows (f : Operation) (windowed : WindowedGroup)
    (args : list string) (result : list value) :
  built_in f = true ->
  call f windowed args = Ok result ->
  length result = len (wg_frame windowed).
Proof.
  intros Hf H.
  destruct f; try discriminate Hf;
    destruct args as [|c [|? ?]]; simpl in H; try discriminate H;
    try (by eapply aggregate_column_rows).
  destruct (columns (wg_frame windowed)); [discriminate|].
  by eapply aggregate_column_rows.
Qed.

Lemma assign_len (table : DataFrame) (new_columns : list (string * list value)) :
  len (assign table new_columns) = len table.
Proof.
  revert table. induction new_columns as [|[name col] new_columns IH];
    intros table; [reflexivity|].
  change (assign table ((name, col) :: new_columns))
    with (assign (assign_column table name col) new_columns).
  by rewrite IH, assign_column_len.
Qed.

Lemma assign_column_columns_prefix (table : DataFrame) (name : string)
    (col : list value) :
  columns table `prefix_of` columns (assign_column table name col).
Proof.
  unfold assign_column. destruct (index_of name (columns table)); simpl;
    [reflexivity | by apply prefix_app_r].
Qed.

Lemma assign_columns_prefix (table : DataFrame)
    (new_columns : list (string * list value)) :
  columns table `prefix_of` columns (assign table new_columns).
Proof.
  revert table. induction new_columns as [|[name col] new_columns IH];
    intros table; [reflexivity|].
  change (assign table ((name, col) :: new_columns))
    with (assign (assign_column table name col) new_columns).
  etrans; [apply assign_column_columns_prefix | apply IH].
Qed.

(** X5.  Whenever [map_on_each_group] returns, the table it returns has as
    many rows as the partition it was given and still starts with all the
    columns of that partition, in their order: whatever the operations and
    the names of their new columns, no row and no column is lost. *)
Theorem map_on_each_group_keeps_shape (partitioned_group : DataFrame)
    (sort_columns : list string) (sort_ascending sort_null_first : list bool)
    (lower_bound upper_bound : BoundDescription)
    (operations : list operation_entry) (result : DataFrame) :
  map_on_each_group partitioned_group sort_columns sort_ascending
    sort_null_first lower_bound upper_bound operations = Ok result ->
  len result = len partitioned_group
  /\ columns partitioned_group `prefix_of` columns result.
Proof.
  unfold map_on_each_group. intros H.
  apply result_bind_Ok in H as (pg & Hsort & H).
  apply result_bind_Ok in H as (window & _ & H).
  apply result_bind_Ok in H as (new_columns & _ & [= <-]).
  assert (columns pg = columns partitioned_group
          /\ rows pg ≡ₚ rows partitioned_group) as [Hc Hr].
  { destruct sort_columns.
    - injection Hsort as <-. by split.
    - by apply sort_partition_func_rows in Hsort. }
  split.
  - rewrite assign_len. unfold len. by rewrite Hr.
  - rewrite <- Hc. apply assign_columns_prefix.
Qed.

Lemma map_on_each_group_keeps_shape_witness :
  len (mkDataFrame ["x"; "sum_x"]
         [[Some 1; Some 1]; [Some 2; Some 3]; [Some 3; Some 6]; [Some 4; Some 10]])
  = len (column_table "x" [1; 2; 3; 4])
  /\ columns (column_table "x" [1; 2; 3; 4])
     `prefix_of` columns (mkDataFrame ["x"; "sum_x"]
         [[Some 1; Some 1]; [Some 2; Some 3]; [Some 3; Some 6]; [Some 4; Some 10]]).
Proof.
  apply (map_on_each_group_keeps_shape (column_table "x" [1; 2; 3; 4]) [] [] []
           UNBOUNDED_PRECEDING CURRENT_ROW [(Some SumOperation, "sum_x", ["x"])]).
  vm_compute. reflexivity.
Defined.

Lemma aggregate_column_pure (windowed : WindowedGroup) (value_col : string)
    (g : list value -> value) (result : list value) :
  aggregate_column windowed value_col (fun w => Ok (g w)) = Ok result ->
  exists column start end_,
    getitem (wg_frame windowed) value_col = Ok column
    /\ window_bounds (wg_window windowed) (len (wg_frame windowed)) = Ok (start, end_)
    /\ result = g <$> zip_with (frame_cells column) start end_.
Proof.
  unfold aggregate_column, frames_of. intros H.
  apply result_bind_Ok in H as (column & Hcol & H).
  apply result_bind_Ok in H as (frames & Hframes & H).
  apply result_bind_Ok in Hframes as ([start end_] & Hb & [= <-]).
  exists column, start, end_. split; [assumption|]. split; [assumption|].
  rewrite (mapM_pure _ g) in H; [congruence|].
  apply Forall_forall. by intros.
Qed.

Lemma non_null_length (cells : list value) :
  (length (non_null cells) <= length cells)%nat.
Proof.
  induction cells as [|[x|] cells IH]; simpl; [lia | | ].
  - change (non_null (Some x :: cells)) with (x :: non_null cells). simpl. lia.
  - change (non_null (None :: cells)) with (non_null cells). lia.
Qed.

Lemma non_null_all_null (cells : list value) :
  Forall (fun v => v = None) cells -> non_null cells = [].
Proof. induction 1 as [|v cells -> _ IH]; [reflexivity|]. exact IH. Qed.

Lemma frame_cells_length (column : list value) (start end_ : Z) :
  (length (frame_cells column start end_) <= length column)%nat.
Proof. unfold frame_cells. rewrite length_take, length_drop. lia. Qed.

Lemma frame_cells_sublist (column : list value) (start end_ : Z) (v : value) :
  v ∈ frame_cells column start end_ -> v ∈ column.
Proof.
  unfold frame_cells. intros H.
  apply list_elem_of_lookup in H as [i Hi].
  apply lookup_take_Some in Hi as [Hi _]. rewrite lookup_drop in Hi.
  by eapply list_elem_of_lookup_2.
Qed.

Lemma count_column (windowed : WindowedGroup) (value_col : string)
    (result : list value) :
  aggregate_column windowed value_col (fun w => Ok (window_count w)) = Ok result ->
  Forall (fun v => exists k, v = Some k
                    /\ 0 <= k <= Z.of_nat (len (wg_frame windowed))) result
  /\ forall column,
       getitem (wg_frame windowed) value_col = Ok column ->
       Forall (fun v => v = None) column ->
       result = replicate (len (wg_frame windowed)) (Some 0).
Proof.
  intros H. pose proof (aggregate_column_rows _ _ _ _ H) as Hrows.
  apply aggregate_column_pure in H as (column & start & end_ & Hcol & Hb & ->).
  pose proof (getitem_length _ _ _ Hcol) as Hlen. split.
  - apply Forall_fmap, Forall_forall. intros frame Hframe.
    apply list_elem_of_lookup in Hframe as [i Hi].
    apply lookup_zip_with_Some in Hi as (s & e & -> & _ & _).
    exists (Z.of_nat (length (non_null (frame_cells column s e)))).
    split; [reflexivity|].
    pose proof (non_null_length (frame_cells column s e)).
    pose proof (frame_cells_length column s e). lia.
  - intros column' Hcol' Hnull. assert (column' = column) as -> by congruence.
    rewrite length_fmap in Hrows. rewrite <- Hrows.
    symmetry. apply replicate_as_Forall. split; [by rewrite length_fmap|].
    apply Forall_fmap, Forall_forall. intros frame Hframe.
    apply list_elem_of_lookup in Hframe as [i Hi].
    apply lookup_zip_with_Some in Hi as (s & e & -> & _ & _).
    unfold window_count. simpl. rewrite non_null_all_null; [reflexivity|].
    apply Forall_forall. intros v Hv. apply frame_cells_sublist in Hv.
    rewrite Forall_forall in Hnull. by apply Hnull.
Qed.

(** X6.  What the count operator returns is never null: every cell is a
    number between 0 and the number of rows of the partition, and over an
    operand column whose cells are all null every row counts 0. *)
Theorem count_is_never_null (windowed : WindowedGroup) (args : list string)
    (result : list value) :
  call CountOperation windowed args = Ok result ->
  length result = len (wg_frame windowed)
  /\ Forall (fun v => exists k, v = Some k
                       /\ 0 <= k <= Z.of_nat (len (wg_frame windowed))) result
  /\ forall value_col column,
       args = [value_col] ->
       getitem (wg_frame windowed) value_col = Ok column ->
       Forall (fun v => v = None) column ->
       result = replicate (len (wg_frame windowed)) (Some 0).
Proof.
  intros H. split; [by apply (call_built_in_rows CountOperation _ args)|].
  destruct args as [|c [|? ?]]; simpl in H; try discriminate H.
  - destruct (columns (wg_frame windowed)) as [|first ?]; [discriminate|].
    apply count_column in H as [H _]. split; [assumption|]. by intros.
  - apply count_column in H as [H1 H2]. split; [assumption|].
    intros value_col column [= <-]. apply H2.
Qed.

Lemma count_is_never_null_witness :
  length [Some 0; Some 0; Some 0] = 3%nat
  /\ Forall (fun v => exists k, v = Some k /\ 0 <= k <= Z.of_nat 3)
       [Some 0; Some 0; Some 0]
  /\ forall value_col column,
       ["x"] = [value_col] ->
       getitem (mkDataFrame ["x"] [[None]; [None]; [None]]) value_col = Ok column ->
       Forall (fun v => v = None) column ->
       [Some 0; Some 0; Some 0] = replicate 3 (Some 0).
Proof.
  apply (count_is_never_null
           (mkWindowedGroup (mkDataFrame ["x"] [[None]; [None]; [None]])
              (RollingIndexer (mkIndexer (Some (-1)) (Some 1))))
           ["x"] [Some 0; Some 0; Some 0]).
  vm_compute. reflexivity.
Defined.














(** ** Errors of the operators *)

Lemma as_int64_error (cells : list Z) (e : exception) :
  np.as_int64 cells = Raise e -> e = OverflowError.
Proof. unfold np.as_int64. destruct (forallb _ _); congruence. Qed.

Lemma setslice_error (a : list Z) (lo hi : option Z) (v : Z) (e : exception) :
  np.setslice a lo hi v = Raise e -> e = OverflowError.
Proof. unfold np.setslice. destruct (np.fits_int64 v); congruence. Qed.

Lemma window_start_error (self : Indexer) (n : nat) (e : exception) :
  window_start self n = Raise e -> e = OverflowError.
Proof.
  unfold window_start. destruct (ix_start self) as [s|]; [|discriminate].
  unfold np.arange. destruct (np.as_int64 _) as [start|e'] eqn:Hstart; simpl.
  - destruct (s <? 0); [apply setslice_error|].
    destruct (0 <? s); [apply setslice_error | discriminate].
  - intros [= <-]. by eapply as_int64_error.
Qed.

Lemma window_end_error (self : Indexer) (n : nat) (e : exception) :
  window_end self n = Raise e -> e = OverflowError \/ e = AssertionError.
Proof.
  unfold window_end. destruct (ix_end self) as [u|].
  - unfold np.arange. destruct (np.as_int64 _) as [end_|e'] eqn:Hend; simpl.
    + destruct (0 <? u); [left; by eapply setslice_error|].
      destruct (u <? 0); [left; by eapply setslice_error|].
      intros [= <-]. by right.
    + intros [= <-]. left. by eapply as_int64_error.
  - unfold np.full. left. by eapply as_int64_error.
Qed.

Lemma get_window_bounds_error (self : Indexer) (n : nat) (e : exception) :
  get_window_bounds self n = Raise e -> e = OverflowError \/ e = AssertionError.
Proof.
  unfold get_window_bounds.
  destruct (window_start self n) as [start|e1] eqn:Hstart; simpl.
  - destruct (window_end self n) as [end_|e2] eqn:Hend; simpl; [discriminate|].
    intros [= <-]. by eapply window_end_error.
  - intros [= <-]. left. by eapply window_start_error.
Qed.

Lemma window_bounds_error (w : Window) (n : nat) (e : exception) :
  window_bounds w n = Raise e -> e = OverflowError \/ e = AssertionError.
Proof. destruct w; simpl; try discriminate. apply get_window_bounds_error. Qed.

Lemma mapM_Raise_inv {A B : Type} (f : A -> result B) (l : list A) (e : exception) :
  mapM f l = Raise e -> exists x, x ∈ l /\ f x = Raise e.
Proof.
  induction l as [|x l IH]; [discriminate|]. simpl.
  destruct (f x) as [y|e1] eqn:Hx; simpl.
  - destruct (mapM f l) as [k|e2]; simpl; [discriminate|].
    intros [= <-]. destruct IH as (x' & Hin & Hx'); [reflexivity|].
    exists x'. split; [by right | assumption].
  - intros [= <-]. exists x. split; [by left | assumption].
Qed.

Lemma getitem_error (table : DataFrame) (name : string) (e : exception) :
  getitem table name = Raise e -> e = KeyError name /\ name ∉ columns table.
Proof.
  unfold getitem, column_index.
  destruct (index_of name (columns table)) as [j|] eqn:Hj; simpl; [discriminate|].
  intros [= <-]. split; [reflexivity|]. by apply index_of_None.
Qed.

Lemma aggregate_column_error (windowed : WindowedGroup) (value_col : string)
    (f : list value -> result value) (e : exception) :
  aggregate_column windowed value_col f = Raise e ->
  e = KeyError value_col \/ e = OverflowError \/ e = AssertionError
  \/ exists cells, f cells = Raise e.
Proof.
  unfold aggregate_column.
  destruct (getitem (wg_frame windowed) value_col) as [column|e1] eqn:Hcol; simpl.
  - unfold frames_of.
    destruct (window_bounds _ _) as [bounds|e2] eqn:Hb; simpl.
    + intros H. apply mapM_Raise_inv in H as (cells & _ & H). eauto.
    + intros [= <-]. apply window_bounds_error in Hb. tauto.
  - intros [= <-]. apply getitem_error in Hcol as [-> _]. by left.
Qed.

Lemma iloc_first_error (cells : list value) (e : exception) :
  iloc_first cells = Raise e -> e = IndexError.
Proof. unfold iloc_first. destruct (head cells); simpl; congruence. Qed.

Lemma iloc_last_error (cells : list value) (e : exception) :
  iloc_last cells = Raise e -> e = IndexError.
Proof. unfold iloc_last. destruct (last cells); simpl; congruence. Qed.

Lemma call_built_in_unary (f : Operation) :
  built_in f = true ->
  exists g, (forall cells e, g cells = Raise e -> e = IndexError)
    /\ forall windowed value_col,
         call f windowed [value_col] = aggregate_column windowed value_col g.
Proof.
  destruct f; try discriminate; intros _;
    (eexists; split; [|intros; reflexivity]);
    try discriminate; [apply iloc_first_error | apply iloc_last_error].
Qed.

(** X10.  The errors of a built-in operator are told apart by their kind: a
    call raises [TypeError] exactly when the number of operand columns is
    not one the operator takes (one, or none as well for count); every
    other failure is the [KeyError] of a missing operand column, the
    [IndexError] of an empty frame or of a table without columns, or the
    [OverflowError] or [AssertionError] of the frame computation. *)
Theorem built_in_operator_errors (f : Operation) (windowed : WindowedGroup)
    (args : list string) :
  built_in f = true ->
  (call f windowed args = Raise TypeError
   <-> takes_operands f (length args) = false)
  /\ forall e,
       call f windowed args = Raise e ->
       e = TypeError \/ (exists value_col, e = KeyError value_col)
       \/ e = IndexError \/ e = OverflowError \/ e = AssertionError.
Proof.
  intros Hf.
  assert (forall value_col g e,
             (forall cells e, g cells = Raise e -> e = IndexError) ->
             aggregate_column windowed value_col g = Raise e ->
             e <> TypeError
             /\ ((exists value_col, e = KeyError value_col)
                 \/ e = IndexError \/ e = OverflowError \/ e = AssertionError))
    as Hagg.
  { intros value_col g e Hg H.
    apply aggregate_column_error in H as [->|[->|[->|[cells H]]]];
      try (split; [discriminate | eauto]).
    apply Hg in H as ->. split; [discriminate | eauto]. }
  destruct args as [|value_col [|more args]].
  - destruct f; try discriminate Hf; simpl;
      try (split; [done | intros e [= <-]; by left]).
    destruct (columns (wg_frame windowed)) as [|first cols] eqn:Hcols.
    + split; [done | intros e [= <-]; eauto].
    + split.
      * split; [|done]. intros H. by eapply Hagg in H as [H _].
      * intros e H. eapply Hagg in H as [_ H]; [tauto | discriminate].
  - destruct (call_built_in_unary f Hf) as (g & Hg & ->).
    split.
    + split.
      * intros H. by eapply Hagg in H as [H _].
      * destruct f; done.
    + intros e H. eapply Hagg in H as [_ H]; [tauto | assumption].
  - destruct f; try discriminate Hf; simpl;
      (split; [done | intros e [= <-]; by left]).
Qed.

Lemma built_in_operator_errors_witness :
  (call SumOperation
     (mkWindowedGroup (mkDataFrame ["x"] [[Some 1]]) Expanding) ["x"; "x"]
   = Raise TypeError
   <-> takes_operands SumOperation (length ["x"; "x"]) = false)
  /\ forall e,
       call SumOperation
         (mkWindowedGroup (mkDataFrame ["x"] [[Some 1]]) Expanding) ["x"; "x"]
       = Raise e ->
       e = TypeError \/ (exists value_col, e = KeyError value_col)
       \/ e = IndexError \/ e = OverflowError \/ e = AssertionError.
Proof.
  apply (built_in_operator_errors SumOperation
           (mkWindowedGroup (mkDataFrame ["x"] [[Some 1]]) Expanding)
           ["x"; "x"]).
  reflexivity.
Defined.

Lemma window_end_assertion (self : Indexer) (n : nat) :
  window_end self n = Raise AssertionError -> ix_end self = Some 0.
Proof.
  unfold window_end. destruct (ix_end self) as [u|].
  - unfold np.arange. destruct (np.as_int64 _) as [end_|e'] eqn:Hend; simpl.
    + destruct (0 <? u) eqn:Hpos.
      { intros H. by apply setslice_error in H. }
      destruct (u <? 0) eqn:Hneg.
      { intros H. by apply setslice_error in H. }
      intros _. f_equal. lia.
    + intros [= ->]. by apply as_int64_error in Hend.
  - unfold np.full. intros H. by apply as_int64_error in H.
Qed.

(** X11.  [get_window_bounds] fails in two ways only: with
    [AssertionError], and then the upper offset is 0, or with
    [OverflowError] from an int64 array. *)
Theorem get_window_bounds_failures (self : Indexer) (n : nat) (e : exception) :
  get_window_bounds self n = Raise e ->
  (e = AssertionError /\ ix_end self = Some 0) \/ e = OverflowError.
Proof.
  unfold get_window_bounds.
  destruct (window_start self n) as [start|e1] eqn:Hstart; simpl.
  - destruct (window_end self n) as [end_|e2] eqn:Hend; simpl; [discriminate|].
    intros [= <-].
    destruct (window_end_error _ _ _ Hend) as [->| ->]; [by right|].
    left. split; [reflexivity|]. by eapply window_end_assertion.
  - intros [= <-]. right. by eapply window_start_error.
Qed.

Lemma get_window_bounds_failures_witness :
  (AssertionError = AssertionError
   /\ ix_end (mkIndexer (Some 1) (Some 0)) = Some 0)
  \/ AssertionError = OverflowError.
Proof.
  apply (get_window_bounds_failures (mkIndexer (Some 1) (Some 0)) 4).
  vm_compute. reflexivity.
Defined.

Lemma getitem_ok (table : DataFrame) (name : string) :
  name ∈ columns table -> exists column, getitem table name = Ok column.
Proof.
  intros Hin. unfold getitem, column_index.
  destruct (index_of name (columns table)) as [j|] eqn:Hj.
  - by eexists.
  - apply index_of_None in Hj. contradiction.
Qed.

(** X12.  A frame whose upper bound is the current row and whose lower
    bound is neither unbounded nor preceding (CURRENT ROW to CURRENT ROW,
    for one) reaches the guard of the indexer: on a partition with rows the
    first built-in aggregate ends [map_on_each_group] with
    [AssertionError]. *)
Theorem aggregate_up_to_current_row_needs_lower_before
    (partitioned_group : DataFrame) (sort_columns : list string)
    (sort_ascending sort_null_first : list bool)
    (lower_bound upper_bound : BoundDescription) (f : Operation)
    (new_column_name value_col : string) (operations : list operation_entry) :
  Forall (fun c => c ∈ columns partitioned_group) sort_columns ->
  value_col ∈ columns partitioned_group ->
  built_in f = true ->
  is_unbounded lower_bound = false ->
  is_preceding lower_bound = false ->
  upper_at_current_row upper_bound = true ->
  bound_scale lower_bound ->
  row_count_scale (Z.of_nat (len partitioned_group)) ->
  len partitioned_group <> 0%nat ->
  map_on_each_group partitioned_group sort_columns sort_ascending sort_null_first
    lower_bound upper_bound ((Some f, new_column_name, [value_col]) :: operations)
  = Raise AssertionError.
Proof.
  intros Hsort Hcol Hf Hu Hp Hup Hscale Hn _.
  destruct (sorted_partition _ _ sort_ascending sort_null_first Hsort)
    as (sorted & Hsorted & Hcols & Hrows).
  unfold map_on_each_group. rewrite Hsorted. simpl.
  rewrite select_window_general by (unfold fast_path_case; by rewrite Hu, Hp).
  simpl. destruct (call_built_in_unary f Hf) as (g & _ & ->).
  destruct (getitem_ok sorted value_col) as [column Hcolumn];
    [by rewrite Hcols|].
  unfold aggregate_column. simpl. rewrite Hcolumn. simpl.
  unfold frames_of. simpl. unfold general_indexer.
  rewrite (upper_at_current_row_signed _ Hup).
  rewrite get_window_bounds_zero; [reflexivity | by apply signed_offset_scale |].
  unfold len in *. by rewrite Hrows.
Qed.

Lemma aggregate_up_to_current_row_needs_lower_before_witness :
  map_on_each_group (column_table "x" [30; 10; 20]) ["x"] [true] [false]
    CURRENT_ROW CURRENT_ROW [(Some MaxOperation, "m", ["x"])]
  = Raise AssertionError.
Proof.
  apply (aggregate_up_to_current_row_needs_lower_before
           (column_table "x" [30; 10; 20]) ["x"] [true] [false]
           CURRENT_ROW CURRENT_ROW MaxOperation "m" "x" []);
    try reflexivity.
  - repeat constructor.
  - repeat constructor.
  - vm_compute. split; reflexivity.
  - discriminate.
Defined.

(** ** Further properties of bound resolution and of the operator lookup *)

(** X13.  An offset that is not a constant-pool reference is converted as
    it is: the description does not depend on the pool nor on the number of
    real columns. *)
Theorem to_bound_description_literal_ignores_pool
    (literal_int : RexNode -> result Z) (java_window : RexWindowBound)
    (constants constants' : list RexNode)
    (constant_count_offset constant_count_offset' : Z) :
  (forall index, getOffset java_window <> Some (RexInputRef index)) ->
  to_bound_description literal_int java_window constants constant_count_offset
  = to_bound_description literal_int java_window constants'
      constant_count_offset'.
Proof.
  intros Hliteral. unfold to_bound_description.
  destruct (getOffset java_window) as [[index| |]|]; try reflexivity.
  by destruct (Hliteral index).
Qed.

Lemma to_bound_description_literal_ignores_pool_witness :
  to_bound_description integer_literal_value
    (mkRexWindowBound (Some (RexLiteral (IntegerLiteral 2))) false true false false)
    two_constants 3
  = to_bound_description integer_literal_value
      (mkRexWindowBound (Some (RexLiteral (IntegerLiteral 2))) false true false false)
      [] 0.
Proof.
  apply (to_bound_description_literal_ignores_pool integer_literal_value
           (mkRexWindowBound (Some (RexLiteral (IntegerLiteral 2)))
              false true false false)).
  intros index. discriminate.
Defined.

Lemma OPERATION_MAPPING_built_in (operator_name : string) (f : Operation) :
  OPERATION_MAPPING !! operator_name = Some (Some f) -> built_in f = true.
Proof.
  unfold OPERATION_MAPPING. intros H.
  apply elem_of_list_to_map_2 in H.
  repeat (apply elem_of_cons in H as [H|H]; [by simplify_eq|]).
  by apply elem_of_nil in H.
Qed.

(** X14.  The built-in mapping is asked first: for a name it holds, the
    operation found is the built-in one whatever the user registered under
    that name, and it is never a user's function. *)
Theorem built_in_names_shadow_user_functions (context context' : Context)
    (operator_name : string) :
  is_Some (OPERATION_MAPPING !! operator_name) ->
  lookup_operation context operator_name
  = lookup_operation context' operator_name
  /\ forall f,
       lookup_operation context operator_name = Ok (Some f) ->
       built_in f = true.
Proof.
  intros [operation Hop]. unfold lookup_operation. rewrite Hop.
  split; [reflexivity|]. intros f [= ->].
  by eapply OPERATION_MAPPING_built_in.
Qed.

Lemma built_in_names_shadow_user_functions_witness :
  lookup_operation
    (mkContext {[ "sum" := UserFunction (fun _ _ => Raise TypeError) ]}) "sum"
  = lookup_operation no_functions "sum"
  /\ forall f,
       lookup_operation
         (mkContext {[ "sum" := UserFunction (fun _ _ => Raise TypeError) ]}) "sum"
       = Ok (Some f) ->
       built_in f = true.
Proof.
  apply (built_in_names_shadow_user_functions
           (mkContext {[ "sum" := UserFunction (fun _ _ => Raise TypeError) ]})
           no_functions "sum").
  vm_compute. by eexists.
Defined.

Lemma lower_ascii_idemp (c : ascii) : lower_ascii (lower_ascii c) = lower_ascii c.
Proof. destruct c as [[] [] [] [] [] [] [] []]; reflexivity. Qed.

Lemma ascii_lower_idemp (s : string) : ascii_lower (ascii_lower s) = ascii_lower s.
Proof.
  induction s as [|c s IH]; [reflexivity|].
  simpl. by rewrite lower_ascii_idemp, IH.
Qed.

(** X15.  Operator names are looked up in their lower-cased form only.
    [str.lower] leaves a string it returned as it is; so a user function
    registered under a name that lower-casing changes (a name with an
    upper-case letter, of whatever alphabet) is found by no aggregate call,
    however the call spells the name. *)
Theorem user_function_with_upper_case_name_is_never_found
    (str_lower : string -> string) (context : Context) (key : string)
    (g : Operation) (operator_name : string) :
  (forall s, str_lower (str_lower s) = str_lower s) ->
  str_lower key <> key ->
  lookup_operation (mkContext (<[key := g]> (functions context)))
    (str_lower operator_name)
  = lookup_operation context (str_lower operator_name).
Proof.
  intros Hidemp Hkey. unfold lookup_operation. simpl.
  rewrite lookup_insert_ne; [reflexivity|].
  intros ->. apply Hkey, Hidemp.
Qed.

Lemma user_function_with_upper_case_name_is_never_found_witness :
  lookup_operation
    (mkContext (<["Median" := UserFunction (fun _ _ => Ok [])]>
                  (functions no_functions)))
    (ascii_lower "Median")
  = lookup_operation no_functions (ascii_lower "Median").
Proof.
  apply (user_function_with_upper_case_name_is_never_found ascii_lower
           no_functions "Median" (UserFunction (fun _ _ => Ok [])) "Median").
  - exact ascii_lower_idemp.
  - vm_compute. discriminate.
Defined.

Lemma py_getitem_error {A : Type} (l : list A) (i : Z) (e : exception) :
  py_getitem l i = Raise e -> e = IndexError.
Proof.
  unfold py_getitem.
  destruct (_ && _); [|congruence].
  destruct (l !! _); simpl; congruence.
Qed.

Lemma get_backend_by_frontend_index_Ok (cc : ColumnContainer) (index : Z)
    (backend : string) :
  get_backend_by_frontend_index cc index = Ok backend ->
  exists frontend,
    frontend ∈ cc_columns cc /\ cc_mapping cc !! frontend = Some backend.
Proof.
  unfold get_backend_by_frontend_index. intros H.
  apply result_bind_Ok in H as (frontend & Hfront & H).
  exists frontend. split.
  - unfold py_getitem in Hfront.
    destruct (_ && _); [|discriminate].
    destruct (cc_columns cc !! _) as [x|] eqn:Hx; simpl in Hfront; [|discriminate].
    injection Hfront as ->. by eapply list_elem_of_lookup_2.
  - destruct (cc_mapping cc !! frontend); simpl in H; congruence.
Qed.

Lemma get_backend_by_frontend_index_error (cc : ColumnContainer) (index : Z)
    (e : exception) :
  get_backend_by_frontend_index cc index = Raise e ->
  e = IndexError \/ exists frontend, e = KeyError frontend.
Proof.
  unfold get_backend_by_frontend_index.
  destruct (py_getitem (cc_columns cc) index) as [frontend|e1] eqn:Hfront; simpl.
  - destruct (cc_mapping cc !! frontend); simpl; [discriminate|].
    intros [= <-]. eauto.
  - intros [= <-]. left. by eapply py_getitem_error.
Qed.

(** X16.  [_extract_ordering] returns three lists with one entry per order
    key, the sort columns being columns the container maps a name of the
    row type to; it fails only when an order key refers to no column: with
    [IndexError] or [KeyError]. *)
Theorem extract_ordering_shape (window : WindowGroup) (cc : ColumnContainer) :
  (forall sort_columns sort_ascending sort_null_first,
      _extract_ordering window cc
      = Ok (sort_columns, sort_ascending, sort_null_first) ->
      length sort_columns = length (orderKeys window)
      /\ length sort_ascending = length (orderKeys window)
      /\ length sort_null_first = length (orderKeys window)
      /\ Forall (fun c => exists frontend,
                     frontend ∈ cc_columns cc
                     /\ cc_mapping cc !! frontend = Some c) sort_columns)
  /\ (forall e,
        _extract_ordering window cc = Raise e ->
        e = IndexError \/ exists frontend, e = KeyError frontend).
Proof.
  unfold _extract_ordering. split.
  - intros sort_columns sort_ascending sort_null_first H.
    apply result_bind_Ok in H as (cols & Hcols & [= <- <- <-]).
    rewrite !length_fmap. split; [|split; [reflexivity|split; [reflexivity|]]].
    + apply mapM_length in Hcols. by rewrite length_fmap in Hcols.
    + apply mapM_result_Ok in Hcols.
      eapply Forall2_Forall_r; [exact Hcols|].
      apply Forall_forall. intros index _ c Hc.
      by eapply get_backend_by_frontend_index_Ok.
  - intros e H.
    destruct (mapM _ _) as [cols|e1] eqn:Hcols; simpl in H; [discriminate|].
    injection H as <-. apply mapM_Raise_inv in Hcols as (index & _ & H).
    by eapply get_backend_by_frontend_index_error.
Qed.

Lemma extract_ordering_shape_witness :
  length ["x"] = length (orderKeys sample_window)
  /\ length [false] = length (orderKeys sample_window)
  /\ length [false] = length (orderKeys sample_window)
  /\ Forall (fun c => exists frontend,
                 frontend ∈ cc_columns (column_container sample_table)
                 /\ cc_mapping (column_container sample_table) !! frontend = Some c)
       ["x"].
Proof.
  pose proof (extract_ordering_shape sample_window (column_container sample_table))
    as [H _].
  apply (H ["x"] [false] [false]). reflexivity.
Defined.

(** X17.  The choice of the window fails in one situation only: the lower
    bound is preceding and not unbounded, the upper bound is at the current
    row, and the lower offset is missing ([TypeError], from
    [lower_bound.offset + 1]) or below -1 ([ValueError], a negative rolling
    window).  Every other pair of bounds gets a window. *)
Theorem select_window_failures (lower_bound upper_bound : BoundDescription)
    (e : exception) :
  select_window lower_bound upper_bound = Raise e <->
  is_unbounded lower_bound = false
  /\ is_preceding lower_bound = true
  /\ upper_at_current_row upper_bound = true
  /\ ((offset lower_bound = None /\ e = TypeError)
      \/ (exists k, offset lower_bound = Some k /\ k < -1 /\ e = ValueError)).
Proof.
  unfold select_window, upper_at_current_row.
  destruct (is_unbounded lower_bound), (is_preceding lower_bound),
    (is_current_row upper_bound || offset_eq_0 upper_bound); simpl;
    try (split; [discriminate | by intros (? & ? & ? & _)]).
  destruct (offset lower_bound) as [k|].
  - destruct (k + 1 <? 0) eqn:Hk.
    + split.
      * intros [= <-]. repeat split. right. exists k. repeat split. lia.
      * intros (_ & _ & _ & [[? _]|(k' & [= <-] & _ & ->)]); [discriminate|].
        reflexivity.
    + split; [discriminate|].
      intros (_ & _ & _ & [[? _]|(k' & [= <-] & Hk' & _)]); [discriminate|]. lia.
  - split.
    + intros [= <-]. repeat split. by left.
    + intros (_ & _ & _ & [[_ ->]|(k' & ? & _)]); [reflexivity | discriminate].
Qed.

Lemma select_window_failures_witness :
  select_window (mkBound false true false false None) CURRENT_ROW
  = Raise TypeError.
Proof.
  apply (select_window_failures (mkBound false true false false None)
           CURRENT_ROW TypeError).
  repeat split. by left.
Defined.

(** * Further properties of the driver *)

(** ** Grouping on a constant column *)

Lemma column_constant_assign_column (df : DataFrame) (name : string)
    (values : list value) (v : value) :
  wf_table df -> name ∉ columns df ->
  length values = len df -> Forall (fun x => x = v) values ->
  column_constant (assign_column df name values) name v.
Proof.
  intros Hwf Hfresh Hlen Hvalues. unfold assign_column.
  rewrite (proj2 (index_of_None _ _) Hfresh). simpl.
  exists (length (columns df)). split; [by apply index_of_app_fresh|]. simpl.
  apply Forall_forall. intros row' Hrow'.
  apply elem_of_lookup_imap in Hrow' as (i & row & -> & Hrow).
  apply lookup_lt_Some in Hrow as Hi.
  unfold wf_table in Hwf. rewrite Forall_forall in Hwf.
  pose proof (Hwf row (list_elem_of_lookup_2 _ _ _ Hrow)) as Hl.
  unfold cell. rewrite <- Hl, lookup_app_r, Nat.sub_diag by lia. simpl.
  destruct (values !! i) as [x|] eqn:Hx.
  - simpl. rewrite Forall_forall in Hvalues.
    apply Hvalues. by eapply list_elem_of_lookup_2.
  - apply lookup_ge_None in Hx. unfold len in Hlen. lia.
Qed.




Lemma run_partitions_count (cols : list string)
    (f : DataFrame -> result DataFrame)
    (groups : list (list value * list (list value))) :
  forall w results w',
    run (mapM (fun g : list value * list (list value) =>
                 _ ← partition_started; lift (f (mkDataFrame cols g.2)))
           groups) w = (Ok results, w') ->
    partitions_run w' = (partitions_run w + length groups)%nat.
Proof.
  induction groups as [|g groups IH]; intros w results w'.
  - cbn. intros [= <- <-]. lia.
  - change (mapM ?h (g :: groups))
      with (y ← h g; k ← mapM h groups; mret (y :: k)).
    intros H. apply run_bind_Ok in H as (res & w1 & Hres & H).
    apply run_bind_Ok in H as (results' & w2 & Hrest & H).
    cbn in H. injection H as <- <-.
    apply run_bind_Ok in Hres as ([] & w0 & Hstart & Hres).
    apply run_lift_Ok in Hres as [_ ->].
    cbn in Hstart. injection Hstart as <-.
    apply IH in Hrest. rewrite Hrest. simpl. lia.
Qed.


Section DriverFurtherProperties.

Variable literal_int : RexNode -> result Z.
Variable uuid4 : nat -> string.
Variable str_lower : string -> string.
Variable RexConverter_convert : RexNode -> DataContainer -> Context -> list value.
Variable get_groupby_with_nulls_cols :
  DataFrame -> list (list value) -> list (list value).

Hypothesis uuid4_inj : Inj (=) (=) uuid4.

Lemma extract_operations_loop_calls agg_calls dc context :
  forall df1 operations w result w',
    run (extract_operations_loop uuid4 str_lower RexConverter_convert agg_calls df1 dc
           context operations) w = (Ok result, w') ->
    exists new_operations,
      result.1 = operations ++ new_operations
      /\ Forall2 (fun agg_call (op : operation_entry) =>
                    lookup_operation context (str_lower (getName agg_call)) = Ok op.1.1
                    /\ length op.2 = length (getOperands agg_call))
           agg_calls new_operations.
Proof.
  induction agg_calls as [|agg_call agg_calls IH];
    intros df1 operations w result w'.
  - cbn [extract_operations_loop run mret exec_ret]. intros [= <- <-].
    exists []. simpl. by rewrite app_nil_r.
  - cbn [extract_operations_loop]. rewrite run_bind. unfold lift at 1. cbn [run].
    destruct (lookup_operation context (str_lower (getName agg_call)))
      as [operation|e] eqn:Hop; [|discriminate].
    rewrite run_bind.
    set (cols := (fun o => RexConverter_convert o dc context) <$> getOperands agg_call).
    destruct (name_columns_run uuid4 uuid4_inj df1 cols [] w w
                (drawn_nil _ _) ltac:(lia))
      as (names & w1 & -> & Hlen & _).
    simpl app. rewrite run_bind, fst_zip by lia.
    destruct (drawn_one uuid4 uuid4_inj (assign df1 (zip names cols)) w1)
      as (name & w2 & -> & _).
    intros Hrun. apply IH in Hrun as (new_operations & Hres & Hcalls).
    exists ((operation, name, names) :: new_operations).
    split; [by rewrite Hres, <- app_assoc|].
    constructor; [|assumption]. simpl. split; [assumption|].
    rewrite Hlen. unfold cols. by rewrite length_fmap.
Qed.

(** X18.  [_extract_operations] returns one operation per aggregate call,
    in the order of the calls: each pairs what the lookup of the
    lower-cased operator name gives with as many operand columns as the
    call has operands.  The operand columns and the new columns are pairwise
    distinct names, none of them a column of the table before, and the
    table returned is the one given with the operand columns appended. *)
Theorem extract_operations_in_call_order (window : WindowGroup) (df0 : DataFrame)
    (dc : DataContainer) (context : Context) (w : World)
    (result : list operation_entry * DataFrame) (w' : World) :
  run (_extract_operations uuid4 str_lower RexConverter_convert window df0 dc context) w
  = (Ok result, w') ->
  Forall2 (fun agg_call (op : operation_entry) =>
             lookup_operation context (str_lower (getName agg_call)) = Ok op.1.1
             /\ length op.2 = length (getOperands agg_call))
    (aggCalls window) result.1
  /\ NoDup (concat ((fun op : operation_entry => op.2) <$> result.1)
            ++ newly_created_columns_of result.1)
  /\ Forall (fun name => name ∉ columns df0)
       (concat ((fun op : operation_entry => op.2) <$> result.1)
        ++ newly_created_columns_of result.1)
  /\ extends df0 result.2 (concat ((fun op : operation_entry => op.2) <$> result.1)).
Proof.
  unfold _extract_operations. intros H.
  pose proof (extract_operations_loop_calls _ _ _ _ _ _ _ _ H)
    as (new_operations & Hres & Hcalls).
  apply (extract_operations_loop_extends uuid4 str_lower RexConverter_convert
           get_groupby_with_nulls_cols uuid4_inj) in H
    as (new_operations' & names & Hres' & _ & Hext & Hd & Hperm & Hfresh & _).
  simpl in Hres, Hres'.
  assert (new_operations' = new_operations) as -> by congruence.
  rewrite Hres. split; [assumption|]. rewrite <- Hperm.
  split; [by eapply drawn_NoDup|]. split; assumption.
Qed.

(** X19.  The bounds of a group are resolved before any partition is
    formed: when the extraction went through and the lower bound, or else
    the upper bound, does not resolve, [_apply_window] ends with that error
    and [map_on_each_group] has been given no partition. *)
Theorem bound_failure_before_any_partition (window : WindowGroup)
    (constants : list RexNode) (constant_count_offset : Z) (dc : DataContainer)
    (field_names : list string) (context : Context) (w w1 : World)
    (extraction : Extraction) (e : exception) :
  run (extract_group uuid4 str_lower RexConverter_convert get_groupby_with_nulls_cols
         window dc context) w = (Ok extraction, w1) ->
  to_bound_description literal_int (lowerBound window) constants
    constant_count_offset = Raise e
  \/ ((exists lower_bound,
         to_bound_description literal_int (lowerBound window) constants
           constant_count_offset = Ok lower_bound)
      /\ to_bound_description literal_int (upperBound window) constants
           constant_count_offset = Raise e) ->
  run (_apply_window literal_int uuid4 str_lower RexConverter_convert
         get_groupby_with_nulls_cols window constants constant_count_offset dc
         field_names context) w = (Raise e, w1)
  /\ partitions_run w1 = partitions_run w.
Proof.
  intros Hex Hbound. split.
  - unfold _apply_window. rewrite run_bind, Hex. unfold apply_extracted.
    rewrite run_bind. unfold lift at 1. cbn [run].
    destruct Hbound as [-> | [[lower_bound ->] Hupper]]; [reflexivity|].
    rewrite run_bind. unfold lift at 1. cbn [run]. by rewrite Hupper.
  - pose proof (quiet_extract_group uuid4 str_lower RexConverter_convert
                  get_groupby_with_nulls_cols window dc context w) as Hq.
    by rewrite Hex in Hq.
Qed.



End DriverFurtherProperties.

(** ** The driver on the sample table, continued *)

Lemma extract_operations_in_call_order_witness :
  exists result w',
    run (_extract_operations numbered_uuid ascii_lower input_ref_column sample_window
           (df sample_table) sample_table no_functions) initial_world
    = (Ok result, w')
    /\ Forall2 (fun agg_call (op : operation_entry) =>
                  lookup_operation no_functions (ascii_lower (getName agg_call))
                  = Ok op.1.1
                  /\ length op.2 = length (getOperands agg_call))
         (aggCalls sample_window) result.1
    /\ NoDup (concat ((fun op : operation_entry => op.2) <$> result.1)
              ++ newly_created_columns_of result.1)
    /\ Forall (fun name => name ∉ columns (df sample_table))
         (concat ((fun op : operation_entry => op.2) <$> result.1)
          ++ newly_created_columns_of result.1)
    /\ extends (df sample_table) result.2
         (concat ((fun op : operation_entry => op.2) <$> result.1)).
Proof.
  eexists _, _. split; [vm_compute; reflexivity|].
  eapply (extract_operations_in_call_order numbered_uuid ascii_lower input_ref_column
            null_safe_group_columns numbered_uuid_inj sample_window
            (df sample_table) sample_table no_functions initial_world).
  vm_compute. reflexivity.
Defined.

Lemma bound_failure_before_any_partition_witness :
  exists w1,
    run (_apply_window integer_literal_value numbered_uuid ascii_lower input_ref_column
           null_safe_group_columns unresolved_bound_window [] 2 sample_table
           ["g"; "x"; "s"] no_functions) initial_world
    = (Raise IndexError, w1)
    /\ partitions_run w1 = partitions_run initial_world.
Proof.
  eexists.
  eapply (bound_failure_before_any_partition integer_literal_value
            numbered_uuid ascii_lower input_ref_column null_safe_group_columns
            unresolved_bound_window [] 2 sample_table ["g"; "x"; "s"]
            no_functions initial_world).
  - vm_compute. reflexivity.
  - left. vm_compute. reflexivity.
Defined.


(** ** The loop of [convert] *)

Section ConvertProperties.

Variable literal_int : RexNode -> result Z.
Variable uuid4 : nat -> string.
Variable str_lower : string -> string.
Variable RexConverter_convert : RexNode -> DataContainer -> Context -> list value.
Variable get_groupby_with_nulls_cols :
  DataFrame -> list (list value) -> list (list value).
Variable fix_column_to_row_type : ColumnContainer -> list string -> ColumnContainer.
Variable fix_dtype_to_row_type : DataContainer -> list string -> DataContainer.

Hypothesis uuid4_inj : Inj (=) (=) uuid4.

Hypothesis group_columns_without_nulls : forall df cols,
  Forall (fun col => length col = len df) cols ->
  Forall (fun col => length col = len df /\ Forall is_Some col)
    (get_groupby_with_nulls_cols df cols).

(** One group: the table that comes back is the input with one new column
    per aggregate call, its rows those of the input. *)
Lemma apply_window_rows (window : WindowGroup) (constants : list RexNode)
    (constant_count_offset : Z) (dc : DataContainer) (field_names : list string)
    (context : Context) (w : World) (dc' : DataContainer) (w' : World) :
  wf_table (df dc) ->
  run (_apply_window literal_int uuid4 str_lower RexConverter_convert
         get_groupby_with_nulls_cols window constants constant_count_offset dc
         field_names context) w = (Ok dc', w') ->
  exists new_columns,
    length new_columns = length (aggCalls window)
    /\ columns (df dc') = columns (df dc) ++ new_columns
    /\ wf_table (df dc')
    /\ take (length (columns (df dc))) <$> rows (df dc') ≡ₚ rows (df dc).
Proof.
  intros Hwf H. unfold _apply_window in H.
  apply run_bind_Ok in H as (extraction & w1 & Hex & H).
  apply (extract_group_extends uuid4 str_lower RexConverter_convert
           get_groupby_with_nulls_cols uuid4_inj group_columns_without_nulls)
    in Hex as (Hkeys & Hext & Hnodup & Hfresh & Hlen); [|assumption].
  set (T := temporary_columns_of (ex_group_columns extraction)
              (ex_operations extraction)) in *.
  set (N := newly_created_columns_of (ex_operations extraction)) in *.
  exists N.
  unfold apply_extracted in H.
  apply run_bind_Ok in H as (lower_bound & w2 & _ & H).
  apply run_bind_Ok in H as (upper_bound & w3 & _ & H).
  apply run_bind_Ok in H as (df1 & w4 & Hgroup & H).
  apply run_bind_Ok in H as (df2 & w5 & Hdrop & H).
  apply run_lift_Ok in Hdrop as [Hdrop _].
  apply run_bind_Ok in H as (cc & w6 & _ & H).
  cbn in H. injection H as <- <-. simpl.
  fold T N in Hgroup, Hdrop.
  apply NoDup_app in Hnodup as (HnodupT & Hdisj & HnodupN).
  apply Forall_app in Hfresh as [HfreshT HfreshN].
  destruct Hext as [Hcols Hrows].
  eapply (groupby_apply_rows (row_extends (length N))) in Hgroup
    as (Hcols1 & perm & Hperm & Hrel); [|exact Hkeys|].
  2:{ intros pg result Hpg Hrun.
      apply map_on_each_group_extends in Hrun as (sorted & Hs & _ & Hr);
        [by exists sorted | assumption |].
      rewrite Hpg, Hcols. apply Forall_forall. intros c Hc.
      rewrite not_elem_of_app. split.
      - rewrite Forall_forall in HfreshN. by apply HfreshN.
      - intros HcT. by apply (Hdisj c HcT). }
  assert (columns df1 = columns (df dc) ++ T ++ N) as Hcols1'.
  { rewrite Hcols1.
    pose proof (assign_fresh (mkDataFrame (columns (ex_df extraction)) [])
                  ((fun col => (col, [])) <$> N)) as [Hm _].
    - by rewrite fst_pair_fmap.
    - rewrite fst_pair_fmap. simpl. rewrite Hcols. apply Forall_forall.
      intros c Hc. rewrite not_elem_of_app. split.
      + rewrite Forall_forall in HfreshN. by apply HfreshN.
      + intros HcT. by apply (Hdisj c HcT).
    - rewrite Hm, fst_pair_fmap. simpl. by rewrite Hcols, <- app_assoc. }
  assert (Forall (fun p => exists r0 tv, p = r0 ++ tv
                           /\ length r0 = length (columns (df dc))
                           /\ length tv = length T) perm) as Hshape.
  { rewrite Hperm. unfold wf_table in Hwf.
    eapply Forall2_Forall_r; [exact Hrows|].
    eapply Forall_impl; [exact Hwf|]. simpl.
    intros r0 Hr0 p (tv & -> & Htv). by exists r0, tv. }
  pose proof (Forall2_with_left _ _ _ _ Hrel Hshape) as Hrel'.
  eapply drop_columns_middle in Hdrop as [Hcols2 Hrows2];
    [| exact Hcols1' | | |].
  2:{ apply Forall_forall. intros c Hc HcT.
      rewrite Forall_forall in HfreshT. by apply (HfreshT c HcT). }
  2:{ apply Forall_forall. intros c Hc HcT. by apply (Hdisj c HcT). }
  2:{ eapply Forall2_Forall_r; [exact Hrel'|]. apply Forall_forall.
      intros p _ row [(nv & -> & Hnv) (r0 & tv & -> & Hr0 & Htv)].
      exists r0, tv, nv. by rewrite <- app_assoc. }
  split; [unfold N, newly_created_columns_of; by rewrite length_fmap|].
  split; [assumption|].
  assert (take (length (columns (df dc))) <$> rows df2
          = take (length (columns (df dc))) <$> rows df1) as E1.
  { symmetry. apply Forall2_fmap_eq.
    eapply Forall2_impl; [exact Hrows2|]. simpl.
    intros row row' (r0 & tv & nv & -> & -> & Hr0 & _ & _).
    by rewrite !take_app_length' by done. }
  assert (take (length (columns (df dc))) <$> rows df1
          = take (length (columns (df dc))) <$> perm) as E2.
  { symmetry. apply Forall2_fmap_eq.
    eapply Forall2_impl; [exact Hrel'|]. simpl.
    intros p row [(nv & -> & _) (r0 & tv & -> & Hr0 & _)].
    by rewrite <- app_assoc, !take_app_length' by done. }
  assert (take (length (columns (df dc))) <$> rows (ex_df extraction)
          = rows (df dc)) as E3.
  { rewrite <- (list_fmap_id (rows (df dc))). symmetry. apply Forall2_fmap_eq.
    unfold wf_table in Hwf.
    eapply Forall2_impl; [exact (Forall2_with_left _ _ _ _ Hrows Hwf)|]. simpl.
    intros r0 p [(tv & -> & _) Hr0]. by rewrite take_app_length' by done. }
  split; [|by rewrite E1, E2, Hperm, E3].
  unfold wf_table. rewrite Hcols2.
  eapply Forall2_Forall_r; [exact Hrows2|]. apply Forall_forall.
  intros row _ row' (r0 & tv & nv & _ & -> & Hr0 & _ & Hnv).
  rewrite !length_app. lia.
Qed.

Lemma apply_windows_rows (groups : list WindowGroup) (constants : list RexNode)
    (constant_count_offset : Z) (field_names : list string) (context : Context) :
  forall (dc : DataContainer) (w : World) (dc' : DataContainer) (w' : World),
    wf_table (df dc) ->
    run (apply_windows literal_int uuid4 str_lower RexConverter_convert
           get_groupby_with_nulls_cols groups constants constant_count_offset
           dc field_names context) w = (Ok dc', w') ->
    exists new_columns,
      length new_columns
      = sum_list ((fun window => length (aggCalls window)) <$> groups)
      /\ columns (df dc') = columns (df dc) ++ new_columns
      /\ wf_table (df dc')
      /\ take (length (columns (df dc))) <$> rows (df dc') ≡ₚ rows (df dc).
Proof.
  induction groups as [|window groups IH]; intros dc w dc' w' Hwf H.
  - cbn in H. injection H as <- <-. exists []. rewrite app_nil_r.
    split; [reflexivity|]. split; [reflexivity|]. split; [assumption|].
    replace (take (length (columns (df dc))) <$> rows (df dc))
      with (rows (df dc)); [reflexivity|].
    rewrite <- (list_fmap_id (rows (df dc))) at 1.
    apply list_fmap_ext. intros i row Hrow. simpl.
    unfold wf_table in Hwf. rewrite Forall_forall in Hwf.
    rewrite <- (Hwf row) by (by eapply list_elem_of_lookup_2).
    symmetry. apply firstn_all.
  - cbn [apply_windows] in H.
    apply run_bind_Ok in H as (dc1 & w1 & Hfirst & Hrest).
    apply apply_window_rows in Hfirst as (N1 & Hlen1 & Hcols1 & Hwf1 & Hperm1);
      [|assumption].
    apply IH in Hrest as (N2 & Hlen2 & Hcols2 & Hwf2 & Hperm2); [|assumption].
    exists (N1 ++ N2).
    split; [rewrite length_app, Hlen1, Hlen2; reflexivity|].
    split; [by rewrite Hcols2, Hcols1, app_assoc|].
    split; [assumption|].
    rewrite <- Hperm1, <- Hperm2, <- list_fmap_compose.
    replace (take (length (columns (df dc))) <$> rows (df dc'))
      with ((take (length (columns (df dc))) ∘ take (length (columns (df dc1))))
              <$> rows (df dc')); [reflexivity|].
    apply list_fmap_ext. intros i row _. simpl.
    rewrite take_take, Hcols1, length_app. f_equal. lia.
Qed.

(** X21.  [convert] keeps the rows through all the window groups: whenever
    it returns, what it returns is the schema-fixed form of a container
    whose table holds the input columns followed by one new column per
    aggregate call of every group, and whose rows, cut to the input
    columns, are the input rows, each exactly once. *)
Theorem convert_keeps_rows (rel : DaskWindow) (dc : DataContainer)
    (context : Context) (w : World) (dc' : DataContainer) (w' : World) :
  wf_table (df dc) ->
  run (convert literal_int uuid4 str_lower RexConverter_convert
         get_groupby_with_nulls_cols fix_column_to_row_type
         fix_dtype_to_row_type rel dc context) w = (Ok dc', w') ->
  exists windowed new_columns,
    dc' = fix_dtype_to_row_type
            (mkDataContainer (df windowed)
               (fix_column_to_row_type (column_container windowed)
                  (getFieldNames rel)))
            (getFieldNames rel)
    /\ length new_columns
       = sum_list ((fun window => length (aggCalls window)) <$> getGroups rel)
    /\ columns (df windowed) = columns (df dc) ++ new_columns
    /\ len (df windowed) = len (df dc)
    /\ take (length (columns (df dc))) <$> rows (df windowed) ≡ₚ rows (df dc).
Proof.
  intros Hwf H. unfold convert in H.
  apply run_bind_Ok in H as (windowed & w1 & H & Hfix).
  cbn in Hfix. injection Hfix as <- <-.
  apply apply_windows_rows in H as (N & Hlen & Hcols & _ & Hperm); [|assumption].
  exists windowed, N. split; [reflexivity|].
  split; [assumption|]. split; [assumption|]. split; [|assumption].
  unfold len. apply Permutation_length in Hperm.
  by rewrite length_fmap in Hperm.
Qed.

End ConvertProperties.

Lemma convert_keeps_rows_witness :
  exists dc' w',
    run (convert integer_literal_value numbered_uuid ascii_lower input_ref_column
           null_safe_group_columns keep_columns keep_dtypes sample_rel
           sample_table no_functions) initial_world = (Ok dc', w')
    /\ exists windowed new_columns,
         dc' = keep_dtypes
                 (mkDataContainer (df windowed)
                    (keep_columns (column_container windowed)
                       (getFieldNames sample_rel)))
                 (getFieldNames sample_rel)
         /\ length new_columns
            = sum_list ((fun window => length (aggCalls window))
                          <$> getGroups sample_rel)
         /\ columns (df windowed) = columns (df sample_table) ++ new_columns
         /\ len (df windowed) = len (df sample_table)
         /\ take (length (columns (df sample_table))) <$> rows (df windowed)
            ≡ₚ rows (df sample_table).
Proof.
  eexists _, _. split; [vm_compute; reflexivity|].
  eapply (convert_keeps_rows integer_literal_value numbered_uuid ascii_lower
            input_ref_column null_safe_group_columns keep_columns keep_dtypes
            numbered_uuid_inj null_safe_group_columns_without_nulls sample_rel
            sample_table no_functions initial_world).
  - repeat constructor.
  - vm_compute. reflexivity.
Defined.

Example sample_rel_run :
  df <$> (run (convert integer_literal_value numbered_uuid ascii_lower input_ref_column
                 null_safe_group_columns keep_columns keep_dtypes sample_rel
                 sample_table no_functions) initial_world).1
  = Ok (mkDataFrame ["g"; "x"; "tmp3"; "tmp4"; "tmp7"]
          [[Some 1; Some 30; Some 30; Some 1; Some 30];
           [Some 1; Some 10; Some 40; Some 2; Some 40];
           [Some 2; Some 20; Some 20; Some 1; Some 60];
           [None; Some 40; Some 40; Some 1; Some 100]]).
Proof. vm_compute. reflexivity. Qed.

(** ** Registering the new columns *)

(** X22.  When the names of the container are the first names of the row
    type, the row type has no name twice and has a name left for every new
    column, the loop of lines 332-335 registers the new columns under the
    next names of the row type, in order: the container's names become the
    longer prefix of the row type, the i-th new column is what the i-th
    next name stands for, and the names registered before stand for what
    they stood for. *)
Theorem register_columns_follow_row_type (field_names newly_created_columns : list string) :
  forall cc : ColumnContainer,
    NoDup field_names ->
    cc_columns cc = take (length (cc_columns cc)) field_names ->
    (length (cc_columns cc) + length newly_created_columns <= length field_names)%nat ->
    exists cc',
      register_columns cc field_names newly_created_columns = Ok cc'
      /\ cc_columns cc'
         = take (length (cc_columns cc) + length newly_created_columns) field_names
      /\ (forall i c,
            newly_created_columns !! i = Some c ->
            exists field_name,
              field_names !! (length (cc_columns cc) + i)%nat = Some field_name
              /\ cc_mapping cc' !! field_name = Some c)
      /\ (forall name,
            name ∈ cc_columns cc ->
            cc_mapping cc' !! name = cc_mapping cc !! name).
Proof.
  induction newly_created_columns as [|c rest IH]; intros cc Hnodup Hprefix Hlen.
  - exists cc. split; [reflexivity|]. rewrite Nat.add_0_r.
    split; [assumption|]. split; [|reflexivity]. intros i c' Hc'. discriminate.
  - simpl in Hlen. set (k := length (cc_columns cc)) in *.
    destruct (lookup_lt_is_Some_2 field_names k) as [name Hname]; [lia|].
    assert (name ∉ cc_columns cc) as Hfresh.
    { rewrite Hprefix. intros Hin.
      apply list_elem_of_lookup in Hin as [i Hi].
      apply lookup_take_Some in Hi as [Hi Hik].
      pose proof (NoDup_lookup _ _ _ _ Hnodup Hi Hname). lia. }
    assert (cc_columns (cc_add cc name c) = take (S k) field_names) as Hcols1.
    { unfold cc_add. simpl. rewrite bool_decide_eq_false_2 by assumption.
      rewrite (take_S_r _ _ _ Hname). by rewrite <- Hprefix. }
    destruct (IH (cc_add cc name c)) as (cc' & Hrun & Hcols & Hnew & Hold).
    + assumption.
    + rewrite Hcols1 at 1. f_equal. rewrite Hcols1, length_take. lia.
    + rewrite Hcols1, length_take. lia.
    + assert (length (cc_columns (cc_add cc name c)) = S k) as Hk1
        by (rewrite Hcols1, length_take; lia).
      rewrite Hk1 in *.
      exists cc'. split.
      { cbn [register_columns]. fold k.
        rewrite (py_getitem_in_range field_names (Z.of_nat k) name);
          [exact Hrun | lia | by rewrite Nat2Z.id]. }
      split.
      { rewrite Hcols. f_equal. simpl. lia. }
      assert (cc_mapping cc' !! name = Some c) as Hfirst.
      { rewrite Hold.
        - unfold cc_add. simpl. apply lookup_insert_eq.
        - rewrite Hcols1, (take_S_r _ _ _ Hname).
          apply elem_of_app. right. by apply list_elem_of_singleton. }
      split.
      * intros [|i] c' Hc'.
        -- injection Hc' as <-. exists name. by rewrite Nat.add_0_r.
        -- simpl in Hc'. apply Hnew in Hc' as (field_name & Hfield & Hmap).
           exists field_name. split; [|assumption].
           by replace (k + S i)%nat with (S k + i)%nat by lia.
      * intros name' Hin. rewrite Hold.
        -- unfold cc_add. simpl. apply lookup_insert_ne. by intros ->.
        -- rewrite Hcols1, (take_S_r _ _ _ Hname), <- Hprefix.
           apply elem_of_app. by left.
Qed.

Lemma register_columns_follow_row_type_witness :
  exists cc',
    register_columns (column_container sample_table) ["g"; "x"; "s"; "n"]
      ["tmp3"; "tmp4"] = Ok cc'
    /\ cc_columns cc'
       = take (length (cc_columns (column_container sample_table))
               + length ["tmp3"; "tmp4"]) ["g"; "x"; "s"; "n"]
    /\ (forall i c,
          ["tmp3"; "tmp4"] !! i = Some c ->
          exists field_name,
            ["g"; "x"; "s"; "n"]
              !! (length (cc_columns (column_container sample_table)) + i)%nat
            = Some field_name
            /\ cc_mapping cc' !! field_name = Some c)
    /\ (forall name,
          name ∈ cc_columns (column_container sample_table) ->
          cc_mapping cc' !! name
          = cc_mapping (column_container sample_table) !! name).
Proof.
  apply (register_columns_follow_row_type ["g"; "x"; "s"; "n"]
           ["tmp3"; "tmp4"] (column_container sample_table)).
  - apply NoDup_ListNoDup. repeat constructor; simpl; intuition discriminate.
  - reflexivity.
  - simpl. lia.
Defined.

(** ** How many partitions a group has *)

Lemma add_to_group_nonempty key row groups :
  Forall (fun g : list value * list (list value) => g.2 <> []) groups ->
  Forall (fun g : list value * list (list value) => g.2 <> [])
    (add_to_group key row groups).
Proof.
  induction 1 as [|[k g] groups Hg Hgroups IH]; simpl.
  - constructor; [discriminate | constructor].
  - case_decide; constructor; try assumption.
    simpl. intros Hnil. by apply app_eq_nil in Hnil as [_ ?].
Qed.

Lemma group_rows_nonempty key_of rs :
  Forall (fun g : list value * list (list value) => g.2 <> [])
    (group_rows key_of rs).
Proof.
  unfold group_rows.
  enough (forall groups,
    Forall (fun g : list value * list (list value) => g.2 <> []) groups ->
    Forall (fun g : list value * list (list value) => g.2 <> [])
      (foldl (fun groups row => add_to_group (key_of row) row groups) groups rs))
    as H by (apply H; constructor).
  induction rs as [|r rs IH]; intros groups Hgroups; simpl; [assumption|].
  by apply IH, add_to_group_nonempty.
Qed.

Lemma nonempty_groups_length (groups : list (list value * list (list value))) :
  Forall (fun g : list value * list (list value) => g.2 <> []) groups ->
  (length groups
   <= length (concat ((fun g : list value * list (list value) => g.2) <$> groups)))%nat.
Proof.
  induction 1 as [|[k g] groups Hg _ IH]; [simpl; lia|].
  rewrite fmap_cons, concat_cons, length_app.
  destruct g; [done|]. simpl in *. lia.
Qed.

Lemma groupby_apply_partitions (table : DataFrame) (group_columns : list string)
    (f : DataFrame -> result DataFrame) (meta out : DataFrame) (w w' : World) :
  run (groupby_apply table group_columns f meta) w = (Ok out, w') ->
  (partitions_run w <= partitions_run w' <= partitions_run w + len table)%nat.
Proof.
  intros H. unfold groupby_apply in H.
  apply run_bind_Ok in H as (key_indices & w1 & Hkeys & H).
  apply run_lift_Ok in Hkeys as [_ ->].
  apply run_bind_Ok in H as (results & w2 & Hrun & H).
  cbn in H. injection H as _ <-.
  apply run_partitions_count in Hrun. rewrite Hrun.
  split; [lia|]. apply Nat.add_le_mono_l.
  etransitivity; [apply nonempty_groups_length, group_rows_nonempty|].
  rewrite group_rows_perm. unfold len. apply length_filter.
Qed.

Section PartitionCount.

Variable literal_int : RexNode -> result Z.
Variable uuid4 : nat -> string.
Variable str_lower : string -> string.
Variable RexConverter_convert : RexNode -> DataContainer -> Context -> list value.
Variable get_groupby_with_nulls_cols :
  DataFrame -> list (list value) -> list (list value).

Lemma extract_operations_loop_len agg_calls dc context :
  forall table operations w result w',
    run (extract_operations_loop uuid4 str_lower RexConverter_convert agg_calls table dc
           context operations) w = (Ok result, w') ->
    len result.2 = len table.
Proof.
  induction agg_calls as [|agg_call agg_calls IH];
    intros table operations w result w'.
  - cbn [extract_operations_loop run mret exec_ret]. by intros [= <- <-].
  - cbn [extract_operations_loop]. intros H.
    apply run_bind_Ok in H as (operation & w1 & _ & H).
    apply run_bind_Ok in H as (temporary & w2 & _ & H).
    apply run_bind_Ok in H as (new_column & w3 & _ & H).
    apply IH in H. by rewrite H, assign_len.
Qed.

Lemma extract_group_len window dc context w extraction w1 :
  run (extract_group uuid4 str_lower RexConverter_convert get_groupby_with_nulls_cols
         window dc context) w = (Ok extraction, w1) ->
  len (ex_df extraction) = len (df dc).
Proof.
  unfold extract_group. intros H.
  apply run_bind_Ok in H as (ordering & w0 & _ & H).
  apply run_bind_Ok in H as (grouped & w2 & Hgroup & H).
  apply run_bind_Ok in H as (extracted & w3 & Hops & H).
  cbn in H. injection H as <- _. simpl.
  unfold _extract_operations in Hops.
  apply extract_operations_loop_len in Hops. rewrite Hops.
  unfold _extract_groupby in Hgroup.
  apply run_bind_Ok in Hgroup as (group_columns & w4 & _ & Hgroup).
  cbn in Hgroup. injection Hgroup as <- _. apply assign_len.
Qed.

(** X23.  For one window group the driver hands [map_on_each_group] at most
    as many partitions as the table has rows: every partition holds a row,
    and no row is in two partitions. *)
Theorem partitions_at_most_rows (window : WindowGroup)
    (constants : list RexNode) (constant_count_offset : Z) (dc : DataContainer)
    (field_names : list string) (context : Context) (w : World)
    (dc' : DataContainer) (w' : World) :
  run (_apply_window literal_int uuid4 str_lower RexConverter_convert
         get_groupby_with_nulls_cols window constants constant_count_offset dc
         field_names context) w = (Ok dc', w') ->
  (partitions_run w <= partitions_run w'
   <= partitions_run w + len (df dc))%nat.
Proof.
  intros H. unfold _apply_window in H.
  apply run_bind_Ok in H as (extraction & w1 & Hex & H).
  pose proof (quiet_extract_group uuid4 str_lower RexConverter_convert
                get_groupby_with_nulls_cols window dc context w) as Hquiet.
  rewrite Hex in Hquiet. simpl in Hquiet.
  apply extract_group_len in Hex.
  unfold apply_extracted in H.
  apply run_bind_Ok in H as (lower_bound & w2 & Hlower & H).
  apply run_lift_Ok in Hlower as [_ ->].
  apply run_bind_Ok in H as (upper_bound & w3 & Hupper & H).
  apply run_lift_Ok in Hupper as [_ ->].
  apply run_bind_Ok in H as (df1 & w4 & Hgroup & H).
  apply run_bind_Ok in H as (df2 & w5 & Hdrop & H).
  apply run_lift_Ok in Hdrop as [_ ->].
  apply run_bind_Ok in H as (cc & w6 & Hreg & H).
  apply run_lift_Ok in Hreg as [_ ->].
  cbn in H. injection H as _ <-.
  apply groupby_apply_partitions in Hgroup.
  rewrite Hex, Hquiet in Hgroup. exact Hgroup.
Qed.

End PartitionCount.

Lemma partitions_at_most_rows_witness :
  exists dc' w',
    run (_apply_window integer_literal_value numbered_uuid ascii_lower input_ref_column
           null_safe_group_columns sample_window [] 2 sample_table
           ["g"; "x"; "s"; "n"] no_functions) initial_world = (Ok dc', w')
    /\ (partitions_run initial_world <= partitions_run w'
        <= partitions_run initial_world + len (df sample_table))%nat.
Proof.
  eexists _, _. split; [vm_compute; reflexivity|].
  eapply (partitions_at_most_rows integer_literal_value numbered_uuid ascii_lower
            input_ref_column null_safe_group_columns sample_window [] 2
            sample_table ["g"; "x"; "s"; "n"] no_functions initial_world).
  vm_compute. reflexivity.
Defined.

(** ** The grouping columns *)

Section GroupingColumns.

Variable uuid4 : nat -> string.
Variable get_groupby_with_nulls_cols :
  DataFrame -> list (list value) -> list (list value).

Hypothesis uuid4_inj : Inj (=) (=) uuid4.

(** X24.  [_extract_groupby] only appends: the table it returns is the
    input with the grouping columns added behind, under names that are
    pairwise distinct and none of them a column of the input; without
    partition keys there is one grouping column, and each of its cells
    is 1. *)
Theorem extract_groupby_appends_fresh_columns (df0 : DataFrame)
    (window : WindowGroup) (dc : DataContainer) (context : Context) (w : World)
    (grouped : DataFrame * list string) (w1 : World) :
  wf_table df0 ->
  run (_extract_groupby uuid4 get_groupby_with_nulls_cols df0 window dc context) w
  = (Ok grouped, w1) ->
  extends df0 grouped.1 grouped.2
  /\ NoDup grouped.2
  /\ Forall (fun name => name ∉ columns df0) grouped.2
  /\ (keys window = [] ->
      exists name,
        grouped.2 = [name] /\ column_constant grouped.1 name (Some 1)).
Proof.
  intros Hwf H.
  pose proof (extract_groupby_extends uuid4 get_groupby_with_nulls_cols
                uuid4_inj _ _ _ _ _ _ _ H) as (Hext & Hdrawn & Hfresh & _).
  split; [assumption|]. split; [by eapply drawn_NoDup|].
  split; [assumption|]. intros Hkeys.
  unfold _extract_groupby in H. rewrite Hkeys in H. rewrite !run_bind in H.
  destruct (drawn_one uuid4 uuid4_inj df0 w) as (name & w' & Hrun & _ & Hname & _).
  rewrite Hrun in H. cbn in H. injection H as <- <-.
  exists name. split; [reflexivity|]. simpl.
  apply column_constant_assign_column; try assumption.
  - apply length_replicate.
  - by apply Forall_replicate.
Qed.

End GroupingColumns.

Lemma extract_groupby_appends_fresh_columns_witness :
  exists grouped w1,
    run (_extract_groupby numbered_uuid null_safe_group_columns (df sample_table)
           whole_table_window sample_table no_functions) initial_world
    = (Ok grouped, w1)
    /\ extends (df sample_table) grouped.1 grouped.2
    /\ NoDup grouped.2
    /\ Forall (fun name => name ∉ columns (df sample_table)) grouped.2
    /\ (keys whole_table_window = [] ->
        exists name,
          grouped.2 = [name] /\ column_constant grouped.1 name (Some 1)).
Proof.
  eexists _, _. split; [vm_compute; reflexivity|].
  eapply (extract_groupby_appends_fresh_columns numbered_uuid
            null_safe_group_columns numbered_uuid_inj (df sample_table)
            whole_table_window sample_table no_functions initial_world).
  - repeat constructor.
  - vm_compute. reflexivity.
Defined.

